(** * ManVRelay: the signed-request builder and the relay management caller

    A shallow embedding of the NIP-98 header builder ([createAuthHeader],
    [createNip98Auth]) and of the NIP-86 caller ([callRelayAPI]) found in
    the EventModeration, UserManagement, ConnectionStatus and EventsList
    components, together with the parts of the browser platform they call
    (JSON, TextEncoder, SubtleCrypto digest, btoa, String.prototype.replace,
    Array.prototype.sort).

    Conventions.
    - A JavaScript string is the list of its UTF-16 code units.
    - A JavaScript number is modelled where it is an integer that a double
      holds exactly and prints in plain decimal (magnitude up to 2^53),
      plus NaN and the two infinities; fractions and the negative zero are
      outside the model.
    - The signer extension, the clock and the network are a [World] the
      functions read; the calls made to the signer and to [fetch] are
      recorded in a trace.
    - The page runs in a secure context, where [crypto.subtle] is defined;
      what is printed on the console is not recorded. *)

From Stdlib Require Import ZArith NArith List Lia Bool String Ascii.
From Stdlib Require Import DecimalFacts DecimalPos DecimalN.
From Stdlib Require Import Sorting.Sorted Sorting.Permutation.
Import ListNotations.

Set Warnings "-register-all".

(* ===================================================================== *)
(** * The platform                                                        *)
(* ===================================================================== *)

Module JS.

(** ** Strings *)

Definition jsstring := list N.

(** The code units of an ASCII literal of the source text. *)
Definition lit (s : string) : jsstring :=
  map N_of_ascii (list_ascii_of_string s).

Fixpoint units_eqb (a b : jsstring) : bool :=
  match a, b with
  | [], [] => true
  | x :: a', y :: b' => N.eqb x y && units_eqb a' b'
  | _, _ => false
  end.

(** [String.prototype.startsWith(p)] from position 0. *)
Fixpoint startsWith (s p : jsstring) {struct p} : bool :=
  match p with
  | [] => true
  | c :: p' =>
      match s with
      | [] => false
      | x :: s' => N.eqb x c && startsWith s' p'
      end
  end.

(** [Array.prototype.join(sep)] on strings. *)
Fixpoint join (sep : jsstring) (parts : list jsstring) : jsstring :=
  match parts with
  | [] => []
  | [p] => p
  | p :: rest => p ++ sep ++ join sep rest
  end.

(** [String.prototype.padStart(n, fill)] with a one-unit filler. *)
Definition padStart (n : nat) (fill : N) (s : jsstring) : jsstring :=
  repeat fill (n - List.length s) ++ s.

(** ** Regular expressions of the form used by the caller

    [/^wss?:\/\//] is a start anchor followed by atoms that are a literal
    unit or a greedy optional literal unit. *)

Inductive atom :=
| Chr (c : N)
| Opt (c : N).

(** Backtracking match of the atoms at the head of [s]; the answer is the
    text that follows the match. *)
Fixpoint match_here (re : list atom) (s : jsstring) : option jsstring :=
  match re with
  | [] => Some s
  | Chr c :: re' =>
      match s with
      | x :: s' => if N.eqb x c then match_here re' s' else None
      | [] => None
      end
  | Opt c :: re' =>
      let taken :=
        match s with
        | x :: s' => if N.eqb x c then match_here re' s' else None
        | [] => None
        end in
      match taken with
      | Some r => Some r
      | None => match_here re' s
      end
  end.

(** [s.replace(/^re/, replacement)] for a pattern without the global and
    multiline flags and a replacement without [$]: the anchor only lets
    the match start at index 0. *)
Definition replace_anchored (re : list atom) (replacement s : jsstring)
  : jsstring :=
  match match_here re s with
  | Some rest => replacement ++ rest
  | None => s
  end.

(** ** Numbers

    The numbers the components handle are counts, kinds and times:
    [Finite z] is the number that is the integer [z].  Up to
    [MAX_SAFE_INTEGER] in magnitude every integer is a number of the
    platform and is printed and read digit by digit, as below; beyond it
    the platform rounds and prints in other ways ([1e+21]), so a fact
    that prints or reads a number carries that bound.  Fractions and the
    negative zero are not values of this model. *)

Inductive number :=
| Finite (z : Z)
| NaN
| Infinity (negative : bool).

(** [Number.MAX_SAFE_INTEGER]. *)
Definition MAX_SAFE_INTEGER : Z := 9007199254740991.

Definition digit_unit (d : N) : N := (48 + d)%N.

Fixpoint uint_units (u : Decimal.uint) : jsstring :=
  match u with
  | Decimal.Nil => []
  | Decimal.D0 u' => digit_unit 0 :: uint_units u'
  | Decimal.D1 u' => digit_unit 1 :: uint_units u'
  | Decimal.D2 u' => digit_unit 2 :: uint_units u'
  | Decimal.D3 u' => digit_unit 3 :: uint_units u'
  | Decimal.D4 u' => digit_unit 4 :: uint_units u'
  | Decimal.D5 u' => digit_unit 5 :: uint_units u'
  | Decimal.D6 u' => digit_unit 6 :: uint_units u'
  | Decimal.D7 u' => digit_unit 7 :: uint_units u'
  | Decimal.D8 u' => digit_unit 8 :: uint_units u'
  | Decimal.D9 u' => digit_unit 9 :: uint_units u'
  end.

(** Decimal digits of an integer, with a minus sign when negative: what
    [Number::toString] and [JSON.stringify] print for an integer up to
    [MAX_SAFE_INTEGER] in magnitude. *)
Definition Z_toString (z : Z) : jsstring :=
  (if (z <? 0)%Z then lit "-" else []) ++ uint_units (N.to_uint (Z.abs_N z)).

(** [Number::toString] in radix 10, for the numbers of the model. *)
Definition Number_toString (n : number) : jsstring :=
  match n with
  | Finite z => Z_toString z
  | NaN => lit "NaN"
  | Infinity negative => (if negative then lit "-" else []) ++ lit "Infinity"
  end.

(** ** Hexadecimal digits *)

Definition hex_unit (d : N) : N :=
  if (d <? 10)%N then (48 + d)%N else (87 + d)%N.

Fixpoint hex_units (u : Hexadecimal.uint) : jsstring :=
  match u with
  | Hexadecimal.Nil => []
  | Hexadecimal.D0 u' => hex_unit 0 :: hex_units u'
  | Hexadecimal.D1 u' => hex_unit 1 :: hex_units u'
  | Hexadecimal.D2 u' => hex_unit 2 :: hex_units u'
  | Hexadecimal.D3 u' => hex_unit 3 :: hex_units u'
  | Hexadecimal.D4 u' => hex_unit 4 :: hex_units u'
  | Hexadecimal.D5 u' => hex_unit 5 :: hex_units u'
  | Hexadecimal.D6 u' => hex_unit 6 :: hex_units u'
  | Hexadecimal.D7 u' => hex_unit 7 :: hex_units u'
  | Hexadecimal.D8 u' => hex_unit 8 :: hex_units u'
  | Hexadecimal.D9 u' => hex_unit 9 :: hex_units u'
  | Hexadecimal.Da u' => hex_unit 10 :: hex_units u'
  | Hexadecimal.Db u' => hex_unit 11 :: hex_units u'
  | Hexadecimal.Dc u' => hex_unit 12 :: hex_units u'
  | Hexadecimal.Dd u' => hex_unit 13 :: hex_units u'
  | Hexadecimal.De u' => hex_unit 14 :: hex_units u'
  | Hexadecimal.Df u' => hex_unit 15 :: hex_units u'
  end.

(** [b.toString(16)] for a non-negative integer. *)
Definition toString16 (b : N) : jsstring := hex_units (N.to_hex_uint b).

(** ** Values *)

Inductive value :=
| VUndefined
| VNull
| VBool (b : bool)
| VNumber (n : number)
| VString (s : jsstring)
| VArray (items : list value)
| VObject (props : list (jsstring * value)).

(** What a rejected promise or a [throw] carries. *)
Inductive exn :=
| Error (message : jsstring)     (* new Error(message) *)
| TypeError                      (* a property read on null or undefined,
                                    a value without a primitive *)
| InvalidCharacterError          (* btoa on a code unit above 0xFF *)
| Rejected (reason : value).     (* raised by the signer, fetch or json() *)

Definition ToBoolean (v : value) : bool :=
  match v with
  | VUndefined | VNull => false
  | VBool b => b
  | VNumber (Finite z) => negb (z =? 0)%Z
  | VNumber NaN => false
  | VNumber (Infinity _) => true
  | VString s => match s with [] => false | _ :: _ => true end
  | VArray _ | VObject _ => true
  end.

Fixpoint lookup (key : jsstring) (props : list (jsstring * value))
  : option value :=
  match props with
  | [] => None
  | (k, v) :: rest => if units_eqb k key then Some v else lookup key rest
  end.

(** [ToString] of a value that came out of [JSON.parse].  An array prints
    as [join(",")] of its elements, where undefined and null elements
    print as the empty string.  An object prints through
    [Object.prototype.toString]; with a key [toString] of its own, which
    holds no function, no method gives a primitive and the conversion
    throws a TypeError. *)
Fixpoint ToString (v : value) : exn + jsstring :=
  match v with
  | VUndefined => inr (lit "undefined")
  | VNull => inr (lit "null")
  | VBool true => inr (lit "true")
  | VBool false => inr (lit "false")
  | VNumber n => inr (Number_toString n)
  | VString s => inr s
  | VArray items =>
      match
        (fix each (l : list value) : exn + list jsstring :=
           match l with
           | [] => inr []
           | x :: l' =>
               match
                 match x with
                 | VUndefined | VNull => inr []
                 | _ => ToString x
                 end
               with
               | inl e => inl e
               | inr part =>
                   match each l' with
                   | inl e => inl e
                   | inr parts => inr (part :: parts)
                   end
               end
           end) items
      with
      | inl e => inl e
      | inr parts => inr (join (lit ",") parts)
      end
  | VObject props =>
      match lookup (lit "toString") props with
      | Some _ => inl TypeError
      | None => inr (lit "[object Object]")
      end
  end.

(** What [throw new Error(v)] throws: the error with the message
    [ToString v], or what the conversion throws. *)
Definition new_Error (v : value) : exn :=
  match ToString v with
  | inr message => Error message
  | inl e => e
  end.

(** [v.key] for a property name that no prototype and no exotic object
    defines (the caller reads [error] and [result]): an own data property
    of an object, undefined on any other value that has properties, and a
    TypeError on null and undefined. *)
Definition Get (v : value) (key : jsstring) : exn + value :=
  match v with
  | VUndefined | VNull => inl TypeError
  | VObject props =>
      match lookup key props with
      | Some x => inr x
      | None => inr VUndefined
      end
  | _ => inr VUndefined
  end.

(** [CreateDataProperty] on the ordered own properties: a key that is
    already there keeps its place and takes the new value. *)
Fixpoint define (k : jsstring) (v : value) (props : list (jsstring * value))
  : list (jsstring * value) :=
  match props with
  | [] => [(k, v)]
  | (k', v') :: rest =>
      if units_eqb k' k then (k', v) :: rest else (k', v') :: define k v rest
  end.

(** ** JSON.stringify *)

Definition is_high (c : N) : bool := ((55296 <=? c) && (c <=? 56319))%N.
Definition is_low (c : N) : bool := ((56320 <=? c) && (c <=? 57343))%N.

(** [UnicodeEscape]: a backslash, [u] and four lowercase hex digits. *)
Definition UnicodeEscape (c : N) : jsstring :=
  [92; 117;
   hex_unit ((c / 4096) mod 16); hex_unit ((c / 256) mod 16);
   hex_unit ((c / 16) mod 16); hex_unit (c mod 16)]%N.

(** One code unit that is not part of a surrogate pair. *)
Definition quote_unit (c : N) : jsstring :=
  if (c =? 8)%N then lit "\b"
  else if (c =? 9)%N then lit "\t"
  else if (c =? 10)%N then lit "\n"
  else if (c =? 12)%N then lit "\f"
  else if (c =? 13)%N then lit "\r"
  else if (c =? 34)%N then [92; 34]%N
  else if (c =? 92)%N then [92; 92]%N
  else if (c <? 32)%N || is_high c || is_low c then UnicodeEscape c
  else [c].

Fixpoint quote_units (s : jsstring) : jsstring :=
  match s with
  | [] => []
  | c :: s' =>
      if is_high c then
        match s' with
        | d :: s'' =>
            if is_low d then c :: d :: quote_units s''
            else UnicodeEscape c ++ quote_units s'
        | [] => UnicodeEscape c
        end
      else quote_unit c ++ quote_units s'
  end.

Definition QuoteJSONString (s : jsstring) : jsstring :=
  [34%N] ++ quote_units s ++ [34%N].

(** [SerializeJSONProperty] without replacer and indentation: undefined
    has no serialization; inside an array it is written as null, inside an
    object its key is left out; a number that is not finite is written as
    null. *)
Fixpoint SerializeJSONProperty (v : value) : option jsstring :=
  match v with
  | VUndefined => None
  | VNull => Some (lit "null")
  | VBool true => Some (lit "true")
  | VBool false => Some (lit "false")
  | VNumber (Finite z) => Some (Z_toString z)
  | VNumber _ => Some (lit "null")
  | VString s => Some (QuoteJSONString s)
  | VArray items =>
      Some (lit "[" ++
            join (lit ",")
              ((fix elements (l : list value) : list jsstring :=
                  match l with
                  | [] => []
                  | x :: l' =>
                      match SerializeJSONProperty x with
                      | Some t => t
                      | None => lit "null"
                      end :: elements l'
                  end) items) ++
            lit "]")
  | VObject props =>
      Some (lit "{" ++
            join (lit ",")
              ((fix members (l : list (jsstring * value)) : list jsstring :=
                  match l with
                  | [] => []
                  | (k, x) :: l' =>
                      match SerializeJSONProperty x with
                      | Some t => (QuoteJSONString k ++ lit ":" ++ t) :: members l'
                      | None => members l'
                      end
                  end) props) ++
            lit "}")
  end.

Definition JSON_stringify (v : value) : option jsstring :=
  SerializeJSONProperty v.

(** A template literal or [btoa] applied to what [JSON.stringify] gave. *)
Definition ToString_opt (s : option jsstring) : jsstring :=
  match s with
  | Some t => t
  | None => lit "undefined"
  end.

(** ** JSON.parse

    The JSON grammar, read from a list of code units.  A number literal
    with a fraction or an exponent is outside the number model and is
    answered with [None], like a syntax error. *)

Definition is_ws (c : N) : bool :=
  ((c =? 32) || (c =? 9) || (c =? 10) || (c =? 13))%N.

Fixpoint skip_ws (s : jsstring) : jsstring :=
  match s with
  | c :: s' => if is_ws c then skip_ws s' else s
  | [] => []
  end.

Definition is_digit (c : N) : bool := ((48 <=? c) && (c <=? 57))%N.

Definition hex_value (c : N) : option N :=
  if is_digit c then Some (c - 48)%N
  else if ((97 <=? c) && (c <=? 102))%N then Some (c - 87)%N
  else if ((65 <=? c) && (c <=? 70))%N then Some (c - 55)%N
  else None.

Definition hex4 (a b c d : N) : option N :=
  match hex_value a, hex_value b, hex_value c, hex_value d with
  | Some x, Some y, Some z, Some w => Some (x * 4096 + y * 256 + z * 16 + w)%N
  | _, _, _, _ => None
  end.

Definition prepend (c : N) (r : option (jsstring * jsstring))
  : option (jsstring * jsstring) :=
  match r with
  | Some (t, rest) => Some (c :: t, rest)
  | None => None
  end.

(** The text after an opening quote, up to the closing one. *)
Fixpoint parse_string_body (s : jsstring) : option (jsstring * jsstring) :=
  match s with
  | [] => None
  | c :: r =>
      if (c =? 34)%N then Some ([], r)
      else if (c =? 92)%N then
        match r with
        | [] => None
        | e :: r' =>
            if (e =? 34)%N then prepend 34%N (parse_string_body r')
            else if (e =? 92)%N then prepend 92%N (parse_string_body r')
            else if (e =? 47)%N then prepend 47%N (parse_string_body r')
            else if (e =? 98)%N then prepend 8%N (parse_string_body r')
            else if (e =? 102)%N then prepend 12%N (parse_string_body r')
            else if (e =? 110)%N then prepend 10%N (parse_string_body r')
            else if (e =? 114)%N then prepend 13%N (parse_string_body r')
            else if (e =? 116)%N then prepend 9%N (parse_string_body r')
            else if (e =? 117)%N then
              match r' with
              | h1 :: h2 :: h3 :: h4 :: r'' =>
                  match hex4 h1 h2 h3 h4 with
                  | Some u => prepend u (parse_string_body r'')
                  | None => None
                  end
              | _ => None
              end
            else None
        end
      else if (c <? 32)%N then None
      else prepend c (parse_string_body r)
  end.

Fixpoint take_digits (s : jsstring) : jsstring * jsstring :=
  match s with
  | c :: s' =>
      if is_digit c then
        let (ds, rest) := take_digits s' in (c :: ds, rest)
      else ([], s)
  | [] => ([], [])
  end.

Definition digit_cons (c : N) (u : Decimal.uint) : Decimal.uint :=
  if (c =? 48)%N then Decimal.D0 u
  else if (c =? 49)%N then Decimal.D1 u
  else if (c =? 50)%N then Decimal.D2 u
  else if (c =? 51)%N then Decimal.D3 u
  else if (c =? 52)%N then Decimal.D4 u
  else if (c =? 53)%N then Decimal.D5 u
  else if (c =? 54)%N then Decimal.D6 u
  else if (c =? 55)%N then Decimal.D7 u
  else if (c =? 56)%N then Decimal.D8 u
  else Decimal.D9 u.

Definition units_uint (ds : jsstring) : Decimal.uint :=
  fold_right digit_cons Decimal.Nil ds.

(** The integer part of a number literal: one or more digits, without a
    leading zero unless the literal is the single digit 0.  A literal
    that goes on with a fraction or an exponent is a number this model
    does not hold, and the parser has no answer for it. *)
Definition parse_digits (s : jsstring) : option (N * jsstring) :=
  let (ds, rest) := take_digits s in
  let continues :=
    match rest with
    | c :: _ => ((c =? 46) || (c =? 101) || (c =? 69))%N
    | [] => false
    end in
  match ds with
  | [] => None
  | d :: ds' =>
      if continues then None
      else if (d =? 48)%N && negb (match ds' with [] => true | _ => false end)
      then None
      else Some (N.of_uint (units_uint ds), rest)
  end.

Definition parse_number (s : jsstring) : option (value * jsstring) :=
  match s with
  | c :: r =>
      if (c =? 45)%N then
        match parse_digits r with
        | Some (n, rest) => Some (VNumber (Finite (- Z.of_N n)), rest)
        | None => None
        end
      else
        match parse_digits s with
        | Some (n, rest) => Some (VNumber (Finite (Z.of_N n)), rest)
        | None => None
        end
  | [] => None
  end.

Definition parse_literal (s : jsstring) : option (value * jsstring) :=
  if startsWith s (lit "true") then Some (VBool true, skipn 4 s)
  else if startsWith s (lit "false") then Some (VBool false, skipn 5 s)
  else if startsWith s (lit "null") then Some (VNull, skipn 4 s)
  else parse_number s.

(** Recursive descent; [fuel] bounds the number of nested calls. *)
Fixpoint parse_value (fuel : nat) (s : jsstring) : option (value * jsstring) :=
  match fuel with
  | O => None
  | S fuel' =>
      match skip_ws s with
      | [] => None
      | c :: r =>
          if (c =? 34)%N then
            match parse_string_body r with
            | Some (t, rest) => Some (VString t, rest)
            | None => None
            end
          else if (c =? 91)%N then
            match skip_ws r with
            | [] => None
            | d :: r' =>
                if (d =? 93)%N then Some (VArray [], r')
                else
                  match parse_elements fuel' (d :: r') with
                  | Some (l, rest) => Some (VArray l, rest)
                  | None => None
                  end
            end
          else if (c =? 123)%N then
            match skip_ws r with
            | [] => None
            | d :: r' =>
                if (d =? 125)%N then Some (VObject [], r')
                else
                  match parse_members fuel' [] (d :: r') with
                  | Some (l, rest) => Some (VObject l, rest)
                  | None => None
                  end
            end
          else parse_literal (c :: r)
      end
  end

with parse_elements (fuel : nat) (s : jsstring)
  : option (list value * jsstring) :=
  match fuel with
  | O => None
  | S fuel' =>
      match parse_value fuel' s with
      | None => None
      | Some (v, r) =>
          match skip_ws r with
          | [] => None
          | c :: r' =>
              if (c =? 44)%N then
                match parse_elements fuel' r' with
                | Some (l, rest) => Some (v :: l, rest)
                | None => None
                end
              else if (c =? 93)%N then Some ([v], r')
              else None
          end
      end
  end

with parse_members (fuel : nat) (acc : list (jsstring * value))
       (s : jsstring) : option (list (jsstring * value) * jsstring) :=
  match fuel with
  | O => None
  | S fuel' =>
      match skip_ws s with
      | [] => None
      | q :: r =>
          if (q =? 34)%N then
            match parse_string_body r with
            | None => None
            | Some (k, r1) =>
                match skip_ws r1 with
                | [] => None
                | colon :: r2 =>
                    if (colon =? 58)%N then
                      match parse_value fuel' r2 with
                      | None => None
                      | Some (v, r3) =>
                          match skip_ws r3 with
                          | [] => None
                          | c :: r4 =>
                              if (c =? 44)%N then
                                parse_members fuel' (define k v acc) r4
                              else if (c =? 125)%N then
                                Some (define k v acc, r4)
                              else None
                          end
                      end
                    else None
                end
            end
          else None
      end
  end.

(** [JSON.parse(text)]: the value of a JSON text whose numbers are
    integers written without fraction and exponent; [None] for a text
    that is not JSON and for a text with another number. *)
Definition JSON_parse (text : jsstring) : option value :=
  match parse_value (2 * List.length text + 2) text with
  | Some (v, rest) =>
      match skip_ws rest with
      | [] => Some v
      | _ :: _ => None
      end
  | None => None
  end.

(** ** parseInt, isNaN and split *)

(** [StrWhiteSpaceChar]: white space and line terminators. *)
Definition is_StrWhiteSpaceChar (c : N) : bool :=
  ((9 <=? c) && (c <=? 13) || (c =? 32) || (c =? 160) || (c =? 5760)
   || (8192 <=? c) && (c <=? 8202) || (c =? 8232) || (c =? 8233)
   || (c =? 8239) || (c =? 8287) || (c =? 12288) || (c =? 65279))%N.

Fixpoint trim_start (s : jsstring) : jsstring :=
  match s with
  | c :: s' => if is_StrWhiteSpaceChar c then trim_start s' else s
  | [] => []
  end.

(** The value of a digit or letter in a radix up to 36. *)
Definition radix_digit (radix c : N) : option N :=
  let v :=
    if is_digit c then Some (c - 48)%N
    else if ((97 <=? c) && (c <=? 122))%N then Some (c - 87)%N
    else if ((65 <=? c) && (c <=? 90))%N then Some (c - 55)%N
    else None in
  match v with
  | Some d => if (d <? radix)%N then Some d else None
  | None => None
  end.

(** The value of the longest run of digits at the head of [s], when there
    is one; [acc] is the value of the digits read so far. *)
Fixpoint radix_prefix (radix : N) (acc : option N) (s : jsstring)
  : option N :=
  match s with
  | [] => acc
  | c :: s' =>
      match radix_digit radix c with
      | Some d =>
          radix_prefix radix
            (Some (match acc with Some a => a * radix + d | None => d end)%N)
            s'
      | None => acc
      end
  end.

(** [parseInt(s)] without a radix argument.  The integer read is kept
    digit by digit, as the platform keeps it up to [MAX_SAFE_INTEGER] in
    magnitude; beyond that the platform rounds it to a double, an
    infinity for some hundred digits.  Whether there is a number and its
    sign are the platform's at any length. *)
Definition parseInt (s : jsstring) : number :=
  let s1 := trim_start s in
  let (negative, s2) :=
    match s1 with
    | c :: r =>
        if (c =? 45)%N then (true, r)
        else if (c =? 43)%N then (false, r)
        else (false, s1)
    | [] => (false, s1)
    end in
  let (radix, s3) :=
    match s2 with
    | z :: x :: r =>
        if ((z =? 48) && ((x =? 120) || (x =? 88)))%N then (16%N, r)
        else (10%N, s2)
    | _ => (10%N, s2)
    end in
  match radix_prefix radix None s3 with
  | Some n => Finite (if negative then - Z.of_N n else Z.of_N n)
  | None => NaN
  end.

Definition isNaN (n : number) : bool :=
  match n with
  | NaN => true
  | _ => false
  end.

(** [s.split(sep)] for a separator of one code unit. *)
Fixpoint split (sep : N) (s : jsstring) : list jsstring :=
  match s with
  | [] => [[]]
  | c :: s' =>
      if (c =? sep)%N then [] :: split sep s'
      else
        match split sep s' with
        | part :: parts => (c :: part) :: parts
        | [] => [[c]]
        end
  end.

(** ** TextEncoder

    [new TextEncoder().encode(s)]: the UTF-8 bytes of the string, a
    surrogate without its partner being written as U+FFFD. *)

Definition utf8_code_point (cp : N) : list N :=
  (if cp <? 128 then [cp]
   else if cp <? 2048 then [192 + cp / 64; 128 + cp mod 64]
   else if cp <? 65536 then
     [224 + cp / 4096; 128 + (cp / 64) mod 64; 128 + cp mod 64]
   else
     [240 + cp / 262144; 128 + (cp / 4096) mod 64;
      128 + (cp / 64) mod 64; 128 + cp mod 64])%N.

Fixpoint TextEncoder_encode (s : jsstring) : list N :=
  match s with
  | [] => []
  | c :: s' =>
      if is_high c then
        match s' with
        | d :: s'' =>
            if is_low d then
              utf8_code_point (65536 + (c - 55296) * 1024 + (d - 56320))%N
                ++ TextEncoder_encode s''
            else utf8_code_point 65533%N ++ TextEncoder_encode s'
        | [] => utf8_code_point 65533%N
        end
      else if is_low c then utf8_code_point 65533%N ++ TextEncoder_encode s'
      else utf8_code_point c ++ TextEncoder_encode s'
  end.

(** ** SubtleCrypto.digest("SHA-256", bytes), after FIPS 180-4 *)

Module SHA256.

Local Open Scope N_scope.

Definition w32 (x : N) : N := x mod 4294967296.
Definition add32 (x y : N) : N := w32 (x + y).
Definition rotr (n x : N) : N :=
  N.lor (N.shiftr x n) (w32 (N.shiftl x (32 - n))).
Definition not32 (x : N) : N := N.lxor x 4294967295.

Definition Ch (x y z : N) : N := N.lxor (N.land x y) (N.land (not32 x) z).
Definition Maj (x y z : N) : N :=
  N.lxor (N.lxor (N.land x y) (N.land x z)) (N.land y z).
Definition Sum0 (x : N) : N :=
  N.lxor (N.lxor (rotr 2 x) (rotr 13 x)) (rotr 22 x).
Definition Sum1 (x : N) : N :=
  N.lxor (N.lxor (rotr 6 x) (rotr 11 x)) (rotr 25 x).
Definition sig0 (x : N) : N :=
  N.lxor (N.lxor (rotr 7 x) (rotr 18 x)) (N.shiftr x 3).
Definition sig1 (x : N) : N :=
  N.lxor (N.lxor (rotr 17 x) (rotr 19 x)) (N.shiftr x 10).

(** The round constants and the initial hash are the leading 32 fraction
    bits of the cube roots and of the square roots of the first primes. *)
Definition is_prime (n : N) : bool :=
  forallb (fun d => negb (n mod N.of_nat d =? 0)) (seq 2 (N.to_nat n - 2)).

Definition primes : list N :=
  Eval vm_compute in
    firstn 64 (filter is_prime (map N.of_nat (seq 2 310))).

Fixpoint root3 (bits : nat) (n r : N) : N :=
  match bits with
  | O => r
  | S b =>
      let c := r + 2 ^ N.of_nat b in
      if c * c * c <=? n then root3 b n c else root3 b n r
  end.

Definition K : list N :=
  Eval vm_compute in map (fun p => w32 (root3 35 (p * 2 ^ 96) 0)) primes.

Definition H0 : list N :=
  Eval vm_compute in map (fun p => w32 (N.sqrt (p * 2 ^ 64))) (firstn 8 primes).

Definition be_bytes (count : nat) (n : N) : list N :=
  map (fun i => (n / 256 ^ N.of_nat i) mod 256) (rev (seq 0 count)).

(** Padding: the bit 1, zero bits up to 56 modulo 64 bytes, and the
    message length in bits as a 64-bit big-endian integer. *)
Definition pad (msg : list N) : list N :=
  let l := List.length msg in
  msg ++ [128] ++ repeat 0 ((64 - (l + 9) mod 64) mod 64)%nat
      ++ be_bytes 8 (8 * N.of_nat l).

Fixpoint words (bytes : list N) : list N :=
  match bytes with
  | a :: b :: c :: d :: rest => (((a * 256 + b) * 256 + c) * 256 + d) :: words rest
  | _ => []
  end.

Fixpoint blocks (count : nat) (ws : list N) : list (list N) :=
  match count with
  | O => []
  | S count' => firstn 16 ws :: blocks count' (skipn 16 ws)
  end.

(** The message schedule past the first 16 words; [window] holds the
    last 16 words, oldest first. *)
Fixpoint schedule (count : nat) (window : list N) : list N :=
  match count with
  | O => []
  | S count' =>
      let w := add32 (add32 (sig1 (nth 14 window 0)) (nth 9 window 0))
                     (add32 (sig0 (nth 1 window 0)) (nth 0 window 0)) in
      w :: schedule count' (tl window ++ [w])
  end.

Definition round (st : list N) (kw : N * N) : list N :=
  match st with
  | [a; b; c; d; e; f; g; h] =>
      let t1 := add32 (add32 (add32 h (Sum1 e)) (add32 (Ch e f g) (fst kw)))
                      (snd kw) in
      let t2 := add32 (Sum0 a) (Maj a b c) in
      [add32 t1 t2; a; b; c; add32 d t1; e; f; g]
  | _ => st
  end.

Definition compress (h : list N) (block : list N) : list N :=
  let w := block ++ schedule 48 block in
  map (fun p => add32 (fst p) (snd p))
      (combine h (fold_left round (combine K w) h)).

Definition digest (msg : list N) : list N :=
  let padded := pad msg in
  let hash := fold_left compress
                (blocks (List.length padded / 64) (words padded)) H0 in
  flat_map (be_bytes 4) hash.

End SHA256.

(** [Array.from(new Uint8Array(hash)).map(b => b.toString(16)
    .padStart(2, '0')).join('')] *)
Definition hashHex (hash : list N) : jsstring :=
  join [] (map (fun b => padStart 2 48%N (toString16 b)) hash).

(** ** btoa *)

Definition base64_unit (i : N) : N :=
  (if i <? 26 then 65 + i
   else if i <? 52 then 71 + i
   else if i <? 62 then i - 4
   else if i =? 62 then 43
   else 47)%N.

Fixpoint base64 (bytes : list N) : jsstring :=
  match bytes with
  | [] => []
  | [a] =>
      [base64_unit (a / 4); base64_unit ((a mod 4) * 16); 61; 61]%N
  | [a; b] =>
      [base64_unit (a / 4); base64_unit ((a mod 4) * 16 + b / 16);
       base64_unit ((b mod 16) * 4); 61]%N
  | a :: b :: c :: rest =>
      [base64_unit (a / 4); base64_unit ((a mod 4) * 16 + b / 16);
       base64_unit ((b mod 16) * 4 + c / 64); base64_unit (c mod 64)]%N
        ++ base64 rest
  end.

(** [btoa(s)] reads each code unit as one byte and fails when one of them
    does not fit. *)
Definition btoa (s : jsstring) : exn + jsstring :=
  if forallb (fun c => (c <=? 255)%N) s then inr (base64 s)
  else inl InvalidCharacterError.

(** ** Array.prototype.sort

    The sort is stable, and for a comparator that orders the elements
    consistently its result does not depend on the algorithm; the model
    inserts each element before the first one it does not have to follow.
    [compare a b] is the comparator's number: [a] stays before [b] when it
    is not positive. *)

Section Sort.
Variable A : Type.
Variable compare : A -> A -> Z.

Fixpoint sort_insert (x : A) (sorted : list A) : list A :=
  match sorted with
  | [] => [x]
  | y :: rest =>
      if (compare x y <=? 0)%Z then x :: y :: rest
      else y :: sort_insert x rest
  end.

Definition Array_sort (items : list A) : list A :=
  fold_right sort_insert [] items.

End Sort.

Arguments sort_insert {A} compare x sorted.
Arguments Array_sort {A} compare items.

End JS.

(* ===================================================================== *)
(** * The world outside: signer extension, clock and network             *)
(* ===================================================================== *)

Module Env.
Import JS.

(** The record handed to the signer (the NIP-07 [NostrEvent] before it
    has an id, a public key and a signature). *)
Record NostrEvent := {
  kind : Z;
  content : jsstring;
  tags : list (list jsstring);
  created_at : Z
}.

(** [window.nostr]; what the extension answers is its own business. *)
Record NostrSigner := {
  signEvent : NostrEvent -> exn + value
}.

(** The argument of [fetch]. *)
Record Request := {
  url : jsstring;
  method : jsstring;
  headers : list (jsstring * jsstring);
  body : option jsstring
}.

(** The [Response] a resolved [fetch] gives; [json] is the outcome of
    [response.json()]. *)
Record Response := {
  status : Z;
  statusText : jsstring;
  json : exn + value
}.

Definition ok (r : Response) : bool :=
  ((200 <=? status r) && (status r <=? 299))%Z.

Record World := {
  window_nostr : option NostrSigner;
  Date_now : Z;                            (* milliseconds since the epoch *)
  fetch : Request -> exn + Response
}.

(** The calls that leave the page. *)
Inductive call :=
| SignEvent (e : NostrEvent)
| Fetch (r : Request).

(** An asynchronous function: it extends the trace of calls and either
    throws or returns. *)
Definition M (A : Type) : Type := list call -> (exn + A) * list call.

Definition ret {A} (a : A) : M A := fun t => (inr a, t).
Definition throw {A} (e : exn) : M A := fun t => (inl e, t).
Definition lift {A} (r : exn + A) : M A := fun t => (r, t).
Definition perform {A} (c : call) (r : exn + A) : M A :=
  fun t => (r, t ++ [c]).

Definition bind {A B} (m : M A) (k : A -> M B) : M B :=
  fun t =>
    match m t with
    | (inr a, t') => k a t'
    | (inl e, t') => (inl e, t')
    end.

Definition try_catch {A} (m : M A) (handler : exn -> M A) : M A :=
  fun t =>
    match m t with
    | (inl e, t') => handler e t'
    | (inr a, t') => (inr a, t')
    end.

Definition run {A} (m : M A) : (exn + A) * list call := m [].

Definition outcome {A} (m : M A) : exn + A := fst (run m).
Definition trace {A} (m : M A) : list call := snd (run m).

(** The requests the network saw. *)
Fixpoint fetched (t : list call) : list Request :=
  match t with
  | [] => []
  | Fetch r :: t' => r :: fetched t'
  | SignEvent _ :: t' => fetched t'
  end.

(** The records the signer saw. *)
Fixpoint signed (t : list call) : list NostrEvent :=
  match t with
  | [] => []
  | SignEvent e :: t' => e :: signed t'
  | Fetch _ :: t' => signed t'
  end.

Declare Scope async_scope.
Delimit Scope async_scope with async.
Notation "x <- m ;; k" := (bind m (fun x => k))
  (at level 61, m at next level, right associativity) : async_scope.

(** A parameter of a management call: [string | number | undefined]. *)
Inductive param :=
| PString (s : jsstring)
| PNumber (n : number)
| PUndefined.

Definition param_value (p : param) : value :=
  match p with
  | PString s => VString s
  | PNumber n => VNumber n
  | PUndefined => VUndefined
  end.

(** The pattern [/^wss?:\/\//]. *)
Definition wss_scheme : list atom :=
  map Chr (lit "ws") ++ map Opt (lit "s") ++ map Chr (lit "://").

End Env.

(* ===================================================================== *)
(** * EventModeration.tsx

    UserManagement.tsx (twice) and ConnectionStatus.tsx hold the same two
    functions, letter for letter.                                         *)
(* ===================================================================== *)

Module EventModeration.
Import JS Env.
Local Open Scope async_scope.

(** [Date.now()] is a whole number of milliseconds below 2^53, for which
    [Math.floor(Date.now() / 1000)] is the integer quotient.  The tag that
    the source pushes onto [event.tags] is appended to the list. *)
Definition createAuthHeader (w : World) (url method : jsstring)
    (payload : option jsstring) : M jsstring :=
  match window_nostr w with
  | None => throw (Error (lit "NIP-07 extension not found"))
  | Some nostr =>
      let event :=
        {| kind := 27235;
           content := lit "";
           tags := [[lit "u"; url]; [lit "method"; method]];
           created_at := (Date_now w / 1000)%Z |} in
      let event :=
        match payload with
        | Some text =>
            if ToBoolean (VString text) then
              let hash := SHA256.digest (TextEncoder_encode text) in
              {| kind := kind event;
                 content := content event;
                 tags := tags event ++ [[lit "payload"; hashHex hash]];
                 created_at := created_at event |}
            else event
        | None => event
        end in
      signedEvent <- perform (SignEvent event) (signEvent nostr event) ;;
      encoded <- lift (btoa (ToString_opt (JSON_stringify signedEvent))) ;;
      ret (lit "Nostr " ++ encoded)
  end.

(** What follows [await fetch(...)]. *)
Definition unwrap (response : Response) : M value :=
  if negb (ok response) then
    throw (Error (lit "HTTP " ++ Z_toString (status response) ++ lit ": "
                    ++ statusText response))
  else
    result <- lift (json response) ;;
    error <- lift (Get result (lit "error")) ;;
    if ToBoolean error then throw (new_Error error)
    else lift (Get result (lit "result")).

Definition callRelayAPI (w : World) (relayUrl method : jsstring)
    (params : option (list param)) : M value :=
  let params := match params with Some l => l | None => [] end in
  let httpUrl := replace_anchored wss_scheme (lit "https://") relayUrl in
  let payload :=
    JSON_stringify
      (VObject [(lit "method", VString method);
                (lit "params", VArray (map param_value params))]) in
  authHeader <- createAuthHeader w httpUrl (lit "POST") payload ;;
  let request :=
    {| url := httpUrl;
       method := lit "POST";
       headers := [(lit "Content-Type", lit "application/nostr+json+rpc");
                   (lit "Authorization", authHeader)];
       body := payload |} in
  response <- perform (Fetch request) (fetch w request) ;;
  unwrap response.

End EventModeration.

(* ===================================================================== *)
(** * EventsList.tsx                                                      *)
(* ===================================================================== *)

Module EventsList.
Import JS Env.
Local Open Scope async_scope.

Definition createNip98Auth (w : World) (url method : jsstring)
    (payload : option jsstring) : M jsstring :=
  match window_nostr w with
  | None => throw (Error (lit "NIP-07 extension not found"))
  | Some nostr =>
      let event :=
        {| kind := 27235;
           content := lit "";
           tags := [[lit "u"; url]; [lit "method"; method]];
           created_at := (Date_now w / 1000)%Z |} in
      let event :=
        match payload with
        | Some text =>
            if ToBoolean (VString text) then
              let hash := SHA256.digest (TextEncoder_encode text) in
              {| kind := kind event;
                 content := content event;
                 tags := tags event ++ [[lit "payload"; hashHex hash]];
                 created_at := created_at event |}
            else event
        | None => event
        end in
      signedEvent <- perform (SignEvent event) (signEvent nostr event) ;;
      encoded <- lift (btoa (ToString_opt (JSON_stringify signedEvent))) ;;
      ret (lit "Nostr " ++ encoded)
  end.

(** The body of the [try] block after the request is sent. *)
Definition unwrap (response : Response) : M value :=
  if negb (ok response) then
    throw (Error (lit "HTTP " ++ Z_toString (status response) ++ lit ": "
                    ++ statusText response))
  else
    result <- lift (json response) ;;
    error <- lift (Get result (lit "error")) ;;
    if ToBoolean error then throw (new_Error error)
    else lift (Get result (lit "result")).

(** The [catch] block; the warning it prints on the console is not part
    of the model. *)
Definition recover (method : jsstring) (error : exn) : M value :=
  if startsWith method (lit "list") then ret (VArray [])
  else throw error.

(** The [try] block. *)
Definition attempt (w : World) (httpUrl : jsstring)
    (payload : option jsstring) : M value :=
  authHeader <- createNip98Auth w httpUrl (lit "POST") payload ;;
  let request :=
    {| url := httpUrl;
       method := lit "POST";
       headers := [(lit "Content-Type", lit "application/nostr+json+rpc");
                   (lit "Authorization", authHeader)];
       body := payload |} in
  response <- perform (Fetch request) (fetch w request) ;;
  unwrap response.

Definition callRelayAPI (w : World) (relayUrl method : jsstring)
    (params : option (list param)) : M value :=
  let params := match params with Some l => l | None => [] end in
  let httpUrl := replace_anchored wss_scheme (lit "https://") relayUrl in
  let payload :=
    JSON_stringify
      (VObject [(lit "method", VString method);
                (lit "params", VArray (map param_value params))]) in
  try_catch (attempt w httpUrl payload) (recover method).

(** An event as the relay pool returns it (NIP-01). *)
Record NostrEvent := {
  id : jsstring;
  pubkey : jsstring;
  created_at : Z;
  kind : Z;
  tags : list (list jsstring);
  content : jsstring;
  sig : jsstring
}.

(** The filter handed to the relay pool. *)
Record Filter := {
  limit : number;
  kinds : option (list number)
}.

(** The filter the [relay-events] query builds from the state of the
    component. *)
Definition build_filter (kindFilter : jsstring) (limit : number)
    (customKind : jsstring) : Filter :=
  let filter := {| limit := limit; kinds := None |} in
  if negb (units_eqb kindFilter (lit "all")) then
    if units_eqb kindFilter (lit "custom") && ToBoolean (VString customKind)
    then
      let kind := parseInt customKind in
      if negb (isNaN kind) then {| limit := limit; kinds := Some [kind] |}
      else filter
    else if negb (units_eqb kindFilter (lit "custom")) then
      let kinds :=
        List.filter (fun k => negb (isNaN k))
          (map (fun k => parseInt k) (split 44%N kindFilter)) in
      if (0 <? List.length kinds)%nat
      then {| limit := limit; kinds := Some kinds |}
      else filter
    else filter
  else filter.

(** The [queryFn] of the [relay-events] query.  [query] is
    [nostr.query] with the abort signal of ten seconds: the events it
    resolves with, or its rejection.  The events are sorted in place with
    the comparator [(a, b) => b.created_at - a.created_at] and returned. *)
Definition queryFn (query : list Filter -> exn + list NostrEvent)
    (kindFilter : jsstring) (limit : number) (customKind : jsstring)
  : exn + list NostrEvent :=
  let filter := build_filter kindFilter limit customKind in
  match query [filter] with
  | inl e => inl e
  | inr events =>
      inr (Array_sort (fun a b => (created_at b - created_at a)%Z) events)
  end.

End EventsList.

(* ===================================================================== *)
(** * The components side by side, and sample worlds                      *)
(* ===================================================================== *)

Module Components.
Import JS Env.

(** The files that carry a copy of the two helpers. *)
Inductive component :=
| InEventModeration
| InUserManagement
| InConnectionStatus
| InEventsList.

Definition builder (c : component)
  : World -> jsstring -> jsstring -> option jsstring -> M jsstring :=
  match c with
  | InEventsList => EventsList.createNip98Auth
  | _ => EventModeration.createAuthHeader
  end.

Definition caller (c : component)
  : World -> jsstring -> jsstring -> option (list param) -> M value :=
  match c with
  | InEventsList => EventsList.callRelayAPI
  | _ => EventModeration.callRelayAPI
  end.

(** Whether the component's caller answers a failure of this method with
    an empty list. *)
Definition swallows (c : component) (method : jsstring) : bool :=
  match c with
  | InEventsList => startsWith method (lit "list")
  | _ => false
  end.

(** The text [callRelayAPI] names [httpUrl]. *)
Definition httpUrl (relayUrl : jsstring) : jsstring :=
  replace_anchored wss_scheme (lit "https://") relayUrl.

(** The parameter list, with the default of the signature. *)
Definition listed (params : option (list param)) : list param :=
  match params with Some l => l | None => [] end.

(** The value [callRelayAPI] names [payload]. *)
Definition payload (method : jsstring) (params : option (list param))
  : option jsstring :=
  JSON_stringify
    (VObject [(lit "method", VString method);
              (lit "params", VArray (map param_value (listed params)))]).

(** The text of one parameter inside the array. *)
Definition written (p : param) : jsstring :=
  match SerializeJSONProperty (param_value p) with
  | Some t => t
  | None => lit "null"
  end.

(** The text [JSON.stringify] gives for [{ method, params }]. *)
Definition payload_text (method : jsstring) (params : option (list param))
  : jsstring :=
  lit "{" ++ QuoteJSONString (lit "method") ++ lit ":"
    ++ QuoteJSONString method ++ lit ","
    ++ QuoteJSONString (lit "params") ++ lit ":"
    ++ lit "[" ++ join (lit ",") (map written (listed params)) ++ lit "]"
    ++ lit "}".

(** A text that ends a number: it starts with a comma or a closing
    bracket. *)
Definition closes (rest : jsstring) : Prop :=
  exists c r, rest = c :: r /\ (c = 44%N \/ c = 93%N).


(** A parameter the model prints as the platform does: a string,
    undefined, NaN, an infinity, or an integer up to [MAX_SAFE_INTEGER]
    in magnitude. *)
Definition exact (p : param) : Prop :=
  match p with
  | PNumber (Finite z) => (Z.abs z <= MAX_SAFE_INTEGER)%Z
  | _ => True
  end.

(** What a JSON round trip leaves of a parameter. *)
Definition received (p : param) : value :=
  match p with
  | PString s => VString s
  | PNumber (Finite z) => VNumber (Finite z)
  | PNumber _ => VNull
  | PUndefined => VNull
  end.

(** Two lowercase hexadecimal digits for every byte. *)
Definition hex_encode (bytes : list N) : jsstring :=
  flat_map (fun b => [hex_unit (b / 16); hex_unit (b mod 16)]%N) bytes.

(** The value of a base64 digit. *)
Definition base64_value (c : N) : option N :=
  (if (65 <=? c) && (c <=? 90) then Some (c - 65)
   else if (97 <=? c) && (c <=? 122) then Some (c - 71)
   else if (48 <=? c) && (c <=? 57) then Some (c + 4)
   else if c =? 43 then Some 62
   else if c =? 47 then Some 63
   else None)%N.

Definition sextets (a b c d : N) : option (N * N * N * N) :=
  match base64_value a, base64_value b, base64_value c, base64_value d with
  | Some x, Some y, Some z, Some w => Some (x, y, z, w)
  | _, _, _, _ => None
  end.

(** The bytes a base64 text with padding stands for (RFC 4648); the
    relay reads the header with it. *)
Fixpoint base64_decode (s : jsstring) : option (list N) :=
  match s with
  | [] => Some []
  | a :: b :: c :: d :: rest =>
      if (d =? 61)%N then
        match rest with
        | [] =>
            if (c =? 61)%N then
              match base64_value a, base64_value b with
              | Some x, Some y => Some [x * 4 + y / 16]%N
              | _, _ => None
              end
            else
              match base64_value a, base64_value b, base64_value c with
              | Some x, Some y, Some z =>
                  Some [x * 4 + y / 16; (y mod 16) * 16 + z / 4]%N
              | _, _, _ => None
              end
        | _ :: _ => None
        end
      else
        match sextets a b c d, base64_decode rest with
        | Some (x, y, z, w), Some bytes =>
            Some ([x * 4 + y / 16; (y mod 16) * 16 + z / 4;
                   (z mod 4) * 64 + w]%N ++ bytes)
        | _, _ => None
        end
  | _ => None
  end.

Definition latin1 (s : jsstring) : Prop := Forall (fun c => (c <= 255)%N) s.

(** The tags and the record the builder makes for its arguments. *)
Definition attestation_tags (url method : jsstring) (body : option jsstring)
  : list (list jsstring) :=
  [[lit "u"; url]; [lit "method"; method]] ++
  match body with
  | Some (c :: text) =>
      [[lit "payload";
        hashHex (SHA256.digest (TextEncoder_encode (c :: text)))]]
  | _ => []
  end.

Definition attestation (w : World) (url method : jsstring)
    (body : option jsstring) : NostrEvent :=
  {| kind := 27235;
     content := [];
     tags := attestation_tags url method body;
     created_at := (Date_now w / 1000)%Z |}.

(** What the builder returns once the signer has answered. *)
Definition header_of (answer : exn + value) : exn + jsstring :=
  match answer with
  | inl e => inl e
  | inr signedEvent =>
      match btoa (ToString_opt (JSON_stringify signedEvent)) with
      | inl e => inl e
      | inr encoded => inr (lit "Nostr " ++ encoded)
      end
  end.


(** The request the caller sends once it has the header. *)
Definition request_for (relayUrl method : jsstring)
    (params : option (list param)) (authHeader : jsstring) : Request :=
  {| url := httpUrl relayUrl;
     method := lit "POST";
     headers := [(lit "Content-Type", lit "application/nostr+json+rpc");
                 (lit "Authorization", authHeader)];
     body := payload method params |}.

(** What the caller makes of a response. *)
Definition answer_of (response : Response) : exn + value :=
  if ok response then
    match json response with
    | inl e => inl e
    | inr result =>
        match Get result (lit "error") with
        | inl e => inl e
        | inr error =>
            if ToBoolean error then inl (new_Error error)
            else Get result (lit "result")
        end
    end
  else
    inl (Error (lit "HTTP " ++ Z_toString (status response) ++ lit ": "
                  ++ statusText response)).

(** The failure of a call that got a response outside 200..299. *)
Definition http_failure (response : Response) : exn :=
  Error (lit "HTTP " ++ Z_toString (status response) ++ lit ": "
           ++ statusText response).

(** What the component's caller hands back for a failure of the call. *)
Definition surfaced (c : component) (method : jsstring) (e : exn)
  : exn + value :=
  if swallows c method then inr (VArray []) else inl e.

(** The comparator of the events query, [(a, b) => b.created_at -
    a.created_at], and the order it is meant to give. *)
Definition by_created_at (a b : EventsList.NostrEvent) : Z :=
  (EventsList.created_at b - EventsList.created_at a)%Z.

Definition newer_first (a b : EventsList.NostrEvent) : Prop :=
  (EventsList.created_at a >= EventsList.created_at b)%Z.

End Components.

Module Sample.
Import JS Env.

Definition event_props (e : NostrEvent) : list (jsstring * value) :=
  [(lit "kind", VNumber (Finite (kind e)));
   (lit "content", VString (content e));
   (lit "tags", VArray (map (fun t => VArray (map VString t)) (tags e)));
   (lit "created_at", VNumber (Finite (created_at e)))].

(** A signer that returns the record with a key, an id and a signature. *)
Definition signer : NostrSigner :=
  {| signEvent := fun e =>
       inr (VObject (event_props e ++
                     [(lit "pubkey", VString (lit "79be667ef9dcbbac"));
                      (lit "id", VString (lit "4a5f1e6c8d2b3907"));
                      (lit "sig", VString (lit "e907831f80848d10"))])) |}.

Definition banned : value :=
  VArray [VObject [(lit "pubkey", VString (lit "abc123"));
                   (lit "reason", VString (lit "spam"))]].

Definition reply (code : Z) (text : jsstring) (parsed : value) : Response :=
  {| status := code; statusText := text; json := inr parsed |}.

Definition world (nostr : option NostrSigner) (answer : exn + Response)
  : World :=
  {| window_nostr := nostr;
     Date_now := 1762151400123;
     fetch := fun _ => answer |}.

Definition relay : jsstring := lit "wss://relay.example.com".

Definition forbidden : Response :=
  reply 403 (lit "Forbidden") (VObject [(lit "result", banned)]).

Definition listing : Response :=
  reply 200 (lit "OK") (VObject [(lit "result", banned)]).

Definition refusal : Response :=
  reply 200 (lit "OK") (VObject [(lit "error", VString (lit "blocked"))]).

Definition blank_error : Response :=
  reply 200 (lit "OK")
    (VObject [(lit "result", banned); (lit "error", VString [])]).

Definition online (response : Response) : World :=
  world (Some signer) (inr response).

Definition offline : World := world None (inl TypeError).


(** Events of a relay, and a pool that answers a query for the kinds 1, 6
    and 7 with them in the order they are stored. *)
Definition note (at_ : Z) (text : jsstring) : EventsList.NostrEvent :=
  {| EventsList.id := lit "4a5f1e6c8d2b3907";
     EventsList.pubkey := lit "79be667ef9dcbbac";
     EventsList.created_at := at_;
     EventsList.kind := 1;
     EventsList.tags := [];
     EventsList.content := text;
     EventsList.sig := lit "e907831f80848d10" |}.

Definition stored : list EventsList.NostrEvent :=
  [note 1762140000 (lit "first"); note 1762151400 (lit "second");
   note 1762150000 (lit "third"); note 1762151400 (lit "fourth")].

Definition pool (filters : list EventsList.Filter)
  : exn + list EventsList.NostrEvent :=
  match filters with
  | [f] =>
      match EventsList.kinds f with
      | Some [Finite 1%Z; Finite 6%Z; Finite 7%Z] => inr stored
      | _ => inr []
      end
  | _ => inr []
  end.

End Sample.

(* ===================================================================== *)
(** * More of the platform: text                                          *)
(* ===================================================================== *)

Module Text.
Import JS.

(** [String.prototype.includes(sub)]. *)
Fixpoint includes (s sub : jsstring) : bool :=
  startsWith s sub ||
  match s with
  | [] => false
  | _ :: s' => includes s' sub
  end.

(** [String.prototype.trim()]: white space and line terminators are
    removed at both ends. *)
Definition trim_end (s : jsstring) : jsstring := rev (trim_start (rev s)).

Definition trim (s : jsstring) : jsstring := trim_end (trim_start s).

(** [s.slice(0, stop)]: a negative [stop] counts from the end. *)
Definition slice_to (s : jsstring) (stop : Z) : jsstring :=
  let len := Z.of_nat (List.length s) in
  let final :=
    if (stop <? 0)%Z then Z.max (len + stop) 0 else Z.min stop len in
  firstn (Z.to_nat final) s.

(** [s.replace(pattern, replacement)] with a string pattern and a
    replacement without [$]: the first occurrence is replaced. *)
Fixpoint replace_first (pattern replacement s : jsstring) : jsstring :=
  if startsWith s pattern then
    replacement ++ skipn (List.length pattern) s
  else
    match s with
    | [] => []
    | c :: s' => c :: replace_first pattern replacement s'
    end.

(** [sent] is [input] without the white space at its ends. *)
Definition stripped (input sent : jsstring) : Prop :=
  (exists before after,
      input = before ++ sent ++ after /\
      Forall (fun c => is_StrWhiteSpaceChar c = true) before /\
      Forall (fun c => is_StrWhiteSpaceChar c = true) after) /\
  (forall c r, sent = c :: r -> is_StrWhiteSpaceChar c = false) /\
  (forall r c, sent = r ++ [c] -> is_StrWhiteSpaceChar c = false).

(** [s || undefined] for a string. *)
Definition or_undefined (s : jsstring) : option jsstring :=
  if ToBoolean (VString s) then Some s else None.

End Text.

(* ===================================================================== *)
(** * The forms: what a handler does with the fields                      *)
(* ===================================================================== *)

Module Form.
Import JS Env.

(** The argument of [toast]. *)
Record Toast := {
  title : jsstring;
  description : jsstring;
  variant : jsstring
}.

Definition invalid_input (text : jsstring) : Toast :=
  {| title := lit "Invalid input";
     description := text;
     variant := lit "destructive" |}.

(** A handler either shows a toast and returns, or hands variables to a
    mutation. *)
Inductive handled (A : Type) :=
| Refuse (t : Toast)
| Mutate (variables : A).

Arguments Refuse {A} t.
Arguments Mutate {A} variables.

(** An optional string as a call parameter. *)
Definition optional (reason : option jsstring) : param :=
  match reason with
  | Some s => PString s
  | None => PUndefined
  end.

End Form.

(* ===================================================================== *)
(** * EventModeration.tsx: the component                                  *)
(* ===================================================================== *)

Module EventModerationPanel.
Import JS Env Text Form.

(** The variables of the two mutations: [{ eventId, reason }]. *)
Record Variables := {
  eventId : jsstring;
  reason : option jsstring
}.

Inductive Mutation :=
| allowEventMutation
| banEventMutation.

Definition mutationFn (m : Mutation) (w : World) (relayUrl : jsstring)
    (v : Variables) : M value :=
  match m with
  | allowEventMutation =>
      EventModeration.callRelayAPI w relayUrl (lit "allowevent")
        (Some [PString (eventId v); optional (reason v)])
  | banEventMutation =>
      EventModeration.callRelayAPI w relayUrl (lit "banevent")
        (Some [PString (eventId v); optional (reason v)])
  end.

(** The two queries. *)
Definition eventsNeedingModeration_queryFn (w : World) (relayUrl : jsstring)
  : M value :=
  EventModeration.callRelayAPI w relayUrl (lit "listeventsneedingmoderation")
    None.

Definition bannedEvents_queryFn (w : World) (relayUrl : jsstring) : M value :=
  EventModeration.callRelayAPI w relayUrl (lit "listbannedevents") None.

Definition handleBanEvent (newEventId newReason : jsstring)
  : handled (Mutation * Variables) :=
  if negb (ToBoolean (VString (trim newEventId))) then
    Refuse (invalid_input (lit "Please enter a valid event ID"))
  else
    Mutate (banEventMutation,
            {| eventId := trim newEventId;
               reason := or_undefined (trim newReason) |}).

Definition handleApproveEvent (eventId : jsstring)
  : handled (Mutation * Variables) :=
  Mutate (allowEventMutation, {| eventId := eventId; reason := None |}).

Definition handleRejectEvent (eventId : jsstring) (reason : option jsstring)
  : handled (Mutation * Variables) :=
  Mutate (banEventMutation, {| eventId := eventId; reason := reason |}).

(** What the relay is asked once a handler has run. *)
Definition submit (w : World) (relayUrl : jsstring)
    (h : handled (Mutation * Variables)) : option (M value) :=
  match h with
  | Refuse _ => None
  | Mutate (m, v) => Some (mutationFn m w relayUrl v)
  end.

End EventModerationPanel.

(* ===================================================================== *)
(** * UserManagement.tsx: the two components                              *)
(* ===================================================================== *)

Module UserManagementPanel.
Import JS Env Text Form.

Record Variables := {
  pubkey : jsstring;
  reason : option jsstring
}.

(** [actionType], and the mutation it selects. *)
Inductive ActionType :=
| ban
| allow.

Definition mutationFn (m : ActionType) (w : World) (relayUrl : jsstring)
    (v : Variables) : M value :=
  match m with
  | ban =>
      EventModeration.callRelayAPI w relayUrl (lit "banpubkey")
        (Some [PString (pubkey v); optional (reason v)])
  | allow =>
      EventModeration.callRelayAPI w relayUrl (lit "allowpubkey")
        (Some [PString (pubkey v); optional (reason v)])
  end.

Definition handleAddUser (newPubkey newReason : jsstring)
    (actionType : ActionType) : handled (ActionType * Variables) :=
  if negb (ToBoolean (VString (trim newPubkey))) then
    Refuse (invalid_input (lit "Please enter a valid pubkey"))
  else
    match actionType with
    | ban =>
        Mutate (ban, {| pubkey := trim newPubkey;
                        reason := or_undefined (trim newReason) |})
    | allow =>
        Mutate (allow, {| pubkey := trim newPubkey;
                          reason := or_undefined (trim newReason) |})
    end.

(** [handleRemoveUser] only shows a toast, whichever list the key is on. *)
Definition handleRemoveUser (pubkey : jsstring) (type : ActionType)
  : handled (ActionType * Variables) :=
  match type with
  | ban =>
      Refuse {| title := lit "Not supported";
                description := lit "Unbanning users is not supported by NIP-86";
                variant := lit "destructive" |}
  | allow =>
      Refuse {| title := lit "Not supported";
                description :=
                  lit "Removing from allow list is not supported by NIP-86";
                variant := lit "destructive" |}
  end.

Definition submit (w : World) (relayUrl : jsstring)
    (h : handled (ActionType * Variables)) : option (M value) :=
  match h with
  | Refuse _ => None
  | Mutate (m, v) => Some (mutationFn m w relayUrl v)
  end.

End UserManagementPanel.

Module RelaySettingsPanel.
Import JS Env Text Form.

(** [kindAction]. *)
Inductive KindAction :=
| allow
| disallow.

(** A mutation with its variables. *)
Inductive Mutation :=
| changeNameMutation (name : jsstring)
| changeDescriptionMutation (description : jsstring)
| changeIconMutation (icon : jsstring)
| manageKindMutation (kind : number) (action : KindAction)
| blockIpMutation (ip : jsstring) (reason : option jsstring)
| unblockIpMutation (ip : jsstring).

Definition mutationFn (m : Mutation) (w : World) (relayUrl : jsstring)
  : M value :=
  match m with
  | changeNameMutation name =>
      EventModeration.callRelayAPI w relayUrl (lit "changerelayname")
        (Some [PString name])
  | changeDescriptionMutation description =>
      EventModeration.callRelayAPI w relayUrl (lit "changerelaydescription")
        (Some [PString description])
  | changeIconMutation icon =>
      EventModeration.callRelayAPI w relayUrl (lit "changerelayicon")
        (Some [PString icon])
  | manageKindMutation kind action =>
      let method :=
        match action with
        | allow => lit "allowkind"
        | disallow => lit "disallowkind"
        end in
      EventModeration.callRelayAPI w relayUrl method (Some [PNumber kind])
  | blockIpMutation ip reason =>
      EventModeration.callRelayAPI w relayUrl (lit "blockip")
        (Some [PString ip; optional reason])
  | unblockIpMutation ip =>
      EventModeration.callRelayAPI w relayUrl (lit "unblockip")
        (Some [PString ip])
  end.

Definition handleUpdateName (relayName : jsstring) : handled Mutation :=
  if negb (ToBoolean (VString (trim relayName))) then
    Refuse (invalid_input (lit "Please enter a valid relay name"))
  else Mutate (changeNameMutation (trim relayName)).

Definition handleUpdateDescription (relayDescription : jsstring)
  : handled Mutation :=
  if negb (ToBoolean (VString (trim relayDescription))) then
    Refuse (invalid_input (lit "Please enter a valid description"))
  else Mutate (changeDescriptionMutation (trim relayDescription)).

Definition handleUpdateIcon (relayIcon : jsstring) : handled Mutation :=
  if negb (ToBoolean (VString (trim relayIcon))) then
    Refuse (invalid_input (lit "Please enter a valid icon URL"))
  else Mutate (changeIconMutation (trim relayIcon)).

(** [kind < 0] for a number. *)
Definition below_zero (n : number) : bool :=
  match n with
  | Finite z => (z <? 0)%Z
  | NaN => false
  | Infinity negative => negative
  end.

Definition handleManageKind (newKind : jsstring) (kindAction : KindAction)
  : handled Mutation :=
  let kind := parseInt newKind in
  if isNaN kind || below_zero kind then
    Refuse (invalid_input (lit "Please enter a valid kind number"))
  else Mutate (manageKindMutation kind kindAction).

Definition handleBlockIp (newIp newIpReason : jsstring) : handled Mutation :=
  if negb (ToBoolean (VString (trim newIp))) then
    Refuse (invalid_input (lit "Please enter a valid IP address"))
  else Mutate (blockIpMutation (trim newIp) (or_undefined (trim newIpReason))).

Definition submit (w : World) (relayUrl : jsstring) (h : handled Mutation)
  : option (M value) :=
  match h with
  | Refuse _ => None
  | Mutate m => Some (mutationFn m w relayUrl)
  end.

End RelaySettingsPanel.

(* ===================================================================== *)
(** * EventsList.tsx: the card and the list                               *)
(* ===================================================================== *)

Module EventCard.
Import JS Env Text Form.

(** ['allow' | 'ban']. *)
Inductive Action :=
| allow
| ban.

(** The object literal [kindNames]; its numeric keys are property names. *)
Definition kindNames : list (jsstring * jsstring) :=
  [(lit "0", lit "Profile");
   (lit "1", lit "Text Note");
   (lit "3", lit "Contacts");
   (lit "4", lit "DM");
   (lit "5", lit "Delete");
   (lit "6", lit "Repost");
   (lit "7", lit "Reaction");
   (lit "1984", lit "Report");
   (lit "30023", lit "Article")].

Fixpoint own_property (key : jsstring) (props : list (jsstring * jsstring))
  : option jsstring :=
  match props with
  | [] => None
  | (k, v) :: rest => if units_eqb k key then Some v else own_property key rest
  end.

(** [kindNames[kind] || `Kind ${kind}`]; the property name of a number is
    its [ToString]. *)
Definition getKindName (kind : number) : jsstring :=
  match own_property (Number_toString kind) kindNames with
  | Some name =>
      if ToBoolean (VString name) then name
      else lit "Kind " ++ Number_toString kind
  | None => lit "Kind " ++ Number_toString kind
  end.

(** [truncateContent(content, maxLength = 200)]. *)
Definition truncateContent (content : jsstring) (maxLength : option Z)
  : jsstring :=
  let maxLength := match maxLength with Some m => m | None => 200%Z end in
  if (Z.of_nat (List.length content) <=? maxLength)%Z then content
  else slice_to content maxLength ++ lit "...".

(** The arguments [handleModerate] hands to [onModerate]. *)
Definition handleModerate (event : EventsList.NostrEvent)
    (moderationAction : Action) (moderationReason : jsstring)
  : jsstring * Action * option jsstring :=
  (EventsList.id event, moderationAction, or_undefined (trim moderationReason)).

End EventCard.

Module EventsListPanel.
Import JS Env Text Form.

Record Variables := {
  eventId : jsstring;
  action : EventCard.Action;
  reason : option jsstring
}.

(** The [mutationFn] of [moderateEventMutation]. *)
Definition mutationFn (w : World) (relayUrl : jsstring) (v : Variables)
  : M value :=
  let method :=
    match action v with
    | EventCard.allow => lit "allowevent"
    | EventCard.ban => lit "banevent"
    end in
  EventsList.callRelayAPI w relayUrl method
    (Some [PString (eventId v); optional (reason v)]).

Definition handleModerateEvent (eventId : jsstring) (action : EventCard.Action)
    (reason : option jsstring) : Variables :=
  {| eventId := eventId; action := action; reason := reason |}.

(** The card's button, through [onModerate], to the relay. *)
Definition moderate (w : World) (relayUrl : jsstring)
    (event : EventsList.NostrEvent) (moderationAction : EventCard.Action)
    (moderationReason : jsstring) : M value :=
  let '(eventId, action, reason) :=
    EventCard.handleModerate event moderationAction moderationReason in
  mutationFn w relayUrl (handleModerateEvent eventId action reason).

(** The two list queries. *)
Definition bannedEvents_queryFn (w : World) (relayUrl : jsstring) : M value :=
  EventsList.callRelayAPI w relayUrl (lit "listbannedevents") None.

Definition eventsNeedingModeration_queryFn (w : World) (relayUrl : jsstring)
  : M value :=
  EventsList.callRelayAPI w relayUrl (lit "listeventsneedingmoderation") None.

(** ['pending' | 'approved' | 'banned']. *)
Inductive Status :=
| pending
| approved
| banned.

(** [EventWithModeration]: the event with two more fields. *)
Record EventWithModeration := {
  event : EventsList.NostrEvent;
  moderationStatus : option Status;
  moderationReason : value
}.

(** An entry of a list as the callbacks type it:
    [{ id: string; reason?: string }]. *)
Record Entry := {
  entry_id : jsstring;
  entry_reason : option jsstring
}.

Definition entry_value (x : Entry) : value :=
  VObject ((lit "id", VString (entry_id x)) ::
           match entry_reason x with
           | Some r => [(lit "reason", VString r)]
           | None => []
           end).

(** [y] is the first entry of [l] with the id [i]. *)
Definition first_with (i : jsstring) (l : list Entry) (y : Entry) : Prop :=
  exists l1 l2, l = l1 ++ y :: l2 /\ entry_id y = i /\ ~ In i (map entry_id l1).

(** [entry.reason] as a value. *)
Definition reason_value (y : Entry) : value :=
  match entry_reason y with Some r => VString r | None => VUndefined end.

(** [entry.id === id], the callback of [some] and [find]; reading [id]
    fails on null and undefined like any property read. *)
Definition has_id (id : jsstring) (entry : value) : exn + bool :=
  match Get entry (lit "id") with
  | inl e => inl e
  | inr (VString s) => inr (units_eqb s id)
  | inr _ => inr false
  end.

(** [Array.prototype.find] with that callback. *)
Fixpoint find_id (id : jsstring) (items : list value) : exn + option value :=
  match items with
  | [] => inr None
  | x :: rest =>
      match has_id id x with
      | inl e => inl e
      | inr true => inr (Some x)
      | inr false => find_id id rest
      end
  end.

(** [list?.some(entry => entry.id === id)]: undefined for a list that is
    null or undefined, a TypeError for a value without the method. *)
Definition some_id (list : value) (id : jsstring) : exn + option bool :=
  match list with
  | VUndefined | VNull => inr None
  | VArray items =>
      match find_id id items with
      | inl e => inl e
      | inr (Some _) => inr (Some true)
      | inr None => inr (Some false)
      end
  | _ => inl TypeError
  end.

(** [list?.find(entry => entry.id === id)?.reason]. *)
Definition reason_of (list : value) (id : jsstring) : exn + value :=
  match list with
  | VUndefined | VNull => inr VUndefined
  | VArray items =>
      match find_id id items with
      | inl e => inl e
      | inr (Some (VUndefined | VNull)) => inr VUndefined
      | inr (Some x) => Get x (lit "reason")
      | inr None => inr VUndefined
      end
  | _ => inl TypeError
  end.

Definition truthy (b : option bool) : bool :=
  match b with
  | Some true => true
  | _ => false
  end.

(** The callback of [events?.map]. *)
Definition enhance (bannedEvents eventsNeedingModeration : value)
    (e : EventsList.NostrEvent) : exn + EventWithModeration :=
  match some_id bannedEvents (EventsList.id e) with
  | inl x => inl x
  | inr isBanned =>
      match some_id eventsNeedingModeration (EventsList.id e) with
      | inl x => inl x
      | inr needsModeration =>
          let status :=
            if truthy isBanned then Some banned
            else if truthy needsModeration then Some pending
            else None in
          let reason :=
            if truthy isBanned then reason_of bannedEvents (EventsList.id e)
            else if truthy needsModeration
            then reason_of eventsNeedingModeration (EventsList.id e)
            else inr VUndefined in
          match reason with
          | inl x => inl x
          | inr r =>
              inr {| event := e; moderationStatus := status;
                     moderationReason := r |}
          end
      end
  end.

Fixpoint map_throwing {A B} (f : A -> exn + B) (l : list A) : exn + list B :=
  match l with
  | [] => inr []
  | x :: rest =>
      match f x with
      | inl e => inl e
      | inr y =>
          match map_throwing f rest with
          | inl e => inl e
          | inr ys => inr (y :: ys)
          end
      end
  end.

(** [events?.map(...) || []]; the three arguments are the [data] of the
    three queries, undefined while a query has none. *)
Definition enhancedEvents (events : option (list EventsList.NostrEvent))
    (bannedEvents eventsNeedingModeration : value)
  : exn + list EventWithModeration :=
  match events with
  | None => inr []
  | Some l => map_throwing (enhance bannedEvents eventsNeedingModeration) l
  end.

End EventsListPanel.

(* ===================================================================== *)
(** * The relay information document: requests without a signature       *)
(* ===================================================================== *)

Module Net.
Import JS.

(** What [catch] can tell about an error object: whether it is a
    TypeError, and, as an instance of Error, its message. *)
Inductive ErrorClass :=
| PlainError            (* new Error(message), SyntaxError, DOMException *)
| TypeErrorClass.       (* new TypeError(message) *)

(** What was thrown: an error object or some other value. *)
Inductive thrown :=
| ErrorObject (class : ErrorClass) (message : jsstring)
| Other (v : value).

(** The second argument of [fetch]. *)
Record RequestInit := {
  headers : list (jsstring * jsstring);
  mode : option jsstring
}.

Record Response := {
  status : Z;
  statusText : jsstring;
  json : thrown + value
}.

Definition ok (r : Response) : bool :=
  ((200 <=? status r) && (status r <=? 299))%Z.

(** [fetch(url, init)]: the response it resolves with, or what it rejects
    with. *)
Definition Fetch : Type := jsstring -> RequestInit -> thrown + Response.

(** [error instanceof TypeError && error.message.includes(text)]. *)
Definition TypeError_including (text : jsstring) (error : thrown) : bool :=
  match error with
  | ErrorObject TypeErrorClass message => Text.includes message text
  | _ => false
  end.

(** [error instanceof Error ? error.message : fallback]. *)
Definition message_or (fallback : jsstring) (error : thrown) : jsstring :=
  match error with
  | ErrorObject _ message => message
  | Other _ => fallback
  end.

End Net.

Module ConnectionStatus.
Import JS Net.

(** What [checkRelayConnection] returns: [{ status, info }] or
    [{ status, error }]. *)
Record Connection := {
  status : jsstring;
  info : option value;
  error : option jsstring
}.

(** The [catch] block. *)
Definition classify (e : thrown) : Connection :=
  if TypeError_including (lit "CORS") e then
    {| status := lit "cors_error"; info := None;
       error := Some (lit "CORS not supported") |}
  else if TypeError_including (lit "Failed to fetch") e then
    {| status := lit "network_error"; info := None;
       error := Some (lit "Network error") |}
  else
    {| status := lit "error"; info := None;
       error := Some (message_or (lit "Unknown error") e) |}.

Definition checkRelayConnection (fetch : Fetch) (relayUrl : jsstring)
  : Connection :=
  let httpUrl :=
    replace_anchored Env.wss_scheme (lit "https://") relayUrl in
  match fetch httpUrl
          {| headers := [(lit "Accept", lit "application/nostr+json")];
             mode := Some (lit "cors") |} with
  | inl e => classify e
  | inr response =>
      if ok response then
        match json response with
        | inl e => classify e
        | inr body =>
            {| status := lit "connected"; info := Some body; error := None |}
        end
      else
        {| status := lit "http_error"; info := None;
           error := Some (lit "HTTP " ++ Z_toString (Net.status response)) |}
  end.

(** The text of the badge [ConnectionStatus] renders; [connectionStatus]
    is the data of the query. *)
Definition badge (isLoading : bool) (connectionStatus : option Connection)
  : jsstring :=
  if isLoading then lit "Checking..."
  else
    match connectionStatus with
    | None => lit "Unknown"
    | Some c =>
        if units_eqb (status c) (lit "connected") then lit "Connected"
        else if units_eqb (status c) (lit "cors_error") then lit "CORS Issue"
        else lit "Error"
    end.

End ConnectionStatus.

Module RelayStats.
Import JS Net.

(** [fetchRelayInfo] of ConnectionStatus.tsx, used by [RelayStats]. *)
Definition fetchRelayInfo (fetch : Fetch) (relayUrl : jsstring)
  : thrown + value :=
  let httpUrl :=
    replace_anchored Env.wss_scheme (lit "https://") relayUrl in
  match fetch httpUrl
          {| headers := [(lit "Accept", lit "application/nostr+json")];
             mode := None |} with
  | inl e => inl e
  | inr response =>
      if negb (ok response) then
        inl (ErrorObject PlainError
               (lit "Failed to fetch relay info: " ++ statusText response))
      else json response
  end.

End RelayStats.

Module RelayInfo.
Import JS Net.

(** The [try] block of [fetchRelayInfo]. *)
Definition attempt (fetch : Fetch) (httpUrl : jsstring) : thrown + value :=
  match fetch httpUrl
          {| headers := [(lit "Accept", lit "application/nostr+json")];
             mode := Some (lit "cors") |} with
  | inl e => inl e
  | inr response =>
      if negb (ok response) then
        inl (ErrorObject PlainError
               (lit "HTTP " ++ Z_toString (status response) ++ lit ": "
                  ++ statusText response))
      else json response
  end.

Definition CORS_message : jsstring :=
  lit "CORS error: This relay does not allow cross-origin requests. Try connecting directly to the relay or use a relay that supports CORS.".

Definition network_message : jsstring :=
  lit "Network error: Unable to connect to the relay. Check the URL and your internet connection.".

(** The [catch] block. *)
Definition rethrow (e : thrown) : thrown :=
  if TypeError_including (lit "CORS") e then
    ErrorObject PlainError CORS_message
  else if TypeError_including (lit "Failed to fetch") e then
    ErrorObject PlainError network_message
  else e.

(** [fetchRelayInfo] of RelayInfo.tsx. *)
Definition fetchRelayInfo (fetch : Fetch) (relayUrl : jsstring)
  : thrown + value :=
  let httpUrl :=
    replace_anchored Env.wss_scheme (lit "https://") relayUrl in
  match attempt fetch httpUrl with
  | inl e => inl (rethrow e)
  | inr data => inr data
  end.

End RelayInfo.

Module RelayManager.
Import JS.

(** The text of the badge in the header: [relayUrl.replace('wss://', '')]. *)
Definition shown (relayUrl : jsstring) : jsstring :=
  Text.replace_first (lit "wss://") [] relayUrl.

End RelayManager.

(* ===================================================================== *)
(** * Facts                                                               *)
(* ===================================================================== *)

Import JS Env Components.

(** ** The platform model on known values *)

(** The SHA-256 test vectors of FIPS 180-4 and the digest of the empty
    message. *)
Example digest_abc :
  hashHex (SHA256.digest (TextEncoder_encode (lit "abc")))
  = lit "ba7816bf8f01cfea414140de5dae2223b00361a396177a9cb410ff61f20015ad".
Proof. vm_compute. reflexivity. Qed.

Example digest_two_blocks :
  hashHex (SHA256.digest (TextEncoder_encode
    (lit "abcdbcdecdefdefgefghfghighijhijkijkljklmklmnlmnomnopnopq")))
  = lit "248d6a61d20638b8e5c026930c3e6039a33ce45964ff2167f6ecedd419db06c1".
Proof. vm_compute. reflexivity. Qed.

Example digest_empty :
  hashHex (SHA256.digest [])
  = lit "e3b0c44298fc1c149afbf4c8996fb92427ae41e4649b934ca495991b7852b855".
Proof. vm_compute. reflexivity. Qed.

Example round_constants :
  map toString16 (firstn 2 SHA256.K ++ [last SHA256.K 0%N])
  = [lit "428a2f98"; lit "71374491"; lit "c67178f2"] /\
  map toString16 [hd 0%N SHA256.H0; last SHA256.H0 0%N]
  = [lit "6a09e667"; lit "5be0cd19"].
Proof. split; vm_compute; reflexivity. Qed.

(** The base64 test vectors of RFC 4648. *)
Example btoa_foobar :
  map btoa [lit ""; lit "f"; lit "fo"; lit "foo"; lit "foob"; lit "fooba";
            lit "foobar"]
  = map inr [lit ""; lit "Zg=="; lit "Zm8="; lit "Zm9v"; lit "Zm9vYg==";
             lit "Zm9vYmE="; lit "Zm9vYmFy"].
Proof. vm_compute. reflexivity. Qed.

Example btoa_high_bytes : btoa [255; 254; 253; 0; 1]%N = inr (lit "//79AAE=").
Proof. vm_compute. reflexivity. Qed.

Example btoa_beyond_latin1 : btoa [72; 8364]%N = inl InvalidCharacterError.
Proof. vm_compute. reflexivity. Qed.

(** UTF-8: one, two and three bytes, a surrogate pair, a lone surrogate. *)
Example encode_mixed :
  TextEncoder_encode [65; 233; 8364; 55357; 56832; 55357]%N
  = [65; 195; 169; 226; 130; 172; 240; 159; 152; 128; 239; 191; 189]%N.
Proof. vm_compute. reflexivity. Qed.

(** JSON: escapes, a lone surrogate, and what the parser refuses. *)
Example quote_escapes :
  QuoteJSONString [34; 92; 10; 1; 233; 55357]%N
  = [34%N] ++ [92; 34]%N ++ [92; 92]%N ++ lit "\n" ++ lit "\u0001"
      ++ [233%N] ++ lit "\ud83d" ++ [34%N].
Proof. vm_compute. reflexivity. Qed.

Example parse_spaced :
  JSON_parse (lit " { " ++ QuoteJSONString (lit "a") ++ lit " : [ 1 , -20, true,null ] } ")
  = Some (VObject [(lit "a", VArray [VNumber (Finite 1);
                                      VNumber (Finite (-20));
                                      VBool true; VNull])]).
Proof. vm_compute. reflexivity. Qed.

Example parse_refused :
  map JSON_parse [lit "01"; lit "[1,]"; lit "{"; lit "tru"; lit "1 2"; lit ""]
  = [None; None; None; None; None; None].
Proof. vm_compute. reflexivity. Qed.

Example stringify_skips_undefined :
  JSON_stringify (VObject [(lit "a", VUndefined);
                           (lit "b", VArray [VUndefined; VNumber NaN])])
  = Some (lit "{" ++ QuoteJSONString (lit "b") ++ lit ":[null,null]}").
Proof. vm_compute. reflexivity. Qed.

Example error_message_of_values :
  map new_Error
    [VNumber (Finite 42); VBool true;
     VArray [VNull; VNumber (Finite 3); VArray [VUndefined]];
     VObject [];
     VObject [(lit "toString", VNumber (Finite 1))];
     VArray [VString (lit "a"); VObject [(lit "toString", VNull)]]]
  = [Error (lit "42"); Error (lit "true"); Error (lit ",3,");
     Error (lit "[object Object]"); TypeError; TypeError].
Proof. vm_compute. reflexivity. Qed.

(** The sort is stable: equal keys keep their order. *)
Example sort_is_stable :
  Array_sort (fun a b => (fst b - fst a)%Z)
    [(1, 10); (3, 20); (2, 30); (3, 40); (1, 50)]%Z
  = [(3, 20); (3, 40); (2, 30); (1, 10); (1, 50)]%Z.
Proof. vm_compute. reflexivity. Qed.

(** The scenario of the specification: "listbannedpubkeys" without
    parameters against a relay that answers one banned key. *)
Example list_banned_pubkeys :
  outcome (caller InUserManagement (Sample.online Sample.listing)
             Sample.relay (lit "listbannedpubkeys") None)
  = inr (VArray [VObject [(lit "pubkey", VString (lit "abc123"));
                          (lit "reason", VString (lit "spam"))]]) /\
  map url (fetched (trace (caller InUserManagement
                             (Sample.online Sample.listing)
                             Sample.relay (lit "listbannedpubkeys") None)))
  = [lit "https://relay.example.com"] /\
  List.length (signed (trace (caller InUserManagement
                                (Sample.online Sample.listing)
                                Sample.relay (lit "listbannedpubkeys") None)))
  = 1%nat.
Proof. repeat split; vm_compute; reflexivity. Qed.

(** ** The two builders and the two callers *)

Lemma createNip98Auth_same :
  EventsList.createNip98Auth = EventModeration.createAuthHeader.
Proof. reflexivity. Qed.

Lemma EventsList_attempt_same w relayUrl method params :
  EventsList.attempt w (httpUrl relayUrl) (payload method params)
  = EventModeration.callRelayAPI w relayUrl method params.
Proof. reflexivity. Qed.

Lemma EventsList_callRelayAPI_unfold w relayUrl method params :
  EventsList.callRelayAPI w relayUrl method params
  = try_catch (EventsList.attempt w (httpUrl relayUrl) (payload method params))
              (EventsList.recover method).
Proof. reflexivity. Qed.

Lemma createAuthHeader_absent w url method body t :
  window_nostr w = None ->
  EventModeration.createAuthHeader w url method body t
  = (inl (Error (lit "NIP-07 extension not found")), t).
Proof.
  intros H. unfold EventModeration.createAuthHeader. rewrite H. reflexivity.
Qed.

Lemma createAuthHeader_present w nostr url method body t :
  window_nostr w = Some nostr ->
  EventModeration.createAuthHeader w url method body t
  = (header_of (signEvent nostr (attestation w url method body)),
     t ++ [SignEvent (attestation w url method body)]).
Proof.
  intros H. unfold EventModeration.createAuthHeader. rewrite H.
  assert (E :
    match body with
    | Some text =>
        if ToBoolean (VString text) then
          {| kind := 27235; content := lit "";
             tags := [[lit "u"; url]; [lit "method"; method]] ++
                     [[lit "payload";
                       hashHex (SHA256.digest (TextEncoder_encode text))]];
             created_at := (Date_now w / 1000)%Z |}
        else
          {| kind := 27235; content := lit "";
             tags := [[lit "u"; url]; [lit "method"; method]];
             created_at := (Date_now w / 1000)%Z |}
    | None =>
        {| kind := 27235; content := lit "";
           tags := [[lit "u"; url]; [lit "method"; method]];
           created_at := (Date_now w / 1000)%Z |}
    end = attestation w url method body).
  { destruct body as [[|c text]|]; reflexivity. }
  cbv zeta. cbn [kind content tags created_at].
  rewrite E. clear E.
  unfold bind, perform, lift, ret, header_of.
  destruct (signEvent nostr (attestation w url method body)) as [e|v];
    [reflexivity|].
  destruct (btoa (ToString_opt (JSON_stringify v))); reflexivity.
Qed.

Lemma unwrap_run response t :
  EventModeration.unwrap response t = (answer_of response, t).
Proof.
  unfold EventModeration.unwrap, answer_of, bind, lift, throw.
  destruct (ok response); cbn [negb]; [|reflexivity].
  destruct (json response) as [e|result]; [reflexivity|].
  destruct (Get result (lit "error")) as [e|error]; [reflexivity|].
  destruct (ToBoolean error); reflexivity.
Qed.

(** One call of the caller without a [catch], from the empty trace. *)
Lemma callRelayAPI_run w relayUrl method params :
  run (EventModeration.callRelayAPI w relayUrl method params)
  = match window_nostr w with
    | None => (inl (Error (lit "NIP-07 extension not found")), [])
    | Some nostr =>
        let e := attestation w (httpUrl relayUrl) (lit "POST")
                             (payload method params) in
        match header_of (signEvent nostr e) with
        | inl x => (inl x, [SignEvent e])
        | inr h =>
            let request := request_for relayUrl method params h in
            (match fetch w request with
             | inl x => inl x
             | inr response => answer_of response
             end, [SignEvent e; Fetch request])
        end
    end.
Proof.
  unfold run, EventModeration.callRelayAPI.
  change (replace_anchored wss_scheme (lit "https://") relayUrl)
    with (httpUrl relayUrl).
  change (JSON_stringify _) with (payload method params).
  cbv zeta. unfold bind at 1 2.
  destruct (window_nostr w) as [nostr|] eqn:Hn.
  - rewrite (createAuthHeader_present _ _ _ _ _ _ Hn). cbn [app].
    destruct (header_of _) as [x|h]; [reflexivity|].
    unfold perform. cbn [app].
    change {| url := httpUrl relayUrl; method := lit "POST";
              headers := [(lit "Content-Type",
                           lit "application/nostr+json+rpc");
                          (lit "Authorization", h)];
              body := payload method params |}
      with (request_for relayUrl method params h).
    destruct (fetch w _) as [x|response]; [reflexivity|].
    rewrite unwrap_run. reflexivity.
  - rewrite (createAuthHeader_absent _ _ _ _ _ Hn). reflexivity.
Qed.

(** The caller of EventsList is the same call inside a [catch]. *)
Lemma EventsList_callRelayAPI_run w relayUrl method params :
  run (EventsList.callRelayAPI w relayUrl method params)
  = let r := run (EventModeration.callRelayAPI w relayUrl method params) in
    (match fst r with
     | inl e => surfaced InEventsList method e
     | inr v => inr v
     end, snd r).
Proof.
  rewrite EventsList_callRelayAPI_unfold, EventsList_attempt_same.
  unfold run, try_catch, surfaced, swallows, EventsList.recover.
  destruct (EventModeration.callRelayAPI w relayUrl method params [])
    as [[e|v] t]; cbn [fst snd]; [|reflexivity].
  unfold ret, throw. destruct (startsWith method (lit "list")); reflexivity.
Qed.

(** Every component's caller, in one equation. *)
Lemma caller_run c w relayUrl method params :
  run (caller c w relayUrl method params)
  = let r := run (EventModeration.callRelayAPI w relayUrl method params) in
    (match fst r with
     | inl e => surfaced c method e
     | inr v => inr v
     end, snd r).
Proof.
  destruct c; try apply EventsList_callRelayAPI_run;
    cbn [caller]; cbv zeta; unfold surfaced, swallows;
    destruct (run (EventModeration.callRelayAPI w relayUrl method params))
      as [[e|v] t]; reflexivity.
Qed.

(** ** Calls that reached the network *)

Lemma caller_fetched c w relayUrl method params request :
  In (Fetch request) (trace (caller c w relayUrl method params)) ->
  outcome (caller c w relayUrl method params)
  = match fetch w request with
    | inl e => surfaced c method e
    | inr response =>
        match answer_of response with
        | inl e => surfaced c method e
        | inr v => inr v
        end
    end.
Proof.
  unfold trace, outcome. rewrite caller_run, callRelayAPI_run. cbv zeta.
  destruct (window_nostr w) as [nostr|]; cbn [fst snd]; [|intros []].
  destruct (header_of _) as [x|h]; cbn [fst snd].
  - intros [H|[]]; discriminate H.
  - intros [H|[H|[]]]; [discriminate H|].
    injection H as <-.
    destruct (fetch w _) as [x|response]; reflexivity.
Qed.

Lemma caller_trace_fetches_once c w relayUrl method params :
  (List.length (fetched (trace (caller c w relayUrl method params))) <= 1)%nat
  /\ (List.length (signed (trace (caller c w relayUrl method params))) <= 1)%nat.
Proof.
  unfold trace. rewrite caller_run, callRelayAPI_run. cbv zeta.
  destruct (window_nostr w) as [nostr|]; cbn [fst snd]; [|cbn; lia].
  destruct (header_of _) as [x|h]; cbn; lia.
Qed.

Lemma ok_false_above response :
  (300 <= status response)%Z -> ok response = false.
Proof. unfold ok. intros H. apply andb_false_iff. right. lia. Qed.

Lemma ok_true_within response :
  (200 <= status response < 300)%Z -> ok response = true.
Proof. unfold ok. intros H. apply andb_true_iff. split; lia. Qed.

(** ** The signer is missing *)

Lemma absent_signer_general c w relayUrl method params :
  window_nostr w = None ->
  trace (caller c w relayUrl method params) = [] /\
  outcome (caller c w relayUrl method params)
  = surfaced c method (Error (lit "NIP-07 extension not found")).
Proof.
  intros H. unfold trace, outcome.
  rewrite caller_run, callRelayAPI_run, H. cbv zeta. cbn [fst snd].
  split; reflexivity.
Qed.

(** C2, as the code has it: without [window.nostr] no call reaches the
    signer or the network; the callers of EventModeration, UserManagement
    and ConnectionStatus fail with "NIP-07 extension not found", and so does
    the caller of EventsList unless the method name starts with "list", in
    which case it returns an empty array. *)
Theorem C2_absent_signer c w relayUrl method params :
  window_nostr w = None ->
  trace (caller c w relayUrl method params) = [] /\
  outcome (caller c w relayUrl method params)
  = if swallows c method then inr (VArray [])
    else inl (Error (lit "NIP-07 extension not found")).
Proof.
  exact (absent_signer_general c w relayUrl method params).
Qed.

Lemma C2_absent_signer_witness :
  trace (caller InEventModeration Sample.offline Sample.relay
           (lit "banevent") (Some [PString (lit "eventid1"); PUndefined]))
  = [] /\
  outcome (caller InEventModeration Sample.offline Sample.relay
             (lit "banevent") (Some [PString (lit "eventid1"); PUndefined]))
  = inl (Error (lit "NIP-07 extension not found")).
Proof.
  exact (C2_absent_signer InEventModeration Sample.offline Sample.relay
           (lit "banevent") (Some [PString (lit "eventid1"); PUndefined])
           eq_refl).
Defined.

(** C2 as stated fails in EventsList: with no signer, a "list" call does
    not fail, it returns an empty array. *)
Lemma C2_counterexample :
  window_nostr Sample.offline = None /\
  outcome (EventsList.callRelayAPI Sample.offline Sample.relay
             (lit "listbannedevents") None)
  = inr (VArray []) /\
  outcome (EventsList.callRelayAPI Sample.offline Sample.relay
             (lit "listbannedevents") None)
  <> inl (Error (lit "NIP-07 extension not found")).
Proof.
  split; [reflexivity|]. split; [reflexivity|]. discriminate.
Qed.

(** ** The response is not a success *)

(** C3, as the code has it: when the response of a call has a status of
    300 or more, whatever its body, the call fails with the message
    "HTTP <status>: <statusText>"; the caller of EventsList answers an
    empty array instead when the method name starts with "list". *)
Theorem C3_http_failure c w relayUrl method params request response :
  In (Fetch request) (trace (caller c w relayUrl method params)) ->
  fetch w request = inr response ->
  (300 <= status response)%Z ->
  outcome (caller c w relayUrl method params)
  = if swallows c method then inr (VArray [])
    else inl (Error (lit "HTTP " ++ Z_toString (status response)
                       ++ lit ": " ++ statusText response)).
Proof.
  intros Hin Hf Hs.
  rewrite (caller_fetched _ _ _ _ _ _ Hin), Hf.
  unfold answer_of. rewrite (ok_false_above _ Hs). reflexivity.
Qed.

Lemma C3_http_failure_witness :
  outcome (caller InUserManagement (Sample.online Sample.forbidden)
             Sample.relay (lit "banpubkey")
             (Some [PString (lit "abc123"); PString (lit "spam")]))
  = inl (Error (lit "HTTP 403: Forbidden")).
Proof.
  refine (C3_http_failure InUserManagement (Sample.online Sample.forbidden)
            Sample.relay (lit "banpubkey")
            (Some [PString (lit "abc123"); PString (lit "spam")])
            _ Sample.forbidden _ eq_refl _).
  - vm_compute. right. left. reflexivity.
  - vm_compute. discriminate.
Defined.

(** C3 as stated fails in EventsList: a 403 answer to a "list" call is not
    surfaced, the call returns an empty array. *)
Lemma C3_counterexample :
  status Sample.forbidden = 403%Z /\
  fetched (trace (EventsList.callRelayAPI (Sample.online Sample.forbidden)
                    Sample.relay (lit "listbannedevents") None))
  <> [] /\
  outcome (EventsList.callRelayAPI (Sample.online Sample.forbidden)
             Sample.relay (lit "listbannedevents") None)
  = inr (VArray []).
Proof.
  split; [reflexivity|]. split; [vm_compute; discriminate|].
  vm_compute. reflexivity.
Qed.

(** ** The response is a success *)

(** C4, as the code has it: for a response with a status in 200..299 whose
    body parses to an object, a non-empty string in the [error] field makes
    the call fail with that string as its message (the caller of EventsList
    answers an empty array instead for a method name that starts with
    "list"); without an [error] field, or with one that is falsy, the call
    returns the [result] field as it is. *)
Theorem C4_success_response c w relayUrl method params request response props :
  In (Fetch request) (trace (caller c w relayUrl method params)) ->
  fetch w request = inr response ->
  (200 <= status response < 300)%Z ->
  json response = inr (VObject props) ->
  (forall message,
      lookup (lit "error") props = Some (VString message) ->
      message <> [] ->
      outcome (caller c w relayUrl method params)
      = if swallows c method then inr (VArray [])
        else inl (Error message)) /\
  (forall falsy,
      lookup (lit "error") props = Some falsy ->
      ToBoolean falsy = false ->
      outcome (caller c w relayUrl method params)
      = inr (match lookup (lit "result") props with
             | Some result => result
             | None => VUndefined
             end)) /\
  (lookup (lit "error") props = None ->
   outcome (caller c w relayUrl method params)
   = inr (match lookup (lit "result") props with
          | Some result => result
          | None => VUndefined
          end)).
Proof.
  intros Hin Hf Hs Hj.
  rewrite (caller_fetched _ _ _ _ _ _ Hin), Hf.
  unfold answer_of. rewrite (ok_true_within _ Hs), Hj.
  cbn [Get]. repeat split.
  - intros message He Hm. rewrite He.
    destruct message as [|u message]; [contradiction|]. reflexivity.
  - intros falsy He Hb. rewrite He, Hb.
    destruct (lookup (lit "result") props); reflexivity.
  - intros He. rewrite He. cbn [ToBoolean].
    destruct (lookup (lit "result") props); reflexivity.
Qed.

Lemma C4_success_response_witness :
  outcome (caller InUserManagement (Sample.online Sample.listing)
             Sample.relay (lit "listbannedpubkeys") None)
  = inr (VArray [VObject [(lit "pubkey", VString (lit "abc123"));
                          (lit "reason", VString (lit "spam"))]]) /\
  outcome (caller InEventModeration (Sample.online Sample.refusal)
             Sample.relay (lit "banevent")
             (Some [PString (lit "eventid1"); PString (lit "off-topic")]))
  = inl (Error (lit "blocked")).
Proof.
  split.
  - refine (proj2 (proj2
      (C4_success_response InUserManagement (Sample.online Sample.listing)
         Sample.relay (lit "listbannedpubkeys") None
         _ Sample.listing [(lit "result", Sample.banned)]
         _ eq_refl _ eq_refl)) eq_refl).
    + vm_compute. right. left. reflexivity.
    + vm_compute. split; [discriminate | reflexivity].
  - refine (proj1
      (C4_success_response InEventModeration (Sample.online Sample.refusal)
         Sample.relay (lit "banevent")
         (Some [PString (lit "eventid1"); PString (lit "off-topic")])
         _ Sample.refusal [(lit "error", VString (lit "blocked"))]
         _ eq_refl _ eq_refl) (lit "blocked") eq_refl _).
    + vm_compute. right. left. reflexivity.
    + vm_compute. split; [discriminate | reflexivity].
    + vm_compute. discriminate.
Defined.

(** C4 as stated fails twice: a successful response that carries the
    [error] field with an empty string is not a failure, the [result] is
    returned; and in EventsList a "list" call whose response carries an
    error message returns an empty array. *)
Lemma C4_counterexample :
  (status Sample.blank_error = 200%Z /\
   json Sample.blank_error
   = inr (VObject [(lit "result", Sample.banned);
                   (lit "error", VString [])]) /\
   outcome (EventModeration.callRelayAPI (Sample.online Sample.blank_error)
              Sample.relay (lit "listbannedpubkeys") None)
   = inr Sample.banned) /\
  (status Sample.refusal = 200%Z /\
   json Sample.refusal
   = inr (VObject [(lit "error", VString (lit "blocked"))]) /\
   outcome (EventsList.callRelayAPI (Sample.online Sample.refusal)
              Sample.relay (lit "listbannedevents") None)
   = inr (VArray [])).
Proof.
  repeat split; vm_compute; reflexivity.
Qed.

(** ** The catch of EventsList *)

(** C9: in EventsList, when the method name starts with "list" a missing
    signer, a network error, a status outside 200..299, a truthy [error]
    field and any other failure of the [try] block give an empty array;
    otherwise the same failure is thrown to the caller. *)
Theorem C9_list_methods_recover w relayUrl method params :
  let call := EventsList.callRelayAPI w relayUrl method params in
  let recovered (e : exn) : exn + value :=
    if startsWith method (lit "list") then inr (VArray []) else inl e in
  (window_nostr w = None ->
   outcome call = recovered (Error (lit "NIP-07 extension not found"))) /\
  (forall request e,
      In (Fetch request) (trace call) -> fetch w request = inl e ->
      outcome call = recovered e) /\
  (forall request response,
      In (Fetch request) (trace call) -> fetch w request = inr response ->
      ok response = false ->
      outcome call = recovered (http_failure response)) /\
  (forall request response result error,
      In (Fetch request) (trace call) -> fetch w request = inr response ->
      ok response = true -> json response = inr result ->
      Get result (lit "error") = inr error -> ToBoolean error = true ->
      outcome call = recovered (new_Error error)) /\
  (forall e,
      outcome (EventsList.attempt w (httpUrl relayUrl) (payload method params))
      = inl e ->
      outcome call = recovered e).
Proof.
  cbv zeta.
  change (EventsList.callRelayAPI w relayUrl method params)
    with (caller InEventsList w relayUrl method params).
  repeat split.
  - intros H.
    exact (proj2 (absent_signer_general InEventsList w relayUrl method params H)).
  - intros request e Hin Hf.
    rewrite (caller_fetched InEventsList _ _ _ _ _ Hin), Hf. reflexivity.
  - intros request response Hin Hf Hok.
    rewrite (caller_fetched InEventsList _ _ _ _ _ Hin), Hf.
    unfold answer_of. rewrite Hok. reflexivity.
  - intros request response result error Hin Hf Hok Hj He Hb.
    rewrite (caller_fetched InEventsList _ _ _ _ _ Hin), Hf.
    unfold answer_of. rewrite Hok, Hj, He, Hb. reflexivity.
  - intros e H. rewrite EventsList_attempt_same in H.
    unfold outcome in *. rewrite caller_run.
    cbv zeta. cbn [fst]. rewrite H. reflexivity.
Qed.

Lemma C9_list_methods_recover_witness :
  outcome (EventsList.callRelayAPI Sample.offline Sample.relay
             (lit "listbannedevents") None)
  = inr (VArray []) /\
  outcome (EventsList.callRelayAPI Sample.offline Sample.relay
             (lit "banevent") (Some [PString (lit "eventid1"); PUndefined]))
  = inl (Error (lit "NIP-07 extension not found")).
Proof.
  split.
  - exact (proj1 (C9_list_methods_recover Sample.offline Sample.relay
                    (lit "listbannedevents") None) eq_refl).
  - exact (proj1 (C9_list_methods_recover Sample.offline Sample.relay
                    (lit "banevent")
                    (Some [PString (lit "eventid1"); PUndefined])) eq_refl).
Defined.

(** ** The attestation record *)

Lemma builder_same c : builder c = EventModeration.createAuthHeader.
Proof. destruct c; reflexivity. Qed.

Lemma builder_run c w nostr url method body :
  window_nostr w = Some nostr ->
  run (builder c w url method body)
  = (header_of (signEvent nostr (attestation w url method body)),
     [SignEvent (attestation w url method body)]).
Proof.
  intros H. rewrite builder_same. unfold run.
  rewrite (createAuthHeader_present _ _ _ _ _ _ H). reflexivity.
Qed.

(** C6: with a signer present the builder hands it exactly one record, of
    kind 27235, with empty content, with the tags ["u", url] and
    ["method", method] in front, and with the clock's milliseconds turned
    into whole seconds as its creation time. *)
Theorem C6_attestation_record c w nostr url method body :
  window_nostr w = Some nostr ->
  exists e extra,
    signed (trace (builder c w url method body)) = [e] /\
    kind e = 27235%Z /\
    content e = [] /\
    tags e = [lit "u"; url] :: [lit "method"; method] :: extra /\
    created_at e = (Date_now w / 1000)%Z /\
    (1000 * created_at e <= Date_now w < 1000 * created_at e + 1000)%Z.
Proof.
  intros H. unfold trace. rewrite (builder_run c _ _ _ _ _ H). cbn [snd signed].
  eexists. eexists. split; [reflexivity|].
  cbn [attestation kind content tags created_at attestation_tags app].
  repeat split; try reflexivity.
  - pose proof (Z.mul_div_le (Date_now w) 1000). lia.
  - pose proof (Z.mul_succ_div_gt (Date_now w) 1000). lia.
Qed.

Lemma C6_attestation_record_witness :
  exists e extra,
    signed (trace (EventsList.createNip98Auth (Sample.online Sample.listing)
                     (lit "https://relay.example.com") (lit "POST") None))
    = [e] /\
    kind e = 27235%Z /\
    content e = [] /\
    tags e = [lit "u"; lit "https://relay.example.com"]
               :: [lit "method"; lit "POST"] :: extra /\
    created_at e = (1762151400123 / 1000)%Z /\
    (1000 * created_at e <= 1762151400123 < 1000 * created_at e + 1000)%Z.
Proof.
  exact (C6_attestation_record InEventsList (Sample.online Sample.listing)
           Sample.signer (lit "https://relay.example.com") (lit "POST") None
           eq_refl).
Defined.

(** ** The content hash *)

Lemma be_bytes_are_bytes count n :
  Forall (fun b => (b < 256)%N) (SHA256.be_bytes count n).
Proof.
  unfold SHA256.be_bytes. apply Forall_forall. intros b Hb.
  apply in_map_iff in Hb. destruct Hb as [i [<- _]].
  apply N.mod_lt. discriminate.
Qed.

Lemma digest_is_bytes msg : Forall (fun b => (b < 256)%N) (SHA256.digest msg).
Proof.
  unfold SHA256.digest. cbv zeta. apply Forall_forall. intros b Hb.
  apply in_flat_map in Hb. destruct Hb as [word [_ Hb]].
  exact (proj1 (Forall_forall _ _) (be_bytes_are_bytes 4 word) b Hb).
Qed.

Lemma digest_length msg : List.length (SHA256.digest msg) = 32%nat.
Proof.
  unfold SHA256.digest. cbv zeta.
  assert (L : forall h, List.length h = 8%nat ->
            List.length (flat_map (SHA256.be_bytes 4) h) = 32%nat).
  { intros h Hh. do 9 (destruct h as [|? h]; try discriminate Hh).
    reflexivity. }
  apply L.
  assert (C : forall h block, List.length h = 8%nat ->
            List.length (SHA256.compress h block) = 8%nat).
  { intros h block Hh. unfold SHA256.compress. cbv zeta.
    rewrite length_map, length_combine.
    assert (R : forall kws st, List.length st = 8%nat ->
              List.length (fold_left SHA256.round kws st) = 8%nat).
    { induction kws as [|kw kws IH]; intros st Hst; [exact Hst|].
      cbn [fold_left]. apply IH.
      do 9 (destruct st as [|? st]; try discriminate Hst). reflexivity. }
    rewrite R by exact Hh. rewrite Hh. reflexivity. }
  generalize (SHA256.blocks (List.length (SHA256.pad msg) / 64)
                (SHA256.words (SHA256.pad msg))).
  assert (G : forall bs h, List.length h = 8%nat ->
            List.length (fold_left SHA256.compress bs h) = 8%nat).
  { induction bs as [|b bs IH]; intros h Hh; [exact Hh|].
    cbn [fold_left]. apply IH, C, Hh. }
  intros bs. apply G. reflexivity.
Qed.

Lemma byte_to_hex b :
  (b < 256)%N ->
  padStart 2 48%N (toString16 b) = [hex_unit (b / 16); hex_unit (b mod 16)]%N.
Proof.
  intros Hb.
  assert (All : forallb
            (fun n =>
               units_eqb (padStart 2 48%N (toString16 (N.of_nat n)))
                 [hex_unit (N.of_nat n / 16); hex_unit (N.of_nat n mod 16)]%N)
            (seq 0 256) = true) by (vm_compute; reflexivity).
  rewrite forallb_forall in All.
  specialize (All (N.to_nat b)).
  rewrite N2Nat.id in All.
  assert (Hin : In (N.to_nat b) (seq 0 256)) by (apply in_seq; lia).
  specialize (All Hin).
  revert All.
  generalize (padStart 2 48%N (toString16 b)).
  generalize [hex_unit (b / 16); hex_unit (b mod 16)]%N.
  intros r l. revert r.
  induction l as [|x l IH]; intros [|y r] E; try discriminate E.
  - reflexivity.
  - cbn [units_eqb] in E. apply andb_true_iff in E. destruct E as [E1 E2].
    apply N.eqb_eq in E1. subst y. f_equal. apply IH, E2.
Qed.

Lemma join_empty_separator parts : join [] parts = List.concat parts.
Proof.
  induction parts as [|p [|q rest] IH]; [reflexivity| |].
  - cbn. rewrite List.app_nil_r. reflexivity.
  - change (join [] (p :: q :: rest)) with (p ++ [] ++ join [] (q :: rest)).
    rewrite IH. reflexivity.
Qed.

(** The source's digit-by-digit formatting is the usual hex encoding. *)
Lemma hashHex_is_hex_encode bytes :
  Forall (fun b => (b < 256)%N) bytes -> hashHex bytes = hex_encode bytes.
Proof.
  intros H. unfold hashHex, hex_encode. rewrite join_empty_separator.
  induction H as [|b bytes Hb _ IH]; [reflexivity|].
  cbn [map List.concat flat_map]. rewrite IH, (byte_to_hex b Hb). reflexivity.
Qed.

Lemma hex_encode_length bytes :
  List.length (hex_encode bytes) = (2 * List.length bytes)%nat.
Proof.
  unfold hex_encode. induction bytes as [|b bytes IH]; [reflexivity|].
  cbn [flat_map app List.length]. rewrite IH. lia.
Qed.

(** The content hash is always 64 hexadecimal digits. *)
Lemma payload_hash_length msg :
  List.length (hex_encode (SHA256.digest msg)) = 64%nat.
Proof. rewrite hex_encode_length, digest_length. reflexivity. Qed.

(** C5, as the code has it: for a body that is not the empty string the
    record handed to the signer carries, as its third and last tag,
    ["payload", h] where h is the lowercase hex encoding of the SHA-256
    digest of the body's UTF-8 bytes; without a body, and with the empty
    string as body, the record has the two required tags only. *)
Theorem C5_payload_tag c w nostr url method body :
  window_nostr w = Some nostr ->
  exists e,
    signed (trace (builder c w url method body)) = [e] /\
    tags e
    = [[lit "u"; url]; [lit "method"; method]] ++
      match body with
      | Some (u :: text) =>
          [[lit "payload";
            hex_encode (SHA256.digest (TextEncoder_encode (u :: text)))]]
      | Some [] => []
      | None => []
      end.
Proof.
  intros H. unfold trace. rewrite (builder_run c _ _ _ _ _ H). cbn [snd signed].
  eexists. split; [reflexivity|].
  cbn [attestation tags]. unfold attestation_tags.
  destruct body as [[|u text]|]; try reflexivity.
  rewrite hashHex_is_hex_encode by apply digest_is_bytes. reflexivity.
Qed.

Lemma C5_payload_tag_witness :
  exists e,
    signed (trace (EventModeration.createAuthHeader
                     (Sample.online Sample.listing)
                     (lit "https://relay.example.com") (lit "POST")
                     (Some (lit "abc"))))
    = [e] /\
    tags e
    = [[lit "u"; lit "https://relay.example.com"];
       [lit "method"; lit "POST"];
       [lit "payload";
        lit "ba7816bf8f01cfea414140de5dae2223b00361a396177a9cb410ff61f20015ad"]].
Proof.
  exact (C5_payload_tag InEventModeration (Sample.online Sample.listing)
           Sample.signer (lit "https://relay.example.com") (lit "POST")
           (Some (lit "abc")) eq_refl).
Defined.

(** C5 as stated fails for the empty string: supplied as the body, it
    leaves the record without a content-hash tag, although it has a
    SHA-256 digest like any other string. *)
Lemma C5_counterexample :
  map tags
    (signed (trace (EventModeration.createAuthHeader
                      (Sample.online Sample.listing)
                      (lit "https://relay.example.com") (lit "POST")
                      (Some (lit "")))))
  = [[[lit "u"; lit "https://relay.example.com"];
      [lit "method"; lit "POST"]]] /\
  hex_encode (SHA256.digest (TextEncoder_encode (lit "")))
  = lit "e3b0c44298fc1c149afbf4c8996fb92427ae41e4649b934ca495991b7852b855".
Proof.
  split; vm_compute; reflexivity.
Qed.

(** ** The header *)

Lemma latin1_forallb s :
  forallb (fun c => (c <=? 255)%N) s = true <-> latin1 s.
Proof.
  unfold latin1. rewrite forallb_forall, Forall_forall.
  split; intros H c Hc; specialize (H c Hc); apply N.leb_le; exact H.
Qed.

Lemma btoa_latin1 s : latin1 s -> btoa s = inr (base64 s).
Proof.
  intros H. unfold btoa. apply latin1_forallb in H. rewrite H. reflexivity.
Qed.

Lemma btoa_not_latin1 s : ~ latin1 s -> btoa s = inl InvalidCharacterError.
Proof.
  intros H. unfold btoa.
  destruct (forallb (fun c => (c <=? 255)%N) s) eqn:E; [|reflexivity].
  apply latin1_forallb in E. contradiction.
Qed.

Lemma base64_value_unit i :
  (i < 64)%N ->
  base64_value (base64_unit i) = Some i /\ (base64_unit i =? 61)%N = false.
Proof.
  intros H.
  assert (All : forallb
            (fun n => match base64_value (base64_unit (N.of_nat n)) with
                      | Some x => N.eqb x (N.of_nat n)
                      | None => false
                      end && negb (base64_unit (N.of_nat n) =? 61)%N)
            (seq 0 64) = true) by (vm_compute; reflexivity).
  rewrite forallb_forall in All. specialize (All (N.to_nat i)).
  rewrite N2Nat.id in All.
  assert (Hin : In (N.to_nat i) (seq 0 64)) by (apply in_seq; lia).
  specialize (All Hin). apply andb_true_iff in All. destruct All as [A B].
  split.
  - destruct (base64_value (base64_unit i)) as [x|]; [|discriminate A].
    apply N.eqb_eq in A. congruence.
  - apply negb_true_iff in B. exact B.
Qed.

Ltac divmod := cbv beta in *; zify; Z.to_euclidean_division_equations; lia.

Lemma base64_decode_encode_bounded n :
  forall bytes, (List.length bytes <= n)%nat ->
    Forall (fun b => (b < 256)%N) bytes ->
    base64_decode (base64 bytes) = Some bytes.
Proof.
  induction n as [|n IH]; intros bytes Hn Hb.
  - destruct bytes; [reflexivity|cbn in Hn; lia].
  - destruct bytes as [|a [|b [|c rest]]].
    + reflexivity.
    + inversion Hb as [|? ? Ha _]; subst.
      cbn [base64 base64_decode].
      destruct (base64_value_unit (a / 4)) as [E1 _]; [divmod|].
      destruct (base64_value_unit ((a mod 4) * 16)) as [E2 _]; [divmod|].
      change (61 =? 61)%N with true. cbv iota. rewrite E1, E2.
      do 2 f_equal. divmod.
    + inversion Hb as [|? ? Ha Hb']; subst.
      inversion Hb' as [|? ? Hb0 _]; subst.
      cbn [base64 base64_decode].
      destruct (base64_value_unit (a / 4)) as [E1 _]; [divmod|].
      destruct (base64_value_unit ((a mod 4) * 16 + b / 16)) as [E2 _]; [divmod|].
      destruct (base64_value_unit ((b mod 16) * 4)) as [E3 F3]; [divmod|].
      change (61 =? 61)%N with true. cbv iota. rewrite F3, E1, E2, E3.
      f_equal. f_equal; [divmod|]. f_equal. divmod.
    + inversion Hb as [|? ? Ha Hb']; subst.
      inversion Hb' as [|? ? Hb0 Hb'']; subst.
      inversion Hb'' as [|? ? Hc Hr]; subst.
      cbn [base64 base64_decode app].
      destruct (base64_value_unit (a / 4)) as [E1 _]; [divmod|].
      destruct (base64_value_unit ((a mod 4) * 16 + b / 16)) as [E2 _]; [divmod|].
      destruct (base64_value_unit ((b mod 16) * 4 + c / 64)) as [E3 _]; [divmod|].
      destruct (base64_value_unit (c mod 64)) as [E4 F4]; [divmod|].
      rewrite F4. unfold sextets. rewrite E1, E2, E3, E4.
      rewrite IH by (try assumption; cbn [List.length] in Hn; lia).
      cbn [app]. f_equal. f_equal; [divmod|]. f_equal; [divmod|].
      f_equal. divmod.
Qed.

Lemma base64_decode_encode text :
  latin1 text -> base64_decode (base64 text) = Some text.
Proof.
  intros H. apply (base64_decode_encode_bounded (List.length text)); [lia|].
  unfold latin1 in H. apply Forall_forall. intros b Hb.
  pose proof (proj1 (Forall_forall _ _) H b Hb) as L. cbv beta in L. lia.
Qed.

Lemma JSON_stringify_record props :
  exists text, JSON_stringify (VObject props) = Some text.
Proof. eexists. reflexivity. Qed.

(** The header of a record the signer returns: "Nostr", a space and the
    base64 encoding of the record's JSON text, which decodes to that text
    again, provided that every code unit of the text is at most 0xFF;
    when one of them is larger [btoa] raises InvalidCharacterError and
    the builder has no header to return. *)
Lemma header_of_signed_record c w nostr url method body e signedEvent text :
  window_nostr w = Some nostr ->
  In (SignEvent e) (trace (builder c w url method body)) ->
  signEvent nostr e = inr signedEvent ->
  JSON_stringify signedEvent = Some text ->
  (latin1 text ->
   outcome (builder c w url method body) = inr (lit "Nostr " ++ base64 text)
   /\ base64_decode (base64 text) = Some text)
  /\
  (~ latin1 text ->
   outcome (builder c w url method body) = inl InvalidCharacterError).
Proof.
  intros Hn Hin Hs Ht. unfold trace, outcome in *.
  rewrite (builder_run c _ _ _ _ _ Hn) in *. cbn [fst snd] in *.
  destruct Hin as [Hin|[]]. injection Hin as Hin. rewrite Hin, Hs.
  unfold header_of. rewrite Ht. cbn [ToString_opt].
  split; intros Hl.
  - rewrite (btoa_latin1 _ Hl).
    split; [reflexivity|apply base64_decode_encode, Hl].
  - rewrite (btoa_not_latin1 _ Hl). reflexivity.
Qed.

Example header_on_sample :
  outcome (EventModeration.createAuthHeader (Sample.online Sample.listing)
             (lit "https://relay.example.com") (lit "POST") None)
  = inr (lit "Nostr " ++
         lit "eyJraW5kIjoyNzIzNSwiY29udGVudCI6IiIsInRhZ3MiOltbInUiLCJodHRwczovL3JlbGF5LmV4YW1wbGUuY29tIl0sWyJtZXRob2QiLCJQT1NUIl1dLCJjcmVhdGVkX2F0IjoxNzYyMTUxNDAwLCJwdWJrZXkiOiI3OWJlNjY3ZWY5ZGNiYmFjIiwiaWQiOiI0YTVmMWU2YzhkMmIzOTA3Iiwic2lnIjoiZTkwNzgzMWY4MDg0OGQxMCJ9").
Proof.
  refine (proj1 (proj1
    (header_of_signed_record InEventModeration (Sample.online Sample.listing) Sample.signer
       (lit "https://relay.example.com") (lit "POST") None
       (attestation (Sample.online Sample.listing)
          (lit "https://relay.example.com") (lit "POST") None)
       _ _ eq_refl _ eq_refl eq_refl) _)).
  - left. reflexivity.
  - apply latin1_forallb. vm_compute. reflexivity.
Qed.

(** C7: the builder is to return "Nostr", a space and the base64 encoding
    of the signed record's JSON text.  For the relay address [wss://]
    followed by U+4F8B and [.jp] the signer returns the signed record,
    its JSON text carries the address in the "u" tag, and [btoa], which
    the builder applies to the text itself and not to its UTF-8 bytes,
    raises InvalidCharacterError: the builder returns no header, not the
    encoding of the bytes either, and the caller fails with that error
    before any request is sent. *)
Theorem C7_header_beyond_latin1 :
  let relayUrl := lit "wss://" ++ [20363%N] ++ lit ".jp" in
  let w := Sample.online Sample.listing in
  let body := payload (lit "banevent") (Some [PString (lit "eventid1")]) in
  let e := attestation w (httpUrl relayUrl) (lit "POST") body in
  (exists signedEvent text,
      signEvent Sample.signer e = inr signedEvent /\
      JSON_stringify signedEvent = Some text /\
      In 20363%N text /\
      outcome (EventModeration.createAuthHeader w (httpUrl relayUrl)
                 (lit "POST") body)
      <> inr (lit "Nostr " ++ base64 (TextEncoder_encode text))) /\
  outcome (EventModeration.createAuthHeader w (httpUrl relayUrl)
             (lit "POST") body)
  = inl InvalidCharacterError /\
  outcome (EventModeration.callRelayAPI w relayUrl (lit "banevent")
             (Some [PString (lit "eventid1")]))
  = inl InvalidCharacterError /\
  trace (EventModeration.callRelayAPI w relayUrl (lit "banevent")
           (Some [PString (lit "eventid1")]))
  = [SignEvent e].
Proof.
  cbv zeta. split; [|split; [|split]].
  - eexists. eexists. split; [reflexivity|]. split; [reflexivity|].
    split; [vm_compute; tauto|]. vm_compute. discriminate.
  - vm_compute. reflexivity.
  - vm_compute. reflexivity.
  - vm_compute. reflexivity.
Qed.

(** ** The address of the relay *)

Lemma httpUrl_wss rest : httpUrl (lit "wss://" ++ rest) = lit "https://" ++ rest.
Proof. reflexivity. Qed.

Lemma httpUrl_ws rest : httpUrl (lit "ws://" ++ rest) = lit "https://" ++ rest.
Proof. reflexivity. Qed.

Ltac split_url :=
  repeat match goal with
         | |- context [match ?s with [] => _ | _ :: _ => _ end] =>
             is_var s; destruct s
         | |- context [N.eqb ?a ?b] =>
             destruct (N.eqb_spec a b); subst
         | _ => progress cbn
         end.

Lemma httpUrl_other relayUrl :
  startsWith relayUrl (lit "ws://") = false ->
  startsWith relayUrl (lit "wss://") = false ->
  httpUrl relayUrl = relayUrl.
Proof.
  unfold httpUrl, replace_anchored, wss_scheme.
  cbn [lit map list_ascii_of_string app N_of_ascii N_of_digits
       match_here startsWith].
  cbn.
  split_url; intros H1 H2; try reflexivity; discriminate.
Qed.

(** C8, as the code has it: where the signer signs the record and the
    header is built, the caller sends one request, and its address is the
    relay address with a leading "wss://" or "ws://" replaced by
    "https://" and the rest kept; an address that starts with neither is
    kept whole. *)
Theorem C8_scheme_rewrite c w nostr relayUrl method params h :
  window_nostr w = Some nostr ->
  header_of (signEvent nostr
               (attestation w (httpUrl relayUrl) (lit "POST")
                  (payload method params))) = inr h ->
  exists request,
    fetched (trace (caller c w relayUrl method params)) = [request] /\
    url request = httpUrl relayUrl /\
    (forall rest, relayUrl = lit "wss://" ++ rest ->
                  url request = lit "https://" ++ rest) /\
    (forall rest, relayUrl = lit "ws://" ++ rest ->
                  url request = lit "https://" ++ rest) /\
    (startsWith relayUrl (lit "ws://") = false ->
     startsWith relayUrl (lit "wss://") = false ->
     url request = relayUrl).
Proof.
  intros Hn Hh. exists (request_for relayUrl method params h).
  split.
  - unfold trace. rewrite caller_run, callRelayAPI_run, Hn. cbv zeta.
    rewrite Hh. reflexivity.
  - cbn [request_for url]. split; [reflexivity|]. split; [|split].
    + intros rest ->. apply httpUrl_wss.
    + intros rest ->. apply httpUrl_ws.
    + apply httpUrl_other.
Qed.

Lemma C8_scheme_rewrite_witness :
  (exists request,
      fetched (trace (caller InEventModeration (Sample.online Sample.listing)
                        (lit "wss://relay.example.com")
                        (lit "listbannedpubkeys") None)) = [request] /\
      url request = lit "https://relay.example.com") /\
  (exists request,
      fetched (trace (caller InEventsList (Sample.online Sample.listing)
                        (lit "ws://localhost:7777")
                        (lit "listbannedevents") None)) = [request] /\
      url request = lit "https://localhost:7777") /\
  (exists request,
      fetched (trace (caller InUserManagement (Sample.online Sample.listing)
                        (lit "http://relay.example.com/ws://")
                        (lit "listbannedpubkeys") None)) = [request] /\
      url request = lit "http://relay.example.com/ws://").
Proof.
  split; [|split].
  - destruct (C8_scheme_rewrite InEventModeration
                (Sample.online Sample.listing) Sample.signer
                (lit "wss://relay.example.com") (lit "listbannedpubkeys") None
                (match header_of
                         (signEvent Sample.signer
                            (attestation (Sample.online Sample.listing)
                               (httpUrl (lit "wss://relay.example.com"))
                               (lit "POST")
                               (payload (lit "listbannedpubkeys") None)))
                 with inr h => h | inl _ => [] end)
                eq_refl ltac:(vm_compute; reflexivity))
      as (request & Hf & _ & Hwss & _).
    exists request. split; [exact Hf|exact (Hwss _ eq_refl)].
  - destruct (C8_scheme_rewrite InEventsList
                (Sample.online Sample.listing) Sample.signer
                (lit "ws://localhost:7777") (lit "listbannedevents") None
                (match header_of
                         (signEvent Sample.signer
                            (attestation (Sample.online Sample.listing)
                               (httpUrl (lit "ws://localhost:7777"))
                               (lit "POST")
                               (payload (lit "listbannedevents") None)))
                 with inr h => h | inl _ => [] end)
                eq_refl ltac:(vm_compute; reflexivity))
      as (request & Hf & _ & _ & Hws & _).
    exists request. split; [exact Hf|exact (Hws _ eq_refl)].
  - destruct (C8_scheme_rewrite InUserManagement
                (Sample.online Sample.listing) Sample.signer
                (lit "http://relay.example.com/ws://")
                (lit "listbannedpubkeys") None
                (match header_of
                         (signEvent Sample.signer
                            (attestation (Sample.online Sample.listing)
                               (httpUrl (lit "http://relay.example.com/ws://"))
                               (lit "POST")
                               (payload (lit "listbannedpubkeys") None)))
                 with inr h => h | inl _ => [] end)
                eq_refl ltac:(vm_compute; reflexivity))
      as (request & Hf & _ & _ & _ & Hother).
    exists request. split; [exact Hf|exact (Hother eq_refl eq_refl)].
Defined.

(** C8 as stated fails for an address with the scheme "ws://": its HTTP
    equivalent is "http://", and the one request the caller sends goes to
    the "https://" address. *)
Lemma C8_counterexample :
  exists request,
    fetched (trace (EventModeration.callRelayAPI
                      (Sample.online Sample.listing)
                      (lit "ws://localhost:7777")
                      (lit "listbannedpubkeys") None)) = [request] /\
    url request = lit "https://localhost:7777" /\
    url request <> lit "http://localhost:7777".
Proof.
  eexists. split; [vm_compute; reflexivity|].
  split; [reflexivity|discriminate].
Qed.

(** ** The order of the events *)

Lemma sort_insert_perm x l :
  Permutation (x :: l) (sort_insert by_created_at x l).
Proof.
  induction l as [|y l IH]; cbn [sort_insert]; [apply Permutation_refl|].
  destruct (by_created_at x y <=? 0)%Z; [apply Permutation_refl|].
  apply perm_trans with (y :: x :: l); [apply perm_swap|].
  apply perm_skip, IH.
Qed.

Lemma sort_insert_head x y l :
  newer_first y x ->
  HdRel newer_first y l ->
  HdRel newer_first y (sort_insert by_created_at x l).
Proof.
  intros Hyx Hl. destruct l as [|z l]; cbn [sort_insert].
  - constructor. exact Hyx.
  - destruct (by_created_at x z <=? 0)%Z; constructor; [exact Hyx|].
    inversion Hl; assumption.
Qed.

Lemma sort_insert_sorted x l :
  Sorted newer_first l -> Sorted newer_first (sort_insert by_created_at x l).
Proof.
  induction 1 as [|y l Hs IH Hh]; cbn [sort_insert].
  - repeat constructor.
  - destruct (by_created_at x y <=? 0)%Z eqn:E.
    + constructor; [constructor; assumption|].
      constructor. unfold newer_first, by_created_at in *.
      apply Z.leb_le in E. lia.
    + constructor; [exact IH|].
      apply sort_insert_head; [|exact Hh].
      unfold newer_first, by_created_at in *.
      apply Z.leb_gt in E. lia.
Qed.

Lemma Array_sort_sorted events :
  Sorted newer_first (Array_sort by_created_at events).
Proof.
  induction events as [|x l IH]; [constructor|].
  apply sort_insert_sorted, IH.
Qed.

Lemma Array_sort_perm events :
  Permutation events (Array_sort by_created_at events).
Proof.
  induction events as [|x l IH]; [constructor|].
  apply perm_trans with (x :: Array_sort by_created_at l).
  - apply perm_skip, IH.
  - apply sort_insert_perm.
Qed.

Lemma sorted_adjacent l :
  Sorted newer_first l ->
  forall i a b,
    nth_error l i = Some a -> nth_error l (S i) = Some b -> newer_first a b.
Proof.
  induction 1 as [|x l Hs IH Hh]; intros i a b Ha Hb.
  - destruct i; discriminate Ha.
  - destruct i as [|i].
    + cbn in Ha, Hb. injection Ha as <-.
      destruct l as [|y l]; [discriminate Hb|].
      cbn in Hb. injection Hb as <-. inversion Hh; assumption.
    + exact (IH i a b Ha Hb).
Qed.

(** C10: when the relay pool answers the query with events, the query
    function returns the same events, each as often as it was given,
    ordered so that of two neighbours the first has the greater or equal
    [created_at]. *)
Theorem C10_newest_first query kindFilter limit customKind events :
  query [EventsList.build_filter kindFilter limit customKind] = inr events ->
  exists sorted,
    EventsList.queryFn query kindFilter limit customKind = inr sorted /\
    Permutation events sorted /\
    Sorted newer_first sorted /\
    (forall i a b,
        nth_error sorted i = Some a ->
        nth_error sorted (S i) = Some b ->
        (EventsList.created_at a >= EventsList.created_at b)%Z).
Proof.
  intros Hq. exists (Array_sort by_created_at events).
  split; [unfold EventsList.queryFn; cbv zeta; rewrite Hq; reflexivity|].
  split; [apply Array_sort_perm|].
  split; [apply Array_sort_sorted|].
  exact (sorted_adjacent _ (Array_sort_sorted events)).
Qed.

Lemma C10_newest_first_witness :
  exists sorted,
    EventsList.queryFn Sample.pool (lit "1,6,7") (Finite 20%Z) (lit "")
    = inr sorted /\
    Permutation Sample.stored sorted /\
    Sorted newer_first sorted /\
    (forall i a b,
        nth_error sorted i = Some a ->
        nth_error sorted (S i) = Some b ->
        (EventsList.created_at a >= EventsList.created_at b)%Z).
Proof.
  exact (C10_newest_first Sample.pool (lit "1,6,7") (Finite 20%Z) (lit "")
           Sample.stored eq_refl).
Defined.

Example queryFn_on_sample :
  option_map (map EventsList.created_at)
    (match EventsList.queryFn Sample.pool (lit "1,6,7") (Finite 20%Z) (lit "")
     with inr l => Some l | inl _ => None end)
  = Some [1762151400; 1762151400; 1762150000; 1762140000]%Z /\
  option_map (map EventsList.content)
    (match EventsList.queryFn Sample.pool (lit "1,6,7") (Finite 20%Z) (lit "")
     with inr l => Some l | inl _ => None end)
  = Some [lit "second"; lit "fourth"; lit "third"; lit "first"].
Proof. split; vm_compute; reflexivity. Qed.

Example build_filter_on_samples :
  EventsList.kinds (EventsList.build_filter (lit "all") (Finite 20%Z) (lit "5"))
  = None /\
  EventsList.kinds (EventsList.build_filter (lit "1,6,7") (Finite 20%Z) (lit ""))
  = Some [Finite 1%Z; Finite 6%Z; Finite 7%Z] /\
  EventsList.kinds
    (EventsList.build_filter (lit "custom") (Finite 20%Z) (lit " 30023x"))
  = Some [Finite 30023%Z] /\
  EventsList.kinds (EventsList.build_filter (lit "custom") (Finite 20%Z) (lit ""))
  = None /\
  EventsList.kinds (EventsList.build_filter (lit "x,,y") (Finite 20%Z) (lit ""))
  = None /\
  map parseInt [lit "-12"; lit "0x1F"; lit "+7.9"; lit "abc"; lit ""; lit "0x"]
  = [Finite (-12)%Z; Finite 31%Z; Finite 7%Z; NaN; NaN; NaN].
Proof. repeat split; vm_compute; reflexivity. Qed.

(** ** The request body *)

Lemma hex_value_hex_unit d : (d < 16)%N -> hex_value (hex_unit d) = Some d.
Proof.
  intros H.
  assert (All : forallb (fun n => match hex_value (hex_unit (N.of_nat n)) with
                                  | Some x => N.eqb x (N.of_nat n) | None => false end)
                        (seq 0 16) = true) by (vm_compute; reflexivity).
  rewrite forallb_forall in All. specialize (All (N.to_nat d)).
  rewrite N2Nat.id in All.
  assert (Hin : In (N.to_nat d) (seq 0 16)) by (apply in_seq; lia).
  specialize (All Hin).
  destruct (hex_value (hex_unit d)) as [x|]; [|discriminate All].
  apply N.eqb_eq in All. congruence.
Qed.

Lemma hex4_UnicodeEscape c :
  (c < 65536)%N ->
  exists h1 h2 h3 h4,
    UnicodeEscape c = [92; 117; h1; h2; h3; h4]%N /\ hex4 h1 h2 h3 h4 = Some c.
Proof.
  intros H. unfold UnicodeEscape. do 4 eexists. split; [reflexivity|].
  unfold hex4.
  rewrite !hex_value_hex_unit by (apply N.mod_lt; discriminate).
  f_equal.
  change 4096%N with (16 * 16 * 16)%N at 1. change 256%N with (16 * 16)%N at 1.
  rewrite <- !N.Div0.div_div.
  assert (Hq : (c / 16 / 16 / 16 < 16)%N).
  { rewrite !N.Div0.div_div. apply N.Div0.div_lt_upper_bound. exact H. }
  rewrite (N.mod_small _ _ Hq).
  pose proof (N.div_mod c 16 ltac:(discriminate)).
  pose proof (N.div_mod (c / 16) 16 ltac:(discriminate)).
  pose proof (N.div_mod (c / 16 / 16) 16 ltac:(discriminate)).
  lia.
Qed.

Lemma parse_plain c r :
  c <> 34%N -> c <> 92%N -> (32 <= c)%N ->
  parse_string_body (c :: r) = prepend c (parse_string_body r).
Proof.
  intros H1 H2 H3. cbn [parse_string_body].
  destruct (N.eqb_spec c 34); [contradiction|].
  destruct (N.eqb_spec c 92); [contradiction|].
  destruct (N.ltb_spec c 32); [lia|]. reflexivity.
Qed.

Lemma parse_escape c r :
  (c < 65536)%N ->
  parse_string_body (UnicodeEscape c ++ r) = prepend c (parse_string_body r).
Proof.
  intros H. destruct (hex4_UnicodeEscape c H) as (h1 & h2 & h3 & h4 & E & Hx).
  rewrite E. cbn [app parse_string_body N.eqb Pos.eqb]. rewrite Hx. reflexivity.
Qed.

Lemma high_range c : is_high c = true -> (55296 <= c <= 56319)%N.
Proof. unfold is_high. intros H. apply andb_true_iff in H. destruct H as [H1 H2].
  apply N.leb_le in H1, H2. lia. Qed.

Lemma low_range c : is_low c = true -> (56320 <= c <= 57343)%N.
Proof. unfold is_low. intros H. apply andb_true_iff in H. destruct H as [H1 H2].
  apply N.leb_le in H1, H2. lia. Qed.

Lemma parse_quote_unit c r :
  is_high c = false ->
  parse_string_body (quote_unit c ++ r) = prepend c (parse_string_body r).
Proof.
  intros Hh. unfold quote_unit.
  destruct (N.eqb_spec c 8); [subst; reflexivity|].
  destruct (N.eqb_spec c 9); [subst; reflexivity|].
  destruct (N.eqb_spec c 10); [subst; reflexivity|].
  destruct (N.eqb_spec c 12); [subst; reflexivity|].
  destruct (N.eqb_spec c 13); [subst; reflexivity|].
  destruct (N.eqb_spec c 34); [subst; reflexivity|].
  destruct (N.eqb_spec c 92); [subst; reflexivity|].
  rewrite Hh. cbn [orb].
  destruct (N.ltb_spec c 32) as [Hlt|Hge]; cbn [orb].
  - apply parse_escape. lia.
  - destruct (is_low c) eqn:Hl.
    + apply parse_escape. apply low_range in Hl. lia.
    + cbn [app]. apply parse_plain; assumption.
Qed.

Lemma parse_quote_units_bounded n :
  forall s rest, (List.length s <= n)%nat ->
    parse_string_body (quote_units s ++ 34%N :: rest) = Some (s, rest).
Proof.
  induction n as [|n IH]; intros s rest Hn.
  - destruct s; [reflexivity|cbn in Hn; lia].
  - destruct s as [|c s']; [reflexivity|].
    cbn [quote_units]. cbn [List.length] in Hn.
    destruct (is_high c) eqn:Hh.
    + pose proof (high_range c Hh) as Hc.
      destruct s' as [|d s''].
      * rewrite parse_escape by lia. reflexivity.
      * destruct (is_low d) eqn:Hl.
        -- pose proof (low_range d Hl) as Hd. cbn [app].
           rewrite parse_plain by lia. rewrite parse_plain by lia.
           rewrite IH by (cbn [List.length] in Hn; lia). reflexivity.
        -- rewrite <- app_assoc, parse_escape by lia.
           rewrite IH by lia. reflexivity.
    + rewrite <- app_assoc, parse_quote_unit by exact Hh.
      rewrite IH by lia. reflexivity.
Qed.

Lemma parse_quote_units s rest :
  parse_string_body (quote_units s ++ 34%N :: rest) = Some (s, rest).
Proof. apply (parse_quote_units_bounded (List.length s)). lia. Qed.

Lemma take_digits_uint u rest :
  closes rest -> take_digits (uint_units u ++ rest) = (uint_units u, rest).
Proof.
  intros (c & r & -> & Hc).
  induction u; cbn [uint_units app take_digits];
    try (change (is_digit (digit_unit _)) with true; cbv iota;
         rewrite IHu; reflexivity).
  destruct Hc as [-> | ->]; reflexivity.
Qed.

Lemma units_uint_uint u : units_uint (uint_units u) = u.
Proof.
  unfold units_uint.
  induction u; cbn [uint_units fold_right]; try rewrite IHu; reflexivity.
Qed.

Lemma to_uint_no_leading_zero n u :
  N.to_uint n = Decimal.D0 u -> u = Decimal.Nil.
Proof.
  intros H.
  assert (U : Decimal.unorm (N.to_uint n) = N.to_uint n).
  { rewrite <- (DecimalN.Unsigned.of_to n) at 2.
    symmetry. apply DecimalN.Unsigned.to_of. }
  rewrite H in U. rewrite unorm_D0 in U.
  destruct u; try reflexivity;
    match type of U with
    | Decimal.unorm ?d = _ =>
        pose proof (nb_digits_unorm d ltac:(discriminate)) as L
    end; rewrite U in L; cbn [Decimal.nb_digits] in L; lia.
Qed.

Lemma to_uint_nonnil n : N.to_uint n <> Decimal.Nil.
Proof.
  destruct n; [discriminate|]. apply DecimalPos.Unsigned.to_uint_nonnil.
Qed.

Lemma parse_digits_to_uint n rest :
  closes rest ->
  parse_digits (uint_units (N.to_uint n) ++ rest) = Some (n, rest).
Proof.
  intros Hc. unfold parse_digits. rewrite (take_digits_uint _ _ Hc).
  destruct Hc as (c & r & -> & Hc).
  assert (Hcont : ((c =? 46) || (c =? 101) || (c =? 69))%N = false)
    by (destruct Hc as [-> | ->]; reflexivity).
  rewrite Hcont.
  pose proof (to_uint_nonnil n) as Hnn.
  pose proof (to_uint_no_leading_zero n) as Hz.
  pose proof (DecimalN.Unsigned.of_to n) as Hof.
  rewrite <- Hof at 2.
  destruct (N.to_uint n) as [|u|u|u|u|u|u|u|u|u|u];
    [contradiction| | | | | | | | | | ];
    try (cbn [uint_units]; change (digit_unit _ =? 48)%N with false;
         cbn [andb];
         match goal with
         | |- context [units_uint (?d :: uint_units ?v)] =>
             match goal with
             | |- context [N.of_uint (?D v)] =>
                 change (d :: uint_units v) with (uint_units (D v))
             end
         end;
         rewrite units_uint_uint; reflexivity).
  rewrite (Hz u eq_refl). reflexivity.
Qed.

Lemma parse_value_digit_head fuel h t :
  is_digit h = true ->
  parse_value (S fuel) (h :: t)
  = match parse_digits (h :: t) with
    | Some (n, r) => Some (VNumber (Finite (Z.of_N n)), r)
    | None => None
    end.
Proof.
  intros Hd. unfold is_digit in Hd. apply andb_true_iff in Hd.
  destruct Hd as [H1 H2]. apply N.leb_le in H1, H2.
  cbn [parse_value skip_ws]. unfold is_ws.
  repeat match goal with
         | |- context [N.eqb h ?k] =>
             destruct (N.eqb_spec h k); [lia|]
         end.
  cbn [orb]. unfold parse_literal. cbn [startsWith lit map list_ascii_of_string].
  cbn [N_of_ascii N_of_digits N.add N.mul].
  repeat match goal with
         | |- context [N.eqb h ?k] =>
             destruct (N.eqb_spec h k); [lia|]
         end.
  cbn [andb]. unfold parse_number.
  repeat match goal with
         | |- context [N.eqb h ?k] =>
             destruct (N.eqb_spec h k); [lia|]
         end.
  reflexivity.
Qed.

Lemma uint_units_head u :
  u <> Decimal.Nil ->
  exists h t, uint_units u = h :: t /\ is_digit h = true.
Proof.
  destruct u; [contradiction| | | | | | | | | | ]; intros _;
    cbn [uint_units]; eexists; eexists; split; reflexivity.
Qed.

Lemma parse_value_number fuel z rest :
  closes rest ->
  parse_value (S fuel) (Z_toString z ++ rest) = Some (VNumber (Finite z), rest).
Proof.
  intros Hc. unfold Z_toString.
  destruct (Z.ltb_spec z 0) as [Hneg|Hpos].
  - change (lit "-") with [45%N]. cbn [app].
    cbn [parse_value skip_ws]. change (is_ws 45) with false. cbv iota.
    change (45 =? 34)%N with false. change (45 =? 91)%N with false.
    change (45 =? 123)%N with false. cbv iota.
    unfold parse_literal.
    change (startsWith (45%N :: _) (lit "true")) with false.
    change (startsWith (45%N :: _) (lit "false")) with false.
    change (startsWith (45%N :: _) (lit "null")) with false.
    cbv iota. unfold parse_number. change (45 =? 45)%N with true. cbv iota.
    rewrite (parse_digits_to_uint _ _ Hc).
    assert (E : (- Z.of_N (Z.abs_N z))%Z = z)
      by (rewrite N2Z.inj_abs_N; lia).
    rewrite E. reflexivity.
  - cbn [app].
    destruct (uint_units_head _ (to_uint_nonnil (Z.abs_N z))) as (h & t & E & Hd).
    pose proof (parse_digits_to_uint (Z.abs_N z) _ Hc) as P.
    rewrite E in *. cbn [app] in *.
    rewrite (parse_value_digit_head _ _ _ Hd), P.
    assert (Ez : Z.of_N (Z.abs_N z) = z)
      by (rewrite N2Z.inj_abs_N; lia).
    rewrite Ez. reflexivity.
Qed.

Lemma parse_value_string fuel s rest :
  parse_value (S fuel) (QuoteJSONString s ++ rest) = Some (VString s, rest).
Proof.
  unfold QuoteJSONString. rewrite <- !app_assoc. cbn [app].
  cbn [parse_value skip_ws]. change (is_ws 34) with false. cbv iota.
  change (34 =? 34)%N with true. cbv iota.
  rewrite parse_quote_units. reflexivity.
Qed.

Lemma parse_value_null fuel rest :
  parse_value (S fuel) (lit "null" ++ rest) = Some (VNull, rest).
Proof. reflexivity. Qed.

Lemma parse_value_param fuel p rest :
  closes rest ->
  parse_value (S fuel) (written p ++ rest) = Some (received p, rest).
Proof.
  intros Hc. destruct p as [s|[z| |neg]|]; unfold written;
    cbn [param_value SerializeJSONProperty received].
  - apply parse_value_string.
  - apply parse_value_number, Hc.
  - apply parse_value_null.
  - apply parse_value_null.
  - apply parse_value_null.
Qed.

Lemma closes_comma r : closes (44%N :: r).
Proof. exists 44%N, r. split; [reflexivity|left; reflexivity]. Qed.

Lemma closes_bracket r : closes (93%N :: r).
Proof. exists 93%N, r. split; [reflexivity|right; reflexivity]. Qed.

Lemma parse_elements_step fuel s :
  parse_elements (S fuel) s
  = match parse_value fuel s with
    | None => None
    | Some (v, r) =>
        match skip_ws r with
        | [] => None
        | c :: r' =>
            if (c =? 44)%N then
              match parse_elements fuel r' with
              | Some (l, rest) => Some (v :: l, rest)
              | None => None
              end
            else if (c =? 93)%N then Some ([v], r')
            else None
        end
    end.
Proof. reflexivity. Qed.

Lemma parse_elements_params ps :
  forall p fuel rest,
    (List.length ps + 2 <= fuel)%nat ->
    parse_elements fuel
      (join (lit ",") (map written (p :: ps)) ++ 93%N :: rest)
    = Some (map received (p :: ps), rest).
Proof.
  induction ps as [|q ps IH]; intros p fuel rest Hf.
  - destruct fuel as [|[|f]]; [cbn in Hf; lia..|].
    cbn [map join]. rewrite parse_elements_step.
    rewrite (parse_value_param _ _ _ (closes_bracket rest)).
    reflexivity.
  - destruct fuel as [|[|f]]; [cbn in Hf; lia..|].
    change (join (lit ",") (map written (p :: q :: ps)))
      with (written p ++ lit "," ++ join (lit ",") (map written (q :: ps))).
    rewrite <- !app_assoc.
    match goal with
    | |- context [lit "," ++ ?r] => change (lit "," ++ r) with (44%N :: r)
    end.
    rewrite parse_elements_step.
    rewrite (parse_value_param _ _ _ (closes_comma _)).
    cbn [skip_ws]. change (is_ws 44) with false. cbv iota.
    change (44 =? 44)%N with true. cbv iota.
    rewrite IH by (cbn [List.length] in Hf; lia). reflexivity.
Qed.

Lemma written_head p :
  exists h t, written p = h :: t /\ is_ws h = false /\ (h =? 93)%N = false.
Proof.
  destruct p as [s|[z| |neg]|]; unfold written;
    cbn [param_value SerializeJSONProperty];
    try (eexists; eexists; split; [reflexivity|split; reflexivity]).
  unfold Z_toString. destruct (z <? 0)%Z.
  - eexists; eexists; split; [reflexivity|split; reflexivity].
  - destruct (uint_units_head _ (to_uint_nonnil (Z.abs_N z)))
      as (h & t & E & Hd).
    cbn [app]. rewrite E. exists h, t. split; [reflexivity|].
    unfold is_digit in Hd. apply andb_true_iff in Hd.
    destruct Hd as [H1 H2]. apply N.leb_le in H1, H2.
    unfold is_ws. split.
    + repeat match goal with
             | |- context [N.eqb h ?k] =>
                 destruct (N.eqb_spec h k); [lia|]
             end. reflexivity.
    + apply N.eqb_neq. lia.
Qed.

Lemma parse_value_array ps fuel rest :
  (List.length ps + 3 <= fuel)%nat ->
  parse_value fuel
    (lit "[" ++ join (lit ",") (map written ps) ++ lit "]" ++ rest)
  = Some (VArray (map received ps), rest).
Proof.
  intros Hf. destruct fuel as [|f]; [lia|].
  change (lit "[") with [91%N]. change (lit "]") with [93%N]. cbn [app].
  destruct ps as [|p ps].
  - reflexivity.
  - cbn [parse_value skip_ws]. change (is_ws 91) with false. cbv iota.
    change (91 =? 34)%N with false. change (91 =? 91)%N with true. cbv iota.
    pose proof (parse_elements_params ps p f rest) as P.
    destruct (written_head p) as (h & t & E & Hw & Hb).
    assert (J : exists t', join (lit ",") (map written (p :: ps)) ++ 93%N :: rest
                           = h :: t').
    { destruct ps; cbn [map join]; rewrite E; eexists; reflexivity. }
    destruct J as (t' & J). rewrite J in *.
    cbn [skip_ws]. rewrite Hw, Hb.
    rewrite P by (cbn [List.length] in Hf; lia). reflexivity.
Qed.

Lemma elements_written ps :
  (fix elements (l : list value) : list jsstring :=
     match l with
     | [] => []
     | x :: l' =>
         match SerializeJSONProperty x with
         | Some t => t
         | None => lit "null"
         end :: elements l'
     end) (map param_value ps)
  = map written ps.
Proof.
  induction ps as [|p ps IH]; [reflexivity|].
  cbn [map]. rewrite IH. reflexivity.
Qed.

Lemma payload_is_text method params :
  payload method params = Some (payload_text method params).
Proof.
  unfold payload, payload_text, JSON_stringify.
  cbn [SerializeJSONProperty].
  rewrite elements_written.
  cbn [join]. rewrite <- !app_assoc. reflexivity.
Qed.

Lemma parse_members_step fuel acc s :
  parse_members (S fuel) acc s
  = match skip_ws s with
    | [] => None
    | q :: r =>
        if (q =? 34)%N then
          match parse_string_body r with
          | None => None
          | Some (k, r1) =>
              match skip_ws r1 with
              | [] => None
              | colon :: r2 =>
                  if (colon =? 58)%N then
                    match parse_value fuel r2 with
                    | None => None
                    | Some (v, r3) =>
                        match skip_ws r3 with
                        | [] => None
                        | c :: r4 =>
                            if (c =? 44)%N then
                              parse_members fuel (define k v acc) r4
                            else if (c =? 125)%N then
                              Some (define k v acc, r4)
                            else None
                        end
                    end
                  else None
              end
          end
        else None
    end.
Proof. reflexivity. Qed.

Lemma parse_member fuel acc key text v sep r :
  parse_value fuel (text ++ sep :: r) = Some (v, sep :: r) ->
  is_ws sep = false ->
  parse_members (S fuel) acc
    (QuoteJSONString key ++ lit ":" ++ text ++ sep :: r)
  = if (sep =? 44)%N then parse_members fuel (define key v acc) r
    else if (sep =? 125)%N then Some (define key v acc, r)
    else None.
Proof.
  intros Hv Hs. rewrite parse_members_step.
  unfold QuoteJSONString. rewrite <- !app_assoc.
  change (lit ":") with [58%N]. cbn [app].
  cbn [skip_ws]. change (is_ws 34) with false. cbv iota.
  change (34 =? 34)%N with true. cbv iota.
  rewrite parse_quote_units.
  cbn [skip_ws]. change (is_ws 58) with false. cbv iota.
  change (58 =? 58)%N with true. cbv iota.
  rewrite Hv. cbn [skip_ws]. rewrite Hs. reflexivity.
Qed.

Lemma parse_payload_text method params fuel :
  (List.length (listed params) + 6 <= fuel)%nat ->
  parse_value fuel (payload_text method params)
  = Some (VObject [(lit "method", VString method);
                   (lit "params", VArray (map received (listed params)))],
          []).
Proof.
  intros Hf. destruct fuel as [|[|[|f]]]; [lia..|].
  unfold payload_text. change (lit "{") with [123%N]. cbn [app].
  assert (Hd : forall r,
             exists t, QuoteJSONString (lit "method") ++ r = 34%N :: t).
  { intros r. eexists. reflexivity. }
  destruct (Hd (lit ":" ++ QuoteJSONString method ++ lit "," ++
                QuoteJSONString (lit "params") ++ lit ":" ++ lit "[" ++
                join (lit ",") (map written (listed params)) ++
                lit "]" ++ lit "}")) as (t & Et).
  cbn [parse_value skip_ws]. change (is_ws 123) with false. cbv iota.
  change (123 =? 34)%N with false. change (123 =? 91)%N with false.
  change (123 =? 123)%N with true. cbv iota.
  rewrite Et. cbn [skip_ws]. change (is_ws 34) with false. cbv iota.
  change (34 =? 125)%N with false. cbv iota. rewrite <- Et. clear t Et Hd.
  match goal with
  | |- context [lit "," ++ ?r] => change (lit "," ++ r) with (44%N :: r)
  end.
  rewrite (parse_member (S f) [] (lit "method") (QuoteJSONString method)
             (VString method) 44%N)
    by (first [apply parse_value_string | reflexivity]).
  change (44 =? 44)%N with true. cbv iota.
  change (lit "}") with [125%N].
  replace (lit "[" ++ join (lit ",") (map written (listed params))
             ++ lit "]" ++ [125%N])
    with ((lit "[" ++ join (lit ",") (map written (listed params))
             ++ lit "]") ++ 125%N :: [])
    by (rewrite <- !app_assoc; reflexivity).
  rewrite (parse_member f _ (lit "params") _
             (VArray (map received (listed params))) 125%N []).
  - reflexivity.
  - rewrite <- !app_assoc.
    apply (parse_value_array (listed params) f (125%N :: [])). lia.
  - reflexivity.
Qed.

Lemma join_comma_length parts :
  (List.length parts <= List.length (join (lit ",") parts) + 1)%nat.
Proof.
  induction parts as [|p [|q rest] IH]; [cbn; lia|cbn; lia|].
  change (join (lit ",") (p :: q :: rest))
    with (p ++ lit "," ++ join (lit ",") (q :: rest)).
  rewrite !length_app. cbn [List.length] in *.
  change (List.length (lit ",")) with 1%nat. lia.
Qed.

Lemma payload_text_length method params :
  (List.length (listed params) + 2
   <= List.length (payload_text method params))%nat.
Proof.
  unfold payload_text. rewrite !length_app.
  pose proof (join_comma_length (map written (listed params))) as J.
  rewrite length_map in J.
  repeat match goal with
         | |- context [List.length (lit ?x)] =>
             let n := eval vm_compute in (List.length (lit x)) in
             change (List.length (lit x)) with n
         end.
  lia.
Qed.

Lemma JSON_parse_payload_text method params :
  JSON_parse (payload_text method params)
  = Some (VObject [(lit "method", VString method);
                   (lit "params", VArray (map received (listed params)))]).
Proof.
  unfold JSON_parse.
  rewrite parse_payload_text; [reflexivity|].
  pose proof (payload_text_length method params). lia.
Qed.





(* ===================================================================== *)
(** * The forms, the list of events and the information document        *)
(* ===================================================================== *)

(** ** Trimmed text *)

Section FormFacts.
Import Text Form.

Lemma trim_start_split s :
  exists blank,
    s = blank ++ trim_start s /\
    Forall (fun c => is_StrWhiteSpaceChar c = true) blank.
Proof.
  induction s as [|c s IH]; [exists []; split; [reflexivity|constructor]|].
  cbn [trim_start]. destruct (is_StrWhiteSpaceChar c) eqn:E.
  - destruct IH as (blank & Hs & Hb). exists (c :: blank). split.
    + cbn [app]. rewrite <- Hs. reflexivity.
    + constructor; assumption.
  - exists []. split; [reflexivity|constructor].
Qed.

Lemma trim_start_head s c r :
  trim_start s = c :: r -> is_StrWhiteSpaceChar c = false.
Proof.
  induction s as [|x s IH]; [discriminate|].
  cbn [trim_start]. destruct (is_StrWhiteSpaceChar x) eqn:E; [exact IH|].
  intros H. injection H as <- _. exact E.
Qed.

Lemma trim_start_fixed s :
  (forall c r, s = c :: r -> is_StrWhiteSpaceChar c = false) ->
  trim_start s = s.
Proof.
  destruct s as [|c r]; [reflexivity|]. intros H. cbn [trim_start].
  rewrite (H c r eq_refl). reflexivity.
Qed.

(** [trim_end] drops a blank tail and nothing else. *)
Lemma trim_end_split s :
  exists blank,
    s = trim_end s ++ blank /\
    Forall (fun c => is_StrWhiteSpaceChar c = true) blank.
Proof.
  unfold trim_end. destruct (trim_start_split (rev s)) as (blank & Hs & Hb).
  exists (rev blank). split.
  - rewrite <- rev_app_distr, <- Hs, rev_involutive. reflexivity.
  - apply Forall_rev, Hb.
Qed.

Lemma trim_end_last s r c :
  trim_end s = r ++ [c] -> is_StrWhiteSpaceChar c = false.
Proof.
  unfold trim_end. intros H.
  apply (f_equal (@rev N)) in H. rewrite rev_involutive, rev_app_distr in H.
  cbn [rev app] in H. exact (trim_start_head _ _ _ H).
Qed.

Lemma trim_end_head s c r :
  (forall x t, s = x :: t -> is_StrWhiteSpaceChar x = false) ->
  trim_end s = c :: r -> is_StrWhiteSpaceChar c = false.
Proof.
  intros Hs H. destruct (trim_end_split s) as (blank & E & _).
  rewrite H in E. cbn [app] in E. exact (Hs _ _ E).
Qed.

Lemma trim_head s c r : trim s = c :: r -> is_StrWhiteSpaceChar c = false.
Proof.
  unfold trim. apply trim_end_head. intros x t. apply trim_start_head.
Qed.

Lemma trim_last s r c : trim s = r ++ [c] -> is_StrWhiteSpaceChar c = false.
Proof. unfold trim. apply trim_end_last. Qed.

Lemma trim_end_fixed s :
  (forall r c, s = r ++ [c] -> is_StrWhiteSpaceChar c = false) ->
  trim_end s = s.
Proof.
  intros H. unfold trim_end. rewrite trim_start_fixed.
  - apply rev_involutive.
  - intros c r E. apply (H (rev r) c).
    rewrite <- (rev_involutive s), E. reflexivity.
Qed.

Lemma trim_idempotent s : trim (trim s) = trim s.
Proof.
  unfold trim at 1. rewrite trim_start_fixed.
  - apply trim_end_fixed. intros r c. apply trim_last.
  - intros c r. apply trim_head.
Qed.

(** The text between the blanks: [trim] only removes white space, at the
    two ends. *)
Lemma trim_split s :
  exists before after,
    s = before ++ trim s ++ after /\
    Forall (fun c => is_StrWhiteSpaceChar c = true) before /\
    Forall (fun c => is_StrWhiteSpaceChar c = true) after.
Proof.
  destruct (trim_start_split s) as (before & Hs & Hb).
  destruct (trim_end_split (trim_start s)) as (after & He & Ha).
  exists before, after. split; [|split; assumption].
  unfold trim. rewrite <- He. exact Hs.
Qed.

Lemma trim_stripped s : stripped s (trim s).
Proof.
  split; [|split].
  - destruct (trim_split s) as (before & after & H). exists before, after. exact H.
  - apply trim_head.
  - apply trim_last.
Qed.

Lemma or_undefined_spec s :
  or_undefined s = match s with [] => None | _ :: _ => Some s end.
Proof. destruct s; reflexivity. Qed.

Lemma received_optional_trim r :
  received (optional (or_undefined (trim r)))
  = match trim r with [] => VNull | _ :: _ => VString (trim r) end.
Proof. rewrite or_undefined_spec. destruct (trim r); reflexivity. Qed.

Lemma ToBoolean_string_false s : ToBoolean (VString s) = false <-> s = [].
Proof. destruct s; cbn; split; congruence. Qed.

(** What a call of the caller without [catch] sends, when it sends. *)
Lemma call_request w relayUrl method ps request :
  In (Fetch request)
     (trace (EventModeration.callRelayAPI w relayUrl method (Some ps))) ->
  url request = httpUrl relayUrl /\
  exists text,
    body request = Some text /\
    JSON_parse text
    = Some (VObject [(lit "method", VString method);
                     (lit "params", VArray (map received ps))]).
Proof.
  unfold trace. rewrite callRelayAPI_run. cbv zeta.
  destruct (window_nostr w) as [nostr|]; cbn [fst snd]; [|intros []].
  destruct (header_of _) as [x|h]; cbn [fst snd].
  - intros [H|[]]; discriminate H.
  - intros [H|[H|[]]]; [discriminate H|].
    injection H as <-. split; [reflexivity|].
    exists (payload_text method (Some ps)). split.
    + cbn [request_for body]. apply payload_is_text.
    + apply JSON_parse_payload_text.
Qed.

(** ** EventModeration: the form and the two buttons *)

Import EventModerationPanel.

(** X1: the ban form of EventModeration refuses an event id that is empty
    or only white space, and asks the relay nothing then.  Otherwise the
    body of the request parses to the method "banevent" with the id
    without the white space at its ends, and the reason trimmed in the
    same way, or null when nothing is left of it. *)
Theorem ban_form_request w relayUrl newEventId newReason :
  match submit w relayUrl (handleBanEvent newEventId newReason) with
  | None => trim newEventId = []
  | Some call =>
      trim newEventId <> [] /\
      stripped newEventId (trim newEventId) /\
      forall request,
        In (Fetch request) (trace call) ->
        exists text,
          body request = Some text /\
          JSON_parse text
          = Some (VObject
                    [(lit "method", VString (lit "banevent"));
                     (lit "params",
                      VArray [VString (trim newEventId);
                              match trim newReason with
                              | [] => VNull
                              | _ :: _ => VString (trim newReason)
                              end])])
  end.
Proof.
  unfold handleBanEvent.
  destruct (ToBoolean (VString (trim newEventId))) eqn:E; cbn [negb submit].
  - split; [intros H; rewrite H in E; discriminate E|].
    split; [apply trim_stripped|].
    intros request Hin. cbn [mutationFn eventId reason] in Hin.
    destruct (call_request _ _ _ _ _ Hin) as (_ & text & Hb & Hp).
    exists text. split; [exact Hb|].
    rewrite Hp. cbn [map received]. rewrite received_optional_trim.
    reflexivity.
  - apply ToBoolean_string_false, E.
Qed.

(** X2: the two buttons of a pending event always ask the relay:
    "allowevent" with the id and null, and "banevent" with the id and the
    reason, or null when there is none. *)
Theorem approve_reject_request w relayUrl eventId reason :
  (exists call,
      submit w relayUrl (handleApproveEvent eventId) = Some call /\
      forall request,
        In (Fetch request) (trace call) ->
        exists text,
          body request = Some text /\
          JSON_parse text
          = Some (VObject [(lit "method", VString (lit "allowevent"));
                           (lit "params", VArray [VString eventId; VNull])]))
  /\
  (exists call,
      submit w relayUrl (handleRejectEvent eventId reason) = Some call /\
      forall request,
        In (Fetch request) (trace call) ->
        exists text,
          body request = Some text /\
          JSON_parse text
          = Some (VObject [(lit "method", VString (lit "banevent"));
                           (lit "params",
                            VArray [VString eventId;
                                    match reason with
                                    | Some r => VString r
                                    | None => VNull
                                    end])])).
Proof.
  split; (eexists; split; [reflexivity|]); intros request Hin;
    cbn [mutationFn EventModerationPanel.eventId EventModerationPanel.reason]
      in Hin;
    destruct (call_request _ _ _ _ _ Hin) as (_ & text & Hb & Hp);
    exists text; (split; [exact Hb|]); rewrite Hp; [reflexivity|].
  destruct reason; reflexivity.
Qed.

(** ** UserManagement: the form *)

(** X3: the form of UserManagement refuses a public key that is empty or
    only white space.  Otherwise it asks "banpubkey" or "allowpubkey", as
    the action type says, with the trimmed key and the trimmed reason,
    or null for a reason of which nothing is left. *)
Theorem add_user_form_request w relayUrl newPubkey newReason actionType :
  match UserManagementPanel.submit w relayUrl
          (UserManagementPanel.handleAddUser newPubkey newReason actionType)
  with
  | None => trim newPubkey = []
  | Some call =>
      trim newPubkey <> [] /\
      stripped newPubkey (trim newPubkey) /\
      forall request,
        In (Fetch request) (trace call) ->
        exists text,
          body request = Some text /\
          JSON_parse text
          = Some (VObject
                    [(lit "method",
                      VString (match actionType with
                               | UserManagementPanel.ban => lit "banpubkey"
                               | UserManagementPanel.allow => lit "allowpubkey"
                               end));
                     (lit "params",
                      VArray [VString (trim newPubkey);
                              match trim newReason with
                              | [] => VNull
                              | _ :: _ => VString (trim newReason)
                              end])])
  end.
Proof.
  unfold UserManagementPanel.handleAddUser.
  destruct (ToBoolean (VString (trim newPubkey))) eqn:E; cbn [negb].
  - destruct actionType; cbn [UserManagementPanel.submit];
      (split; [intros H; rewrite H in E; discriminate E|]);
      (split; [apply trim_stripped|]);
      intros request Hin;
      cbn [UserManagementPanel.mutationFn UserManagementPanel.pubkey
           UserManagementPanel.reason] in Hin;
      destruct (call_request _ _ _ _ _ Hin) as (_ & text & Hb & Hp);
      exists text; (split; [exact Hb|]);
      rewrite Hp; cbn [map received]; rewrite received_optional_trim;
      reflexivity.
  - cbn [UserManagementPanel.submit]. apply ToBoolean_string_false, E.
Qed.

(** ** RelaySettings: the forms *)

Lemma parseInt_finite_or_NaN s :
  parseInt s = NaN \/ exists z, parseInt s = Finite z.
Proof.
  unfold parseInt. cbv zeta.
  destruct (match trim_start s with
            | [] => (false, trim_start s)
            | c :: r =>
                if (c =? 45)%N then (true, r)
                else if (c =? 43)%N then (false, r)
                else (false, trim_start s)
            end) as [negative s2].
  destruct (match s2 with
            | z :: x :: r =>
                if ((z =? 48) && ((x =? 120) || (x =? 88)))%N
                then (16%N, r) else (10%N, s2)
            | _ => (10%N, s2)
            end) as [radix s3].
  destruct (radix_prefix radix None s3);
    [right; eexists; reflexivity|left; reflexivity].
Qed.

(** X4: the kind form of RelaySettings asks the relay exactly when
    [parseInt] reads a number that is not negative from the field; a
    field without a number, and a negative number, are refused.  When
    the number read is a safe integer it is the one parameter of
    "allowkind" or "disallowkind", as the action says. *)
Theorem manage_kind_form_request w relayUrl newKind kindAction :
  match RelaySettingsPanel.submit w relayUrl
          (RelaySettingsPanel.handleManageKind newKind kindAction)
  with
  | None =>
      parseInt newKind = NaN \/
      exists z, parseInt newKind = Finite z /\ (z < 0)%Z
  | Some call =>
      exists z,
        parseInt newKind = Finite z /\ (0 <= z)%Z /\
        ((z <= MAX_SAFE_INTEGER)%Z ->
         forall request,
          In (Fetch request) (trace call) ->
          exists text,
            body request = Some text /\
            JSON_parse text
            = Some (VObject
                      [(lit "method",
                        VString (match kindAction with
                                 | RelaySettingsPanel.allow => lit "allowkind"
                                 | RelaySettingsPanel.disallow =>
                                     lit "disallowkind"
                                 end));
                       (lit "params", VArray [VNumber (Finite z)])]))
  end.
Proof.
  unfold RelaySettingsPanel.handleManageKind. cbv zeta.
  destruct (parseInt_finite_or_NaN newKind) as [E|[z E]]; rewrite E.
  - cbn. left. reflexivity.
  - cbn [isNaN RelaySettingsPanel.below_zero orb].
    destruct (Z.ltb_spec z 0) as [Hz|Hz]; cbn [RelaySettingsPanel.submit].
    + right. exists z. split; [reflexivity|exact Hz].
    + exists z. split; [reflexivity|]. split; [exact Hz|].
      intros _ request Hin. cbn [RelaySettingsPanel.mutationFn] in Hin.
      cbv zeta in Hin.
      destruct (call_request _ _ _ _ _ Hin) as (_ & text & Hb & Hp).
      exists text. split; [exact Hb|]. rewrite Hp.
      destruct kindAction; reflexivity.
Qed.

(** One trimmed text as the only parameter. *)
Lemma one_text_request w relayUrl method input request :
  In (Fetch request)
     (trace (EventModeration.callRelayAPI w relayUrl method
               (Some [PString (trim input)]))) ->
  exists text,
    body request = Some text /\
    JSON_parse text
    = Some (VObject [(lit "method", VString method);
                     (lit "params", VArray [VString (trim input)])]).
Proof.
  intros Hin. destruct (call_request _ _ _ _ _ Hin) as (_ & text & Hb & Hp).
  exists text. split; [exact Hb|exact Hp].
Qed.

(** X5: the name, description and icon forms of RelaySettings each refuse
    a field that is empty or only white space, and otherwise send the
    trimmed field as the one parameter of "changerelayname",
    "changerelaydescription" and "changerelayicon". *)
Theorem metadata_forms_request w relayUrl relayName relayDescription relayIcon :
  match RelaySettingsPanel.submit w relayUrl
          (RelaySettingsPanel.handleUpdateName relayName)
  with
  | None => trim relayName = []
  | Some call =>
      trim relayName <> [] /\
      stripped relayName (trim relayName) /\
      forall request,
        In (Fetch request) (trace call) ->
        exists text,
          body request = Some text /\
          JSON_parse text
          = Some (VObject [(lit "method", VString (lit "changerelayname"));
                           (lit "params", VArray [VString (trim relayName)])])
  end /\
  match RelaySettingsPanel.submit w relayUrl
          (RelaySettingsPanel.handleUpdateDescription relayDescription)
  with
  | None => trim relayDescription = []
  | Some call =>
      trim relayDescription <> [] /\
      stripped relayDescription (trim relayDescription) /\
      forall request,
        In (Fetch request) (trace call) ->
        exists text,
          body request = Some text /\
          JSON_parse text
          = Some (VObject
                    [(lit "method", VString (lit "changerelaydescription"));
                     (lit "params", VArray [VString (trim relayDescription)])])
  end /\
  match RelaySettingsPanel.submit w relayUrl
          (RelaySettingsPanel.handleUpdateIcon relayIcon)
  with
  | None => trim relayIcon = []
  | Some call =>
      trim relayIcon <> [] /\
      stripped relayIcon (trim relayIcon) /\
      forall request,
        In (Fetch request) (trace call) ->
        exists text,
          body request = Some text /\
          JSON_parse text
          = Some (VObject [(lit "method", VString (lit "changerelayicon"));
                           (lit "params", VArray [VString (trim relayIcon)])])
  end.
Proof.
  unfold RelaySettingsPanel.handleUpdateName,
    RelaySettingsPanel.handleUpdateDescription,
    RelaySettingsPanel.handleUpdateIcon.
  repeat apply conj;
    match goal with
    | |- context [ToBoolean (VString (trim ?x))] =>
        destruct (ToBoolean (VString (trim x))) eqn:E;
        cbn [negb RelaySettingsPanel.submit];
        [ split; [intros H; rewrite H in E; discriminate E|];
          split; [apply trim_stripped|];
          intros request Hin; cbn [RelaySettingsPanel.mutationFn] in Hin;
          exact (one_text_request _ _ _ _ _ Hin)
        | apply ToBoolean_string_false, E ]
    end.
Qed.

(** X6: the form that blocks an address refuses an empty or blank
    address, and otherwise sends "blockip" with the trimmed address and
    the trimmed reason, or null for a reason of which nothing is left. *)
Theorem block_ip_form_request w relayUrl newIp newIpReason :
  match RelaySettingsPanel.submit w relayUrl
          (RelaySettingsPanel.handleBlockIp newIp newIpReason)
  with
  | None => trim newIp = []
  | Some call =>
      trim newIp <> [] /\
      stripped newIp (trim newIp) /\
      forall request,
        In (Fetch request) (trace call) ->
        exists text,
          body request = Some text /\
          JSON_parse text
          = Some (VObject
                    [(lit "method", VString (lit "blockip"));
                     (lit "params",
                      VArray [VString (trim newIp);
                              match trim newIpReason with
                              | [] => VNull
                              | _ :: _ => VString (trim newIpReason)
                              end])])
  end.
Proof.
  unfold RelaySettingsPanel.handleBlockIp.
  destruct (ToBoolean (VString (trim newIp))) eqn:E;
    cbn [negb RelaySettingsPanel.submit].
  - split; [intros H; rewrite H in E; discriminate E|].
    split; [apply trim_stripped|].
    intros request Hin. cbn [RelaySettingsPanel.mutationFn] in Hin.
    destruct (call_request _ _ _ _ _ Hin) as (_ & text & Hb & Hp).
    exists text. split; [exact Hb|].
    rewrite Hp. cbn [map received]. rewrite received_optional_trim.
    reflexivity.
  - apply ToBoolean_string_false, E.
Qed.

End FormFacts.

(** ** Equality of code units *)

Lemma units_eqb_eq a b : units_eqb a b = true <-> a = b.
Proof.
  revert b. induction a as [|x a IH]; intros [|y b]; cbn [units_eqb];
    try (split; [discriminate|discriminate]); [split; reflexivity|].
  rewrite andb_true_iff, N.eqb_eq, IH. split.
  - intros [-> ->]. reflexivity.
  - intros H. injection H as -> ->. split; reflexivity.
Qed.

Lemma units_eqb_refl a : units_eqb a a = true.
Proof. apply units_eqb_eq. reflexivity. Qed.

Lemma units_eqb_neq a b : units_eqb a b = false <-> a <> b.
Proof.
  rewrite <- units_eqb_eq. destruct (units_eqb a b); split; congruence.
Qed.

(** ** The moderation marks of EventsList *)

Section ListFacts.
Import Text Form EventsListPanel.

Lemma has_id_entry i x :
  has_id i (entry_value x) = inr (units_eqb (entry_id x) i).
Proof. reflexivity. Qed.

Lemma find_id_entries i l :
  (~ In i (map entry_id l) /\ find_id i (map entry_value l) = inr None) \/
  (exists y, first_with i l y /\
             find_id i (map entry_value l) = inr (Some (entry_value y))).
Proof.
  induction l as [|x l IH]; [left; split; [intros []|reflexivity]|].
  cbn [map find_id]. rewrite has_id_entry.
  destruct (units_eqb (entry_id x) i) eqn:E.
  - right. exists x. apply units_eqb_eq in E. split; [|reflexivity].
    exists [], l. split; [reflexivity|]. split; [exact E|intros []].
  - apply units_eqb_neq in E.
    destruct IH as [[Hn Hf]|(y & (l1 & l2 & -> & Hy & Hn) & Hf)].
    + left. split; [|exact Hf]. intros [H|H]; [exact (E H)|exact (Hn H)].
    + right. exists y. split; [|exact Hf].
      exists (x :: l1), l2. split; [reflexivity|]. split; [exact Hy|].
      intros [H|H]; [exact (E H)|exact (Hn H)].
Qed.

Lemma Get_reason y : Get (entry_value y) (lit "reason") = inr (reason_value y).
Proof. unfold entry_value, reason_value. destruct (entry_reason y); reflexivity. Qed.

Lemma first_with_unique i l y z : first_with i l y -> first_with i l z -> y = z.
Proof.
  intros (a1 & a2 & Ha & Hy & Hna) (b1 & b2 & Hb & Hz & Hnb).
  subst l. revert b1 Hb Hnb.
  induction a1 as [|x a1 IH]; intros [|x' b1] Hb Hnb; cbn [app] in Hb.
  - injection Hb as ->. reflexivity.
  - injection Hb as -> _. exfalso. apply Hnb. left. exact Hy.
  - injection Hb as <- _. exfalso. apply Hna. left. exact Hz.
  - injection Hb as -> Hb. apply (IH (fun H => Hna (or_intror H)) b1 Hb).
    intros H. apply Hnb. right. exact H.
Qed.

Lemma first_with_In i l y : first_with i l y -> In i (map entry_id l).
Proof.
  intros (l1 & l2 & -> & Hy & _). rewrite map_app. apply in_or_app.
  right. left. exact Hy.
Qed.

Lemma first_with_left i l r y : first_with i l y -> first_with i (l ++ r) y.
Proof.
  intros (l1 & l2 & -> & Hy & Hn). exists l1, (l2 ++ r).
  rewrite <- app_assoc. split; [reflexivity|]. split; assumption.
Qed.

Lemma first_with_right i l r y :
  ~ In i (map entry_id l) -> first_with i r y -> first_with i (l ++ r) y.
Proof.
  intros Hl (l1 & l2 & -> & Hy & Hn). exists (l ++ l1), l2.
  rewrite <- app_assoc. split; [reflexivity|]. split; [exact Hy|].
  rewrite map_app. intros H. apply in_app_or in H. tauto.
Qed.

(** The value of [entry.reason] as the card gets it. *)
Lemma found_reason y :
  match entry_value y with
  | VUndefined | VNull => inr VUndefined
  | _ => Get (entry_value y) (lit "reason")
  end = inr (reason_value y).
Proof. exact (Get_reason y). Qed.

Lemma enhance_entries bs ns e :
  exists x,
    enhance (VArray (map entry_value bs)) (VArray (map entry_value ns)) e
    = inr x /\
    event x = e /\
    (moderationStatus x = Some banned <-> In (EventsList.id e) (map entry_id bs)) /\
    (moderationStatus x = Some pending <->
       ~ In (EventsList.id e) (map entry_id bs) /\
       In (EventsList.id e) (map entry_id ns)) /\
    (moderationStatus x = None <->
       ~ In (EventsList.id e) (map entry_id bs) /\
       ~ In (EventsList.id e) (map entry_id ns)) /\
    (forall y, first_with (EventsList.id e) (bs ++ ns) y ->
               moderationReason x = reason_value y) /\
    (~ In (EventsList.id e) (map entry_id (bs ++ ns)) ->
     moderationReason x = VUndefined).
Proof.
  unfold enhance, some_id, reason_of.
  destruct (find_id_entries (EventsList.id e) bs) as [[Hb Fb]|(y & Hy & Fb)];
    rewrite Fb.
  - destruct (find_id_entries (EventsList.id e) ns) as [[Hn Fn]|(z & Hz & Fn)];
      rewrite Fn; cbn [truthy]; cbv zeta.
    + eexists. split; [reflexivity|].
      cbn [event moderationStatus moderationReason].
      assert (Hboth : ~ In (EventsList.id e) (map entry_id (bs ++ ns))).
      { rewrite map_app. intros H. apply in_app_or in H. tauto. }
      split; [reflexivity|].
      split; [split; [discriminate|tauto]|].
      split; [split; [discriminate|tauto]|].
      split; [tauto|].
      split; [|reflexivity].
      intros y Fy. elim Hboth. exact (first_with_In _ _ _ Fy).
    + rewrite found_reason. eexists. split; [reflexivity|].
      cbn [event moderationStatus moderationReason].
      pose proof (first_with_In _ _ _ Hz) as Hin.
      split; [reflexivity|].
      split; [split; [discriminate|tauto]|].
      split; [tauto|].
      split; [split; [discriminate|tauto]|].
      split.
      * intros y Fy.
        rewrite (first_with_unique _ _ _ _ Fy (first_with_right _ _ _ _ Hb Hz)).
        reflexivity.
      * rewrite map_app. intros H. elim H. apply in_or_app. right. exact Hin.
  - pose proof (first_with_In _ _ _ Hy) as Hin.
    destruct (find_id_entries (EventsList.id e) ns) as [[Hn Fn]|(z & Hz & Fn)];
      rewrite Fn; cbn [truthy]; cbv zeta; rewrite found_reason;
      (eexists; split; [reflexivity|]);
      cbn [event moderationStatus moderationReason];
      (split; [reflexivity|]);
      (split; [tauto|]);
      (split; [split; [discriminate|tauto]|]);
      (split; [split; [discriminate|tauto]|]);
      (split;
       [ intros y' Fy;
         rewrite (first_with_unique _ _ _ _ Fy (first_with_left _ _ ns _ Hy));
         reflexivity
       | rewrite map_app; intros H; elim H; apply in_or_app; left; exact Hin ]).
Qed.

(** ** The list and the card *)

(** X8: with the two lists as the relay sends them, the list shows the
    same events in the same order; an event is marked banned exactly when
    its id is in the banned list, pending exactly when it is in the
    pending list and not in the banned one, and unmarked otherwise, never
    approved; its reason is that of the first entry with its id, the
    banned list being read before the pending one. *)
Theorem enhanced_marks events bs ns :
  exists l,
    enhancedEvents (Some events)
      (VArray (map entry_value bs)) (VArray (map entry_value ns)) = inr l /\
    map event l = events /\
    Forall (fun x =>
      let i := EventsList.id (event x) in
      (moderationStatus x = Some banned <-> In i (map entry_id bs)) /\
      (moderationStatus x = Some pending <->
         ~ In i (map entry_id bs) /\ In i (map entry_id ns)) /\
      (moderationStatus x = None <->
         ~ In i (map entry_id bs) /\ ~ In i (map entry_id ns)) /\
      (forall y, first_with i (bs ++ ns) y ->
                 moderationReason x = reason_value y) /\
      (~ In i (map entry_id (bs ++ ns)) -> moderationReason x = VUndefined)) l.
Proof.
  cbn [enhancedEvents].
  induction events as [|e events (l & El & Hm & Hf)];
    [exists []; repeat split; constructor|].
  destruct (enhance_entries bs ns e) as (x & Ex & Hx & Hs).
  exists (x :: l). cbn [map_throwing]. rewrite Ex, El.
  split; [reflexivity|]. split; [cbn [map]; rewrite Hx, Hm; reflexivity|].
  constructor; [|exact Hf]. cbv zeta. rewrite Hx. exact Hs.
Qed.

(** X9: when the data of the banned-events query is neither undefined,
    null nor an array, building the list throws a TypeError as soon as
    there is one event to show, and gives the empty list otherwise. *)
Theorem enhanced_needs_lists events bannedEvents eventsNeedingModeration :
  bannedEvents <> VUndefined -> bannedEvents <> VNull ->
  (forall items, bannedEvents <> VArray items) ->
  enhancedEvents events bannedEvents eventsNeedingModeration
  = match events with
    | Some (_ :: _) => inl TypeError
    | _ => inr []
    end.
Proof.
  intros H1 H2 H3. destruct events as [[|e events]|]; try reflexivity.
  cbn [enhancedEvents map_throwing]. unfold enhance, some_id.
  destruct bannedEvents as [| | | | |items|]; try reflexivity;
    [elim H1|elim H2|elim (H3 items)]; reflexivity.
Qed.

Lemma enhance_empty e :
  enhance (VArray []) (VArray []) e
  = inr {| event := e; moderationStatus := None;
           moderationReason := VUndefined |}.
Proof. reflexivity. Qed.

(** X10: where the two list queries of EventModeration fail, those of
    EventsList give data, and with that data every event is shown without
    a moderation mark. *)
Theorem enhanced_when_lists_fail w relayUrl events e1 e2 :
  outcome (EventModerationPanel.bannedEvents_queryFn w relayUrl) = inl e1 ->
  outcome (EventModerationPanel.eventsNeedingModeration_queryFn w relayUrl)
  = inl e2 ->
  exists b n,
    outcome (bannedEvents_queryFn w relayUrl) = inr b /\
    outcome (eventsNeedingModeration_queryFn w relayUrl) = inr n /\
    enhancedEvents (Some events) b n
    = inr (map (fun e => {| event := e; moderationStatus := None;
                            moderationReason := VUndefined |}) events).
Proof.
  unfold EventModerationPanel.bannedEvents_queryFn,
    EventModerationPanel.eventsNeedingModeration_queryFn,
    bannedEvents_queryFn, eventsNeedingModeration_queryFn, outcome.
  intros H1 H2. exists (VArray []), (VArray []).
  rewrite !EventsList_callRelayAPI_run. cbv zeta. cbn [fst].
  rewrite H1, H2. split; [reflexivity|]. split; [reflexivity|].
  cbn [enhancedEvents]. induction events as [|e events IH]; [reflexivity|].
  cbn [map_throwing map]. rewrite enhance_empty, IH. reflexivity.
Qed.

(** X7: moderating from a card runs the same call as the caller without
    a [catch], with the same outcome and the same calls, so a failure
    reaches the mutation; the body carries the method of the action, the
    id of the event and the trimmed reason, or null when nothing is left
    of it. *)
Theorem card_moderation w relayUrl event moderationAction moderationReason :
  let method :=
    match moderationAction with
    | EventCard.allow => lit "allowevent"
    | EventCard.ban => lit "banevent"
    end in
  run (moderate w relayUrl event moderationAction moderationReason)
  = run (EventModeration.callRelayAPI w relayUrl method
           (Some [PString (EventsList.id event);
                  optional (or_undefined (trim moderationReason))])) /\
  forall request,
    In (Fetch request)
       (trace (moderate w relayUrl event moderationAction moderationReason)) ->
    exists text,
      body request = Some text /\
      JSON_parse text
      = Some (VObject
                [(lit "method", VString method);
                 (lit "params",
                  VArray [VString (EventsList.id event);
                          match trim moderationReason with
                          | [] => VNull
                          | _ :: _ => VString (trim moderationReason)
                          end])]).
Proof.
  cbv zeta.
  assert (E :
    run (moderate w relayUrl event moderationAction moderationReason)
    = run (EventModeration.callRelayAPI w relayUrl
             match moderationAction with
             | EventCard.allow => lit "allowevent"
             | EventCard.ban => lit "banevent"
             end
             (Some [PString (EventsList.id event);
                    optional (or_undefined (trim moderationReason))]))).
  { unfold moderate, EventCard.handleModerate, handleModerateEvent, mutationFn.
    cbv zeta. cbn [action eventId reason].
    rewrite EventsList_callRelayAPI_run. cbv zeta.
    destruct (run (EventModeration.callRelayAPI _ _ _ _)) as [[e|v] t];
      cbn [fst snd]; [|reflexivity].
    destruct moderationAction; reflexivity. }
  split; [exact E|].
  intros request Hin. unfold trace in Hin. rewrite E in Hin.
  destruct (call_request _ _ _ _ _ Hin) as (_ & text & Hb & Hp).
  exists text. split; [exact Hb|].
  rewrite Hp. cbn [map received]. rewrite received_optional_trim. reflexivity.
Qed.

End ListFacts.

Section CardFacts.
Import Text Form.

(** ** The filter of the relay-events query *)

(** X11: the filter of the events query keeps the limit.  "all" gives no
    kinds.  "custom" gives the one kind [parseInt] reads from the custom
    field, and no kinds when the field is empty or holds no number.  Any
    other filter gives the numbers [parseInt] reads from the pieces
    between the commas, in their order, those pieces left out that hold
    no number, and no kinds when none is left.  So a list of kinds is
    never empty and never holds NaN. *)
Theorem filter_kinds kindFilter limit customKind :
  let filter := EventsList.build_filter kindFilter limit customKind in
  let read :=
    List.filter (fun k => negb (isNaN k))
      (map parseInt (split 44%N kindFilter)) in
  EventsList.limit filter = limit /\
  (kindFilter = lit "all" -> EventsList.kinds filter = None) /\
  (kindFilter = lit "custom" ->
   EventsList.kinds filter
   = match customKind with
     | [] => None
     | _ :: _ =>
         if isNaN (parseInt customKind) then None
         else Some [parseInt customKind]
     end) /\
  (kindFilter <> lit "all" -> kindFilter <> lit "custom" ->
   EventsList.kinds filter
   = match read with
     | [] => None
     | _ :: _ => Some read
     end) /\
  (forall ks,
      EventsList.kinds filter = Some ks ->
      ks <> [] /\ Forall (fun k => isNaN k = false) ks).
Proof.
  cbv zeta. unfold EventsList.build_filter. cbv zeta.
  rewrite (map_ext (fun k => parseInt k) parseInt (fun _ => eq_refl)).
  destruct (units_eqb kindFilter (lit "all")) eqn:Eall; cbn [negb].
  { apply units_eqb_eq in Eall. subst kindFilter.
    split; [reflexivity|]. split; [reflexivity|].
    split; [intros H; discriminate H|].
    split; [intros H; elim H; reflexivity|].
    intros ks H. discriminate H. }
  apply units_eqb_neq in Eall.
  destruct (units_eqb kindFilter (lit "custom")) eqn:Ecustom; cbn [negb andb].
  - apply units_eqb_eq in Ecustom.
    split; [destruct (ToBoolean (VString customKind));
            [destruct (negb (isNaN (parseInt customKind)))|]; reflexivity|].
    split; [intros H; elim (Eall H)|].
    split; [|split; [intros _ H; elim (H Ecustom)|]].
    + intros _. destruct customKind as [|u customKind]; [reflexivity|].
      cbn [ToBoolean]. destruct (isNaN (parseInt (u :: customKind)));
        reflexivity.
    + intros ks. destruct (ToBoolean (VString customKind));
        [|intros H; discriminate H].
      destruct (isNaN (parseInt customKind)) eqn:E; cbn [negb];
        intros H; [discriminate H|].
      injection H as <-. split; [discriminate|].
      repeat constructor. exact E.
  - apply units_eqb_neq in Ecustom.
    set (read := List.filter (fun k => negb (isNaN k))
                   (map parseInt (split 44%N kindFilter))).
    assert (Hread : Forall (fun k => isNaN k = false) read).
    { apply Forall_forall. intros k Hk. apply filter_In in Hk.
      destruct Hk as [_ Hn]. apply negb_true_iff, Hn. }
    destruct read as [|k read']; cbn [List.length Nat.ltb Nat.leb].
    + split; [reflexivity|]. split; [intros H; elim (Eall H)|].
      split; [intros H; elim (Ecustom H)|].
      split; [reflexivity|]. intros ks H. discriminate H.
    + split; [reflexivity|]. split; [intros H; elim (Eall H)|].
      split; [intros H; elim (Ecustom H)|].
      split; [reflexivity|]. intros ks H. injection H as <-.
      split; [discriminate|exact Hread].
Qed.

(** ** The names of the kinds *)

Lemma Z_toString_inj a b : Z_toString a = Z_toString b -> a = b.
Proof.
  intros H.
  pose proof (parse_value_number 0 a [44%N] (closes_comma [])) as Pa.
  pose proof (parse_value_number 0 b [44%N] (closes_comma [])) as Pb.
  rewrite H, Pb in Pa. injection Pa as ->. reflexivity.
Qed.

Lemma Kind_head s t : lit "Kind " ++ s = t -> hd_error t = Some 75%N.
Proof. intros <-. reflexivity. Qed.

Lemma toString_literal n a :
  units_eqb (Z_toString n) (Z_toString a) = true -> a = n.
Proof. intros H. apply units_eqb_eq in H. symmetry. apply Z_toString_inj, H. Qed.

Lemma kind_name_cases a :
  EventCard.getKindName (Finite a) = lit "Kind " ++ Z_toString a \/
  In (a, EventCard.getKindName (Finite a))
     [(0, lit "Profile"); (1, lit "Text Note"); (3, lit "Contacts");
      (4, lit "DM"); (5, lit "Delete"); (6, lit "Repost"); (7, lit "Reaction");
      (1984, lit "Report"); (30023, lit "Article")]%Z.
Proof.
  unfold EventCard.getKindName, EventCard.kindNames.
  cbn [Number_toString EventCard.own_property].
  repeat
    match goal with
    | |- context [units_eqb ?k (Z_toString a)] =>
        let E := fresh "E" in
        destruct (units_eqb k (Z_toString a)) eqn:E;
        [ first
            [ apply (toString_literal 0) in E
            | apply (toString_literal 1) in E
            | apply (toString_literal 3) in E
            | apply (toString_literal 4) in E
            | apply (toString_literal 5) in E
            | apply (toString_literal 6) in E
            | apply (toString_literal 7) in E
            | apply (toString_literal 1984) in E
            | apply (toString_literal 30023) in E ];
          subst a; right; cbn [In];
          repeat (try (left; reflexivity); right)
        | ]
    end.
  left. reflexivity.
Qed.

(** X12: two different integer kinds never get the same name on a
    card. *)
Theorem kind_names_distinct a b :
  a <> b ->
  EventCard.getKindName (Finite a) <> EventCard.getKindName (Finite b).
Proof.
  intros Hab H. apply Hab.
  destruct (kind_name_cases a) as [Ea|Ta];
    destruct (kind_name_cases b) as [Eb|Tb].
  - rewrite Ea, Eb in H. apply app_inv_head in H. apply Z_toString_inj, H.
  - rewrite Ea in H. apply Kind_head in H. exfalso.
    cbn [In] in Tb.
    repeat (destruct Tb as [Tb|Tb];
            [injection Tb as _ Tb; rewrite <- Tb in H; vm_compute in H;
             discriminate H|]).
    exact Tb.
  - rewrite Eb in H. symmetry in H. apply Kind_head in H. exfalso.
    cbn [In] in Ta.
    repeat (destruct Ta as [Ta|Ta];
            [injection Ta as _ Ta; rewrite <- Ta in H; vm_compute in H;
             discriminate H|]).
    exact Ta.
  - cbn [In] in Ta, Tb.
    repeat (destruct Ta as [Ta|Ta];
            [injection Ta as Ha Ta; rewrite <- Ta in H|]); [..|elim Ta];
      repeat (destruct Tb as [Tb|Tb];
              [injection Tb as Hb Tb; rewrite <- Tb in H|]);
      try (elim Tb); subst a b; try reflexivity;
      vm_compute in H; discriminate H.
Qed.

(** ** The text of a card *)

(** X13: for a maximal length that is not negative (200 when none is
    given) the text of a card has at most three code units more than the
    maximum and starts like the content; content within the maximum is
    shown as it is, longer content is cut at the maximum and followed by
    three dots. *)
Theorem truncated_content content maxLength :
  (forall m, maxLength = Some m -> (0 <= m)%Z) ->
  let m := match maxLength with Some m => m | None => 200%Z end in
  let shown := EventCard.truncateContent content maxLength in
  (Z.of_nat (List.length shown) <= m + 3)%Z /\
  firstn (Z.to_nat m) shown = firstn (Z.to_nat m) content /\
  ((Z.of_nat (List.length content) <= m)%Z -> shown = content) /\
  ((m < Z.of_nat (List.length content))%Z ->
   Z.of_nat (List.length shown) = (m + 3)%Z /\
   skipn (Z.to_nat m) shown = lit "...").
Proof.
  intros Hm. cbv zeta. unfold EventCard.truncateContent. cbv zeta.
  set (m := match maxLength with Some m => m | None => 200%Z end).
  assert (H0 : (0 <= m)%Z).
  { subst m. destruct maxLength as [m|]; [exact (Hm m eq_refl)|lia]. }
  clearbody m. clear Hm.
  destruct (Z.leb_spec (Z.of_nat (List.length content)) m) as [Hle|Hlt].
  - split; [lia|]. split; [reflexivity|]. split; [reflexivity|]. lia.
  - unfold slice_to. cbv zeta.
    destruct (Z.ltb_spec m 0) as [Hneg|_]; [lia|].
    rewrite Z.min_l by lia.
    assert (Hlen : List.length (firstn (Z.to_nat m) content) = Z.to_nat m)
      by (apply firstn_length_le; lia).
    rewrite length_app, Hlen. change (List.length (lit "...")) with 3%nat.
    split; [lia|]. split.
    + rewrite firstn_app, Hlen, Nat.sub_diag, firstn_firstn, Nat.min_id.
      cbn [firstn]. apply List.app_nil_r.
    + split; [lia|]. intros _. split; [lia|].
      rewrite skipn_app, Hlen, Nat.sub_diag.
      rewrite skipn_all2 by lia. reflexivity.
Qed.

(** ** parseInt reads back what toString wrote *)

Lemma digit_cases c :
  is_digit c = true -> In c [48; 49; 50; 51; 52; 53; 54; 55; 56; 57]%N.
Proof.
  unfold is_digit. rewrite andb_true_iff, !N.leb_le. intros [H1 H2].
  cbn [In].
  assert (H : (c = 48 \/ c = 49 \/ c = 50 \/ c = 51 \/ c = 52 \/ c = 53 \/
               c = 54 \/ c = 55 \/ c = 56 \/ c = 57)%N) by lia.
  intuition congruence.
Qed.

Ltac each_digit H :=
  apply digit_cases in H; cbn [In] in H;
  repeat (destruct H as [H|H]; [subst; try reflexivity|]); try contradiction.

Lemma digits_uint u : Forall (fun c => is_digit c = true) (uint_units u).
Proof. induction u; cbn [uint_units]; constructor; try reflexivity; assumption. Qed.

Lemma radix_prefix_acc u p :
  radix_prefix 10 (Some (Npos p)) (uint_units u)
  = Some (Npos (Pos.of_uint_acc u p)).
Proof.
  revert p. induction u; intros p; cbn [uint_units radix_prefix Pos.of_uint_acc];
    [reflexivity| | | | | | | | | | ];
    match goal with
    | |- context [radix_digit 10 (digit_unit ?k)] =>
        change (radix_digit 10 (digit_unit k)) with (Some k)
    end; cbv iota beta;
    match goal with
    | |- radix_prefix 10 (Some ?a) _ = Some (N.pos (Pos.of_uint_acc _ ?q)) =>
        replace a with (Npos q) by lia
    end; apply IHu.
Qed.

Lemma radix_prefix_zero u acc :
  acc = None \/ acc = Some 0%N -> u <> Decimal.Nil ->
  radix_prefix 10 acc (uint_units u) = Some (Pos.of_uint u).
Proof.
  revert acc. induction u; intros acc Hacc Hu; [elim Hu; reflexivity|..];
    cbn [uint_units radix_prefix Pos.of_uint];
    match goal with
    | |- context [radix_digit 10 (digit_unit ?k)] =>
        change (radix_digit 10 (digit_unit k)) with (Some k)
    end; cbv iota beta.
  - assert (E : Some match acc with Some a => (a * 10 + 0)%N | None => 0%N end
                = Some 0%N) by (destruct Hacc as [-> | ->]; reflexivity).
    rewrite E. destruct u; try (apply IHu; [right; reflexivity|discriminate]).
    reflexivity.
  - assert (E : match acc with Some a => (a * 10 + 1)%N | None => 1%N end = 1%N)
      by (destruct Hacc as [-> | ->]; reflexivity).
    rewrite E. apply radix_prefix_acc.
  - assert (E : match acc with Some a => (a * 10 + 2)%N | None => 2%N end = 2%N)
      by (destruct Hacc as [-> | ->]; reflexivity).
    rewrite E. apply radix_prefix_acc.
  - assert (E : match acc with Some a => (a * 10 + 3)%N | None => 3%N end = 3%N)
      by (destruct Hacc as [-> | ->]; reflexivity).
    rewrite E. apply radix_prefix_acc.
  - assert (E : match acc with Some a => (a * 10 + 4)%N | None => 4%N end = 4%N)
      by (destruct Hacc as [-> | ->]; reflexivity).
    rewrite E. apply radix_prefix_acc.
  - assert (E : match acc with Some a => (a * 10 + 5)%N | None => 5%N end = 5%N)
      by (destruct Hacc as [-> | ->]; reflexivity).
    rewrite E. apply radix_prefix_acc.
  - assert (E : match acc with Some a => (a * 10 + 6)%N | None => 6%N end = 6%N)
      by (destruct Hacc as [-> | ->]; reflexivity).
    rewrite E. apply radix_prefix_acc.
  - assert (E : match acc with Some a => (a * 10 + 7)%N | None => 7%N end = 7%N)
      by (destruct Hacc as [-> | ->]; reflexivity).
    rewrite E. apply radix_prefix_acc.
  - assert (E : match acc with Some a => (a * 10 + 8)%N | None => 8%N end = 8%N)
      by (destruct Hacc as [-> | ->]; reflexivity).
    rewrite E. apply radix_prefix_acc.
  - assert (E : match acc with Some a => (a * 10 + 9)%N | None => 9%N end = 9%N)
      by (destruct Hacc as [-> | ->]; reflexivity).
    rewrite E. apply radix_prefix_acc.
Qed.

Lemma radix_prefix_to_uint n :
  radix_prefix 10 None (uint_units (N.to_uint n)) = Some n.
Proof.
  rewrite radix_prefix_zero;
    [|left; reflexivity|apply to_uint_nonnil].
  change (Pos.of_uint (N.to_uint n)) with (N.of_uint (N.to_uint n)).
  rewrite DecimalN.Unsigned.of_to. reflexivity.
Qed.

(** A run of digits, with or without a minus sign before it, is read in
    radix 10. *)
Lemma parseInt_digits (negative : bool) s :
  s <> [] -> Forall (fun c => is_digit c = true) s ->
  parseInt ((if negative then lit "-" else []) ++ s)
  = match radix_prefix 10 None s with
    | Some n => Finite (if negative then - Z.of_N n else Z.of_N n)
    | None => NaN
    end.
Proof.
  intros Hs Hd. destruct s as [|h t]; [elim Hs; reflexivity|].
  inversion Hd as [|? ? Hh Ht]; subst.
  unfold parseInt. cbv zeta. destruct negative.
  - change (lit "-" ++ h :: t) with (45%N :: h :: t).
    cbn [trim_start]. change (is_StrWhiteSpaceChar 45) with false. cbv iota.
    change (45 =? 45)%N with true. cbv beta iota.
    destruct t as [|x r]; [reflexivity|].
    inversion Ht as [|? ? Hx _]; subst.
    assert (E : ((x =? 120) || (x =? 88))%N = false) by (each_digit Hx).
    rewrite E, andb_false_r. reflexivity.
  - cbn [app trim_start].
    assert (W : is_StrWhiteSpaceChar h = false) by (each_digit Hh).
    assert (M : (h =? 45)%N = false) by (each_digit Hh).
    assert (P : (h =? 43)%N = false) by (each_digit Hh).
    rewrite W, M, P. cbv beta iota.
    destruct t as [|x r]; [reflexivity|].
    inversion Ht as [|? ? Hx _]; subst.
    assert (E : ((x =? 120) || (x =? 88))%N = false) by (each_digit Hx).
    rewrite E, andb_false_r. reflexivity.
Qed.

Lemma parseInt_toString z : parseInt (Z_toString z) = Finite z.
Proof.
  unfold Z_toString.
  rewrite (parseInt_digits (z <? 0)%Z);
    [|intros H; destruct (uint_units_head _ (to_uint_nonnil (Z.abs_N z)))
                  as (h & t & E & _); congruence
     |apply digits_uint].
  rewrite radix_prefix_to_uint.
  destruct (Z.ltb_spec z 0); f_equal; rewrite N2Z.inj_abs_N; lia.
Qed.

(** The text of an integer: not empty, a minus sign or a digit first, and
    no comma. *)
Lemma toString_units z :
  exists h t,
    Z_toString z = h :: t /\
    (h = 45%N \/ is_digit h = true) /\
    Forall (fun c => (c =? 44)%N = false) (h :: t).
Proof.
  unfold Z_toString.
  destruct (uint_units_head _ (to_uint_nonnil (Z.abs_N z))) as (h & t & E & Hh).
  pose proof (digits_uint (N.to_uint (Z.abs_N z))) as D.
  assert (C : Forall (fun c => (c =? 44)%N = false)
                (uint_units (N.to_uint (Z.abs_N z)))).
  { eapply Forall_impl; [|exact D]. intros c Hc. cbv beta in Hc.
    each_digit Hc. }
  destruct (z <? 0)%Z.
  - exists 45%N, (uint_units (N.to_uint (Z.abs_N z))).
    split; [reflexivity|]. split; [left; reflexivity|].
    constructor; [reflexivity|exact C].
  - exists h, t. cbn [app]. split; [exact E|]. split; [right; exact Hh|].
    rewrite <- E. exact C.
Qed.

Lemma split_part sep p rest :
  Forall (fun c => (c =? sep)%N = false) p ->
  split sep (p ++ sep :: rest) = p :: split sep rest.
Proof.
  induction 1 as [|c p Hc Hp IH]; cbn [app split].
  - rewrite N.eqb_refl. reflexivity.
  - rewrite Hc, IH. reflexivity.
Qed.

Lemma split_whole sep p :
  Forall (fun c => (c =? sep)%N = false) p -> split sep p = [p].
Proof.
  induction 1 as [|c p Hc Hp IH]; cbn [split]; [reflexivity|].
  rewrite Hc, IH. reflexivity.
Qed.

Lemma split_join sep part parts :
  Forall (Forall (fun c => (c =? sep)%N = false)) (part :: parts) ->
  split sep (join [sep] (part :: parts)) = part :: parts.
Proof.
  revert part. induction parts as [|q parts IH]; intros part H.
  - cbn [join]. apply split_whole. inversion H; assumption.
  - inversion H as [|? ? Hp Hrest]; subst.
    change (join [sep] (part :: q :: parts))
      with (part ++ sep :: join [sep] (q :: parts)).
    rewrite (split_part _ _ _ Hp), (IH q Hrest). reflexivity.
Qed.

Lemma read_kinds zs :
  List.filter (fun k => negb (isNaN k))
    (map (fun k => parseInt k) (map Z_toString zs))
  = map Finite zs.
Proof.
  induction zs as [|z zs IH]; [reflexivity|].
  cbn [map List.filter]. rewrite parseInt_toString. cbn [isNaN negb].
  rewrite IH. reflexivity.
Qed.

Lemma join_head sep z zs :
  exists h t,
    join sep (map Z_toString (z :: zs)) = h :: t /\
    (h = 45%N \/ is_digit h = true).
Proof.
  destruct (toString_units z) as (h & t & E & Hh & _).
  cbn [map]. destruct (map Z_toString zs) as [|q rest].
  - exists h, t. split; [exact E|exact Hh].
  - exists h, (t ++ sep ++ join sep (q :: rest)).
    change (join sep (Z_toString z :: q :: rest))
      with (Z_toString z ++ sep ++ join sep (q :: rest)).
    rewrite E. split; [reflexivity|exact Hh].
Qed.

(** X20: [parseInt] reads back the safe integer [toString] wrote, so a
    custom kind typed as a decimal integer, and a list of such integers
    joined by commas, give a filter with exactly these kinds. *)
Theorem typed_kinds_read_back z zs limit customKind :
  Forall (fun k => (Z.abs k <= MAX_SAFE_INTEGER)%Z) (z :: zs) ->
  parseInt (Number_toString (Finite z)) = Finite z /\
  EventsList.kinds
    (EventsList.build_filter (lit "custom") limit (Number_toString (Finite z)))
  = Some [Finite z] /\
  EventsList.kinds
    (EventsList.build_filter
       (join (lit ",") (map (fun k => Number_toString (Finite k)) (z :: zs)))
       limit customKind)
  = Some (map Finite (z :: zs)).
Proof.
  intros _. cbn [Number_toString]. split; [apply parseInt_toString|]. split.
  - unfold EventsList.build_filter. cbv zeta.
    change (units_eqb (lit "custom") (lit "all")) with false.
    change (units_eqb (lit "custom") (lit "custom")) with true.
    cbn [negb andb].
    destruct (toString_units z) as (h & t & E & _).
    rewrite E. cbn [ToBoolean]. rewrite <- E.
    rewrite parseInt_toString. reflexivity.
  - rewrite (map_ext (fun k => Z_toString k) Z_toString (fun _ => eq_refl)).
    unfold EventsList.build_filter. cbv zeta.
    destruct (join_head (lit ",") z zs) as (h & t & E & Hh).
    assert (Eall : units_eqb (join (lit ",") (map Z_toString (z :: zs)))
                     (lit "all") = false).
    { rewrite E. destruct Hh as [-> |Hh]; [reflexivity|]. each_digit Hh. }
    assert (Ecustom : units_eqb (join (lit ",") (map Z_toString (z :: zs)))
                        (lit "custom") = false).
    { rewrite E. destruct Hh as [-> |Hh]; [reflexivity|]. each_digit Hh. }
    rewrite Eall, Ecustom. cbn [negb andb].
    change (lit ",") with [44%N].
    assert (S : split 44 (join [44%N] (map Z_toString (z :: zs)))
                = map Z_toString (z :: zs)).
    { cbn [map]. apply split_join. change (Z_toString z :: map Z_toString zs)
        with (map Z_toString (z :: zs)).
      apply Forall_forall. intros p Hp. apply in_map_iff in Hp.
      destruct Hp as (k & <- & _).
      destruct (toString_units k) as (h' & t' & E' & _ & Hc).
      rewrite E'. exact Hc. }
    rewrite S, read_kinds. reflexivity.
Qed.

(** ** Events of the same second *)

Lemma filter_sort_insert ts x l :
  List.filter (fun e => (EventsList.created_at e =? ts)%Z)
    (sort_insert by_created_at x l)
  = List.filter (fun e => (EventsList.created_at e =? ts)%Z) (x :: l).
Proof.
  induction l as [|y l IH]; cbn [sort_insert]; [reflexivity|].
  destruct (by_created_at x y <=? 0)%Z eqn:E; [reflexivity|].
  cbn [List.filter] in *. rewrite IH.
  apply Z.leb_gt in E. unfold by_created_at in E.
  destruct (Z.eqb_spec (EventsList.created_at x) ts) as [Hx|Hx];
    destruct (Z.eqb_spec (EventsList.created_at y) ts) as [Hy|Hy];
    try reflexivity.
  lia.
Qed.

(** X21: the events query fails exactly as the pool does; otherwise it
    returns as many events as the pool gave, and the events of one
    [created_at] are in the order the pool gave them. *)
Theorem same_second_order query kindFilter limit customKind :
  match EventsList.queryFn query kindFilter limit customKind with
  | inl e =>
      query [EventsList.build_filter kindFilter limit customKind] = inl e
  | inr sorted =>
      exists events,
        query [EventsList.build_filter kindFilter limit customKind]
        = inr events /\
        List.length sorted = List.length events /\
        forall ts,
          List.filter (fun e => (EventsList.created_at e =? ts)%Z) sorted
          = List.filter (fun e => (EventsList.created_at e =? ts)%Z) events
  end.
Proof.
  unfold EventsList.queryFn. cbv zeta.
  destruct (query _) as [e|events]; [reflexivity|].
  exists events. split; [reflexivity|].
  change (fun a b => (EventsList.created_at b - EventsList.created_at a)%Z)
    with by_created_at.
  split.
  - symmetry. apply Permutation.Permutation_length, Array_sort_perm.
  - intros ts. induction events as [|x l IH]; [reflexivity|].
    unfold Array_sort. cbn [fold_right].
    rewrite filter_sort_insert. cbn [List.filter].
    unfold Array_sort in IH. rewrite IH. reflexivity.
Qed.

(** ** The address in the header *)

Lemma startsWith_app s p : startsWith s p = true <-> exists b, s = p ++ b.
Proof.
  revert s. induction p as [|c p IH]; intros s; cbn [startsWith].
  - split; [intros _; exists s; reflexivity|reflexivity].
  - destruct s as [|x s].
    + split; [discriminate|intros (b & H); discriminate H].
    + rewrite andb_true_iff, N.eqb_eq, IH. split.
      * intros (-> & b & ->). exists b. reflexivity.
      * intros (b & H). injection H as -> ->. split; [reflexivity|].
        exists b. reflexivity.
Qed.

Lemma skipn_prefix (p b : jsstring) : skipn (List.length p) (p ++ b) = b.
Proof. induction p; [reflexivity|exact IHp]. Qed.

Lemma replace_first_occurrence pattern replacement s :
  if includes s pattern then
    exists a b,
      s = a ++ pattern ++ b /\
      replace_first pattern replacement s = a ++ replacement ++ b /\
      forall a' b', s = a' ++ pattern ++ b' ->
                    (List.length a <= List.length a')%nat
  else replace_first pattern replacement s = s.
Proof.
  induction s as [|c s IH].
  - cbn [includes replace_first]. rewrite orb_false_r.
    destruct (startsWith [] pattern) eqn:E; [|reflexivity].
    apply startsWith_app in E. destruct E as (b & E).
    exists [], b. split; [exact E|]. split.
    + rewrite E at 1. rewrite skipn_prefix. reflexivity.
    + intros. cbn. lia.
  - cbn [includes replace_first].
    destruct (startsWith (c :: s) pattern) eqn:E; cbn [orb].
    + apply startsWith_app in E. destruct E as (b & E).
      exists [], b. split; [exact E|]. split.
      * rewrite E. rewrite skipn_prefix. reflexivity.
      * intros. cbn. lia.
    + destruct (includes s pattern).
      * destruct IH as (a & b & Hs & Hr & Hmin).
        exists (c :: a), b. split; [rewrite Hs; reflexivity|].
        split; [rewrite Hr; reflexivity|].
        intros [|x a'] b' H.
        -- exfalso. assert (T : startsWith (c :: s) pattern = true)
             by (apply startsWith_app; exists b'; exact H).
           congruence.
        -- injection H as _ H. cbn [List.length].
           specialize (Hmin a' b' H). lia.
      * rewrite IH. reflexivity.
Qed.

(** X19: the address in the header is the relay address without its
    first "wss://", wherever that stands, and the whole address when
    there is none; for an address that starts with "wss://" the URL of
    the management calls is "https://" followed by the address shown. *)
Theorem header_address relayUrl :
  (if includes relayUrl (lit "wss://") then
     exists a b,
       relayUrl = a ++ lit "wss://" ++ b /\
       RelayManager.shown relayUrl = a ++ b /\
       forall a' b', relayUrl = a' ++ lit "wss://" ++ b' ->
                     (List.length a <= List.length a')%nat
   else RelayManager.shown relayUrl = relayUrl) /\
  forall rest,
    RelayManager.shown (lit "wss://" ++ rest) = rest /\
    httpUrl (lit "wss://" ++ rest)
    = lit "https://" ++ RelayManager.shown (lit "wss://" ++ rest).
Proof.
  split.
  - exact (replace_first_occurrence (lit "wss://") [] relayUrl).
  - intros rest. split; [reflexivity|]. rewrite httpUrl_wss. reflexivity.
Qed.

End CardFacts.

(** ** The relay information document *)

Section InformationFacts.
Import Text Net.

Lemma classify_not_connected e :
  ConnectionStatus.info (ConnectionStatus.classify e) = None /\
  ConnectionStatus.error (ConnectionStatus.classify e) <> None /\
  ConnectionStatus.status (ConnectionStatus.classify e) <> lit "connected" /\
  In (ConnectionStatus.status (ConnectionStatus.classify e))
     [lit "cors_error"; lit "network_error"; lit "error"].
Proof.
  unfold ConnectionStatus.classify.
  destruct (TypeError_including (lit "CORS") e);
    [|destruct (TypeError_including (lit "Failed to fetch") e)];
    cbn [ConnectionStatus.info ConnectionStatus.error ConnectionStatus.status];
    (split; [reflexivity|]); (split; [discriminate|]);
    (split; [intros H; vm_compute in H; discriminate H|]);
    cbn [In]; tauto.
Qed.

(** X14: [checkRelayConnection] always returns one of five states; the
    state is "connected" exactly when the record has the document and
    exactly when it has no error text, which is exactly when the request
    was answered with a status in 200..299 and a body that parses; it is
    "http_error" exactly when the status was outside that range, the
    error text being "HTTP " and the status. *)
Theorem connection_record fetch relayUrl :
  let c := ConnectionStatus.checkRelayConnection fetch relayUrl in
  In (ConnectionStatus.status c)
     [lit "connected"; lit "http_error"; lit "cors_error";
      lit "network_error"; lit "error"] /\
  (ConnectionStatus.status c = lit "connected" <->
   ConnectionStatus.info c <> None) /\
  (ConnectionStatus.status c = lit "connected" <->
   ConnectionStatus.error c = None) /\
  (ConnectionStatus.status c = lit "connected" <->
   exists response data,
     fetch (httpUrl relayUrl)
       {| headers := [(lit "Accept", lit "application/nostr+json")];
          mode := Some (lit "cors") |} = inr response /\
     ok response = true /\ json response = inr data /\
     ConnectionStatus.info c = Some data) /\
  (ConnectionStatus.status c = lit "http_error" <->
   exists response,
     fetch (httpUrl relayUrl)
       {| headers := [(lit "Accept", lit "application/nostr+json")];
          mode := Some (lit "cors") |} = inr response /\
     ok response = false /\
     ConnectionStatus.error c
     = Some (lit "HTTP " ++ Z_toString (status response))).
Proof.
  cbv zeta. unfold ConnectionStatus.checkRelayConnection. cbv zeta.
  change (replace_anchored wss_scheme (lit "https://") relayUrl)
    with (httpUrl relayUrl).
  destruct (fetch (httpUrl relayUrl) _) as [e|response].
  - destruct (classify_not_connected e) as (Hi & He & Hs & Hin).
    rewrite Hi. split; [cbn [In] in *; tauto|].
    split; [split; [tauto|intros H; elim H; reflexivity]|].
    split; [tauto|].
    split; [split; [tauto|intros (r & d & H & _); discriminate H]|].
    split; [|intros (r & H & _); discriminate H].
    intros H. exfalso. rewrite H in Hin. cbn [In] in Hin.
    repeat (destruct Hin as [Hin|Hin];
            [vm_compute in Hin; discriminate Hin|]).
    exact Hin.
  - destruct (ok response) eqn:Hok.
    + destruct (json response) as [e|data] eqn:Hj.
      * destruct (classify_not_connected e) as (Hi & He & Hs & Hin).
        rewrite Hi. split; [cbn [In] in *; tauto|].
        split; [split; [tauto|intros H; elim H; reflexivity]|].
        split; [tauto|].
        split; [split; [tauto|]|].
        { intros (r & d & H & _ & H2 & _). injection H as <-.
          rewrite Hj in H2. discriminate H2. }
        split; [|intros (r & H & H2 & _); injection H as <-; congruence].
        intros H. exfalso. rewrite H in Hin. cbn [In] in Hin.
        repeat (destruct Hin as [Hin|Hin];
                [vm_compute in Hin; discriminate Hin|]).
        exact Hin.
      * cbn [ConnectionStatus.info ConnectionStatus.error
             ConnectionStatus.status].
        split; [cbn [In]; tauto|].
        split; [split; [discriminate|reflexivity]|].
        split; [split; reflexivity|].
        split; [split; [|reflexivity]|].
        { intros _. exists response, data. repeat split; assumption. }
        split; [intros H; vm_compute in H; discriminate H|].
        intros (r & H & H2 & _). injection H as <-. congruence.
    + cbn [ConnectionStatus.info ConnectionStatus.error
           ConnectionStatus.status].
      split; [cbn [In]; tauto|].
      split; [split; [intros H; vm_compute in H; discriminate H|]|].
      { intros H. elim H. reflexivity. }
      split; [split; [intros H; vm_compute in H; discriminate H|discriminate]|].
      split; [split; [intros H; vm_compute in H; discriminate H|]|].
      { intros (r & d & H & H2 & _). injection H as <-. congruence. }
      split; [intros _|reflexivity].
      exists response. repeat split; [exact Hok].
Qed.

(** X15: once loaded, the badge shows "Connected", "CORS Issue" or
    "Error"; "Connected" exactly when the request was answered with a
    status in 200..299 and a body that parses, "CORS Issue" exactly when
    the request or the reading of the body failed with a TypeError whose
    message includes "CORS". *)
Theorem badge_of_connection fetch relayUrl :
  let init :=
    {| headers := [(lit "Accept", lit "application/nostr+json")];
       mode := Some (lit "cors") |} in
  let shown :=
    ConnectionStatus.badge false
      (Some (ConnectionStatus.checkRelayConnection fetch relayUrl)) in
  In shown [lit "Connected"; lit "CORS Issue"; lit "Error"] /\
  (shown = lit "Connected" <->
   exists response data,
     fetch (httpUrl relayUrl) init = inr response /\
     ok response = true /\ json response = inr data) /\
  (shown = lit "CORS Issue" <->
   exists e,
     TypeError_including (lit "CORS") e = true /\
     (fetch (httpUrl relayUrl) init = inl e \/
      exists response,
        fetch (httpUrl relayUrl) init = inr response /\
        ok response = true /\ json response = inl e)).
Proof.
  cbv zeta. unfold ConnectionStatus.checkRelayConnection. cbv zeta.
  change (replace_anchored wss_scheme (lit "https://") relayUrl)
    with (httpUrl relayUrl).
  assert (C : forall e,
    let shown := ConnectionStatus.badge false
                   (Some (ConnectionStatus.classify e)) in
    In shown [lit "Connected"; lit "CORS Issue"; lit "Error"] /\
    shown <> lit "Connected" /\
    (shown = lit "CORS Issue" <-> TypeError_including (lit "CORS") e = true)).
  { intros e. cbv zeta. unfold ConnectionStatus.classify.
    destruct (TypeError_including (lit "CORS") e);
      [|destruct (TypeError_including (lit "Failed to fetch") e)];
      (split; [cbn; tauto|]);
      (split; [intros H; vm_compute in H; discriminate H|]);
      split; try reflexivity; try discriminate;
      intros H; vm_compute in H; discriminate H. }
  destruct (fetch (httpUrl relayUrl) _) as [e|response].
  - destruct (C e) as (Hin & Hn & Hc). split; [exact Hin|].
    split; [split; [intros H; elim (Hn H)|]|].
    { intros (r & d & H & _). discriminate H. }
    rewrite Hc. split.
    + intros H. exists e. split; [exact H|left; reflexivity].
    + intros (e' & H & [E|(r & E & _)]); [|discriminate E].
      injection E as <-. exact H.
  - destruct (ok response) eqn:Hok.
    + destruct (json response) as [e|data] eqn:Hj.
      * destruct (C e) as (Hin & Hn & Hc). split; [exact Hin|].
        split; [split; [intros H; elim (Hn H)|]|].
        { intros (r & d & H & _ & H2). injection H as <-. congruence. }
        rewrite Hc. split.
        -- intros H. exists e. split; [exact H|].
           right. exists response. repeat split; assumption.
        -- intros (e' & H & [E|(r & E & _ & E2)]); [discriminate E|].
           injection E as <-. rewrite Hj in E2. injection E2 as <-. exact H.
      * split; [cbn; tauto|].
        split; [split; [|reflexivity]|].
        { intros _. exists response, data. repeat split; assumption. }
        split; [intros H; vm_compute in H; discriminate H|].
        intros (e' & _ & [E|(r & E & _ & E2)]); [discriminate E|].
        injection E as <-. congruence.
    + split; [cbn; tauto|].
      split; [split; [intros H; vm_compute in H; discriminate H|]|].
      { intros (r & d & H & H2 & _). injection H as <-. congruence. }
      split; [intros H; vm_compute in H; discriminate H|].
      intros (e' & _ & [E|(r & E & E2 & _)]); [discriminate E|].
      injection E as <-. congruence.
Qed.

Lemma rethrow_never_matches e :
  TypeError_including (lit "CORS") (RelayInfo.rethrow e) = false /\
  TypeError_including (lit "Failed to fetch") (RelayInfo.rethrow e) = false.
Proof.
  unfold RelayInfo.rethrow.
  destruct (TypeError_including (lit "CORS") e) eqn:E1;
    [split; reflexivity|].
  destruct (TypeError_including (lit "Failed to fetch") e) eqn:E2;
    [split; reflexivity|].
  split; assumption.
Qed.

(** X16: against the same answers of the network, [fetchRelayInfo] of
    RelayInfo returns a document exactly when [checkRelayConnection]
    reports "connected", and it is the same document; what it throws
    otherwise is never a TypeError whose message includes "CORS" or
    "Failed to fetch". *)
Theorem relay_info_agrees fetch relayUrl :
  let c := ConnectionStatus.checkRelayConnection fetch relayUrl in
  match RelayInfo.fetchRelayInfo fetch relayUrl with
  | inr data =>
      ConnectionStatus.status c = lit "connected" /\
      ConnectionStatus.info c = Some data
  | inl e =>
      ConnectionStatus.status c <> lit "connected" /\
      ConnectionStatus.info c = None /\
      TypeError_including (lit "CORS") e = false /\
      TypeError_including (lit "Failed to fetch") e = false
  end.
Proof.
  cbv zeta.
  unfold RelayInfo.fetchRelayInfo, RelayInfo.attempt,
    ConnectionStatus.checkRelayConnection. cbv zeta.
  destruct (fetch _ _) as [e|response].
  - destruct (classify_not_connected e) as (Hi & _ & Hs & _).
    destruct (rethrow_never_matches e). repeat split; assumption.
  - destruct (ok response); cbn [negb].
    + destruct (json response) as [e|data].
      * destruct (classify_not_connected e) as (Hi & _ & Hs & _).
        destruct (rethrow_never_matches e). repeat split; assumption.
      * split; reflexivity.
    + split; [intros H; vm_compute in H; discriminate H|].
      split; [reflexivity|]. apply rethrow_never_matches.
Qed.

(** X17: an answer with a status outside 200..299 makes [fetchRelayInfo]
    of RelayInfo throw "HTTP <status>: <status text>", the [catch] passing
    its own error on unchanged, where [checkRelayConnection] reports
    "HTTP <status>". *)
Theorem relay_info_http_failure fetch relayUrl response :
  fetch (httpUrl relayUrl)
    {| headers := [(lit "Accept", lit "application/nostr+json")];
       mode := Some (lit "cors") |} = inr response ->
  ok response = false ->
  RelayInfo.fetchRelayInfo fetch relayUrl
  = inl (ErrorObject PlainError
           (lit "HTTP " ++ Z_toString (status response) ++ lit ": "
              ++ statusText response)) /\
  ConnectionStatus.error (ConnectionStatus.checkRelayConnection fetch relayUrl)
  = Some (lit "HTTP " ++ Z_toString (status response)).
Proof.
  intros Hf Hok.
  unfold RelayInfo.fetchRelayInfo, RelayInfo.attempt,
    ConnectionStatus.checkRelayConnection. cbv zeta.
  change (replace_anchored wss_scheme (lit "https://") relayUrl)
    with (httpUrl relayUrl).
  rewrite Hf, Hok. split; reflexivity.
Qed.

(** X18: where a request without a mode is treated as one with the mode
    "cors", [fetchRelayInfo] of RelayStats and that of RelayInfo return
    the same document or both fail. *)
Theorem relay_stats_agrees fetch relayUrl :
  (forall url headers,
      fetch url {| headers := headers; mode := None |}
      = fetch url {| headers := headers; mode := Some (lit "cors") |}) ->
  match RelayStats.fetchRelayInfo fetch relayUrl,
        RelayInfo.fetchRelayInfo fetch relayUrl with
  | inr data, inr data' => data = data'
  | inl _, inl _ => True
  | _, _ => False
  end.
Proof.
  intros Hmode.
  unfold RelayStats.fetchRelayInfo, RelayInfo.fetchRelayInfo,
    RelayInfo.attempt. cbv zeta. rewrite Hmode.
  destruct (fetch _ _) as [e|response]; [exact I|].
  destruct (ok response); cbn [negb]; [|exact I].
  destruct (json response); [exact I|reflexivity].
Qed.

End InformationFacts.

(** ** Scenarios

    The facts above on concrete input: a relay that answers, a relay
    that refuses, and a page without a signer. *)

Section Scenarios.
Import Text Form.

Lemma ban_form_request_witness :
  exists call request text,
    EventModerationPanel.submit (Sample.online Sample.listing) Sample.relay
      (EventModerationPanel.handleBanEvent (lit "  eventid1 ") (lit " "))
    = Some call /\
    In (Fetch request) (trace call) /\
    body request = Some text /\
    JSON_parse text
    = Some (VObject [(lit "method", VString (lit "banevent"));
                     (lit "params", VArray [VString (lit "eventid1"); VNull])]).
Proof.
  pose proof (ban_form_request (Sample.online Sample.listing) Sample.relay
                (lit "  eventid1 ") (lit " ")) as H.
  destruct (EventModerationPanel.submit _ _ _) as [call|] eqn:E;
    [|vm_compute in H; discriminate H].
  destruct H as (_ & _ & H).
  assert (Hin : exists request, In (Fetch request) (trace call)).
  { vm_compute in E. injection E as <-. vm_compute.
    eexists. right. left. reflexivity. }
  destruct Hin as (request & Hin).
  destruct (H request Hin) as (text & Hb & Hp).
  exists call, request, text. split; [reflexivity|].
  split; [exact Hin|]. split; [exact Hb|]. rewrite Hp.
  vm_compute. reflexivity.
Defined.

Lemma approve_reject_request_witness :
  exists call request text,
    EventModerationPanel.submit (Sample.online Sample.listing) Sample.relay
      (EventModerationPanel.handleApproveEvent (lit "eventid1"))
    = Some call /\
    In (Fetch request) (trace call) /\
    body request = Some text /\
    JSON_parse text
    = Some (VObject [(lit "method", VString (lit "allowevent"));
                     (lit "params", VArray [VString (lit "eventid1"); VNull])]).
Proof.
  destruct (approve_reject_request (Sample.online Sample.listing) Sample.relay
              (lit "eventid1") None) as ((call & E & H) & _).
  assert (Hin : exists request, In (Fetch request) (trace call)).
  { vm_compute in E. injection E as <-. vm_compute.
    eexists. right. left. reflexivity. }
  destruct Hin as (request & Hin).
  destruct (H request Hin) as (text & Hb & Hp).
  exists call, request, text. split; [exact E|].
  split; [exact Hin|]. split; [exact Hb|exact Hp].
Defined.

Lemma add_user_form_request_witness :
  exists call request text,
    UserManagementPanel.submit (Sample.online Sample.listing) Sample.relay
      (UserManagementPanel.handleAddUser (lit " abc123") (lit "spam ")
         UserManagementPanel.ban)
    = Some call /\
    In (Fetch request) (trace call) /\
    body request = Some text /\
    JSON_parse text
    = Some (VObject [(lit "method", VString (lit "banpubkey"));
                     (lit "params",
                      VArray [VString (lit "abc123"); VString (lit "spam")])]).
Proof.
  pose proof (add_user_form_request (Sample.online Sample.listing)
                Sample.relay (lit " abc123") (lit "spam ")
                UserManagementPanel.ban) as H.
  destruct (UserManagementPanel.submit _ _ _) as [call|] eqn:E;
    [|vm_compute in H; discriminate H].
  destruct H as (_ & _ & H).
  assert (Hin : exists request, In (Fetch request) (trace call)).
  { vm_compute in E. injection E as <-. vm_compute.
    eexists. right. left. reflexivity. }
  destruct Hin as (request & Hin).
  destruct (H request Hin) as (text & Hb & Hp).
  exists call, request, text. split; [reflexivity|].
  split; [exact Hin|]. split; [exact Hb|]. rewrite Hp.
  vm_compute. reflexivity.
Defined.

Lemma manage_kind_form_request_witness :
  (exists call request text,
      RelaySettingsPanel.submit (Sample.online Sample.listing) Sample.relay
        (RelaySettingsPanel.handleManageKind (lit " 30023 articles")
           RelaySettingsPanel.allow)
      = Some call /\
      In (Fetch request) (trace call) /\
      body request = Some text /\
      JSON_parse text
      = Some (VObject [(lit "method", VString (lit "allowkind"));
                       (lit "params", VArray [VNumber (Finite 30023)])])) /\
  RelaySettingsPanel.submit (Sample.online Sample.listing) Sample.relay
    (RelaySettingsPanel.handleManageKind (lit "-1") RelaySettingsPanel.allow)
  = None.
Proof.
  split; [|reflexivity].
  pose proof (manage_kind_form_request (Sample.online Sample.listing)
                Sample.relay (lit " 30023 articles")
                RelaySettingsPanel.allow) as H.
  destruct (RelaySettingsPanel.submit _ _ _) as [call|] eqn:E;
    [|vm_compute in E; discriminate E].
  destruct H as (z & Hz & _ & H).
  vm_compute in Hz. injection Hz as <-.
  specialize (H ltac:(discriminate)).
  assert (Hin : exists request, In (Fetch request) (trace call)).
  { vm_compute in E. injection E as <-. vm_compute.
    eexists. right. left. reflexivity. }
  destruct Hin as (request & Hin).
  destruct (H request Hin) as (text & Hb & Hp).
  exists call, request, text. split; [reflexivity|].
  split; [exact Hin|]. split; [exact Hb|]. exact Hp.
Defined.

Lemma metadata_forms_request_witness :
  exists call request text,
    RelaySettingsPanel.submit (Sample.online Sample.listing) Sample.relay
      (RelaySettingsPanel.handleUpdateName (lit " My relay "))
    = Some call /\
    In (Fetch request) (trace call) /\
    body request = Some text /\
    JSON_parse text
    = Some (VObject [(lit "method", VString (lit "changerelayname"));
                     (lit "params", VArray [VString (lit "My relay")])]).
Proof.
  destruct (metadata_forms_request (Sample.online Sample.listing)
              Sample.relay (lit " My relay ") (lit "") (lit "")) as (H & _).
  destruct (RelaySettingsPanel.submit _ _ _) as [call|] eqn:E;
    [|vm_compute in H; discriminate H].
  destruct H as (_ & _ & H).
  assert (Hin : exists request, In (Fetch request) (trace call)).
  { vm_compute in E. injection E as <-. vm_compute.
    eexists. right. left. reflexivity. }
  destruct Hin as (request & Hin).
  destruct (H request Hin) as (text & Hb & Hp).
  exists call, request, text. split; [reflexivity|].
  split; [exact Hin|]. split; [exact Hb|]. rewrite Hp.
  vm_compute. reflexivity.
Defined.

Lemma block_ip_form_request_witness :
  exists call request text,
    RelaySettingsPanel.submit (Sample.online Sample.listing) Sample.relay
      (RelaySettingsPanel.handleBlockIp (lit "203.0.113.7 ") (lit ""))
    = Some call /\
    In (Fetch request) (trace call) /\
    body request = Some text /\
    JSON_parse text
    = Some (VObject [(lit "method", VString (lit "blockip"));
                     (lit "params",
                      VArray [VString (lit "203.0.113.7"); VNull])]).
Proof.
  pose proof (block_ip_form_request (Sample.online Sample.listing)
                Sample.relay (lit "203.0.113.7 ") (lit "")) as H.
  destruct (RelaySettingsPanel.submit _ _ _) as [call|] eqn:E;
    [|vm_compute in H; discriminate H].
  destruct H as (_ & _ & H).
  assert (Hin : exists request, In (Fetch request) (trace call)).
  { vm_compute in E. injection E as <-. vm_compute.
    eexists. right. left. reflexivity. }
  destruct Hin as (request & Hin).
  destruct (H request Hin) as (text & Hb & Hp).
  exists call, request, text. split; [reflexivity|].
  split; [exact Hin|]. split; [exact Hb|]. rewrite Hp.
  vm_compute. reflexivity.
Defined.

Lemma card_moderation_witness :
  outcome (EventsListPanel.moderate (Sample.online Sample.forbidden)
             Sample.relay (Sample.note 1762151400 (lit "second"))
             EventCard.ban (lit " spam "))
  = inl (Error (lit "HTTP 403: Forbidden")) /\
  exists request text,
    In (Fetch request)
       (trace (EventsListPanel.moderate (Sample.online Sample.forbidden)
                 Sample.relay (Sample.note 1762151400 (lit "second"))
                 EventCard.ban (lit " spam "))) /\
    body request = Some text /\
    JSON_parse text
    = Some (VObject [(lit "method", VString (lit "banevent"));
                     (lit "params",
                      VArray [VString (lit "4a5f1e6c8d2b3907");
                              VString (lit "spam")])]).
Proof.
  destruct (card_moderation (Sample.online Sample.forbidden) Sample.relay
              (Sample.note 1762151400 (lit "second")) EventCard.ban
              (lit " spam ")) as (E & H).
  split; [unfold outcome; rewrite E; vm_compute; reflexivity|].
  assert (Hin : exists request,
             In (Fetch request)
                (trace (EventsListPanel.moderate
                          (Sample.online Sample.forbidden) Sample.relay
                          (Sample.note 1762151400 (lit "second"))
                          EventCard.ban (lit " spam ")))).
  { vm_compute. eexists. right. left. reflexivity. }
  destruct Hin as (request & Hin).
  destruct (H request Hin) as (text & Hb & Hp).
  exists request, text. split; [exact Hin|]. split; [exact Hb|].
  rewrite Hp. vm_compute. reflexivity.
Defined.

Lemma enhanced_marks_witness :
  exists l,
    EventsListPanel.enhancedEvents
      (Some [Sample.note 1762151400 (lit "second")])
      (VArray [EventsListPanel.entry_value
                 {| EventsListPanel.entry_id := lit "4a5f1e6c8d2b3907";
                    EventsListPanel.entry_reason := Some (lit "spam") |}])
      (VArray []) = inr l /\
    map EventsListPanel.event l = [Sample.note 1762151400 (lit "second")] /\
    Forall (fun x =>
              EventsListPanel.moderationStatus x
              = Some EventsListPanel.banned /\
              EventsListPanel.moderationReason x = VString (lit "spam")) l.
Proof.
  destruct (enhanced_marks [Sample.note 1762151400 (lit "second")]
              [{| EventsListPanel.entry_id := lit "4a5f1e6c8d2b3907";
                  EventsListPanel.entry_reason := Some (lit "spam") |}] [])
    as (l & El & Hm & Hf).
  exists l. split; [exact El|]. split; [exact Hm|].
  destruct l as [|x [|y l]]; try discriminate Hm. injection Hm as Hx.
  inversion Hf as [|? ? (Hb & _ & _ & Hr & _) _]. subst.
  constructor; [|constructor]. rewrite Hx in *. split.
  - apply Hb. left. reflexivity.
  - apply (Hr {| EventsListPanel.entry_id := lit "4a5f1e6c8d2b3907";
                 EventsListPanel.entry_reason := Some (lit "spam") |}).
    exists [], []. split; [reflexivity|]. split; [reflexivity|intros []].
Defined.

Lemma enhanced_needs_lists_witness :
  EventsListPanel.enhancedEvents
    (Some [Sample.note 1762151400 (lit "second")])
    (VObject [(lit "events", VArray [])]) VUndefined
  = inl TypeError.
Proof.
  apply (enhanced_needs_lists
           (Some [Sample.note 1762151400 (lit "second")])
           (VObject [(lit "events", VArray [])]) VUndefined);
    discriminate.
Defined.

Lemma enhanced_when_lists_fail_witness :
  exists b n,
    outcome (EventsListPanel.bannedEvents_queryFn Sample.offline Sample.relay)
    = inr b /\
    outcome (EventsListPanel.eventsNeedingModeration_queryFn Sample.offline
               Sample.relay) = inr n /\
    EventsListPanel.enhancedEvents (Some Sample.stored) b n
    = inr (map (fun e => {| EventsListPanel.event := e;
                            EventsListPanel.moderationStatus := None;
                            EventsListPanel.moderationReason := VUndefined |})
             Sample.stored).
Proof.
  apply (enhanced_when_lists_fail Sample.offline Sample.relay Sample.stored
           (Error (lit "NIP-07 extension not found"))
           (Error (lit "NIP-07 extension not found")));
    reflexivity.
Defined.

Lemma filter_kinds_witness :
  EventsList.kinds
    (EventsList.build_filter (lit "7,x,1, 6") (Finite 20) (lit ""))
  = Some [Finite 7; Finite 1; Finite 6] /\
  EventsList.kinds
    (EventsList.build_filter (lit "custom") (Finite 20) (lit "30023"))
  = Some [Finite 30023] /\
  EventsList.kinds
    (EventsList.build_filter (lit "custom") (Finite 20) (lit "kind"))
  = None.
Proof.
  split; [|split].
  - destruct (filter_kinds (lit "7,x,1, 6") (Finite 20) (lit ""))
      as (_ & _ & _ & H & _).
    rewrite H; [reflexivity|discriminate|discriminate].
  - destruct (filter_kinds (lit "custom") (Finite 20) (lit "30023"))
      as (_ & _ & H & _).
    rewrite (H eq_refl). reflexivity.
  - destruct (filter_kinds (lit "custom") (Finite 20) (lit "kind"))
      as (_ & _ & H & _).
    rewrite (H eq_refl). reflexivity.
Defined.

Lemma kind_names_distinct_witness :
  EventCard.getKindName (Finite 1) <> EventCard.getKindName (Finite 1984) /\
  EventCard.getKindName (Finite 2) <> EventCard.getKindName (Finite 1) /\
  EventCard.getKindName (Finite 1) = lit "Text Note" /\
  EventCard.getKindName (Finite 2) = lit "Kind 2".
Proof.
  split; [apply (kind_names_distinct 1 1984); discriminate|].
  split; [apply (kind_names_distinct 2 1); discriminate|].
  split; reflexivity.
Defined.

Lemma truncated_content_witness :
  let shown := EventCard.truncateContent (repeat 97%N 201) None in
  (Z.of_nat (List.length shown) <= 200 + 3)%Z /\
  firstn (Z.to_nat 200) shown = firstn (Z.to_nat 200) (repeat 97%N 201) /\
  ((Z.of_nat (List.length (repeat 97%N 201)) <= 200)%Z ->
   shown = repeat 97%N 201) /\
  ((200 < Z.of_nat (List.length (repeat 97%N 201)))%Z ->
   Z.of_nat (List.length shown) = (200 + 3)%Z /\
   skipn (Z.to_nat 200) shown = lit "...").
Proof.
  apply (truncated_content (repeat 97%N 201) None). intros m H. discriminate H.
Defined.

Lemma relay_info_http_failure_witness :
  RelayInfo.fetchRelayInfo
    (fun _ _ => inr {| Net.status := 404; Net.statusText := lit "Not Found";
                       Net.json := inr VNull |})
    Sample.relay
  = inl (Net.ErrorObject Net.PlainError (lit "HTTP 404: Not Found")) /\
  ConnectionStatus.error
    (ConnectionStatus.checkRelayConnection
       (fun _ _ => inr {| Net.status := 404; Net.statusText := lit "Not Found";
                          Net.json := inr VNull |})
       Sample.relay)
  = Some (lit "HTTP 404").
Proof.
  apply (relay_info_http_failure
           (fun _ _ => inr {| Net.status := 404;
                              Net.statusText := lit "Not Found";
                              Net.json := inr VNull |})
           Sample.relay
           {| Net.status := 404; Net.statusText := lit "Not Found";
              Net.json := inr VNull |});
    reflexivity.
Defined.

Lemma relay_stats_agrees_witness :
  match RelayStats.fetchRelayInfo
          (fun _ _ => inr {| Net.status := 200; Net.statusText := lit "OK";
                             Net.json := inr (VObject []) |})
          Sample.relay,
        RelayInfo.fetchRelayInfo
          (fun _ _ => inr {| Net.status := 200; Net.statusText := lit "OK";
                             Net.json := inr (VObject []) |})
          Sample.relay
  with
  | inr data, inr data' => data = data'
  | inl _, inl _ => True
  | _, _ => False
  end.
Proof.
  apply (relay_stats_agrees
           (fun _ _ => inr {| Net.status := 200; Net.statusText := lit "OK";
                              Net.json := inr (VObject []) |})
           Sample.relay).
  reflexivity.
Defined.

Lemma typed_kinds_read_back_witness :
  parseInt (Number_toString (Finite 30023)) = Finite 30023 /\
  EventsList.kinds
    (EventsList.build_filter (lit "custom") (Finite 20)
       (Number_toString (Finite 30023)))
  = Some [Finite 30023] /\
  EventsList.kinds
    (EventsList.build_filter
       (join (lit ",")
          (map (fun k => Number_toString (Finite k)) [30023; 6; 7]%Z))
       (Finite 20) (lit ""))
  = Some (map Finite [30023; 6; 7]%Z).
Proof.
  apply (typed_kinds_read_back 30023 [6; 7]%Z (Finite 20) (lit "")).
  repeat constructor; discriminate.
Defined.

End Scenarios.
